(** * galton: acquisition, normalisation and staging of weather forecasts

    A shallow embedding of the Python sources of the repository
    (src/galton/feature_engineering, src/galton/data_collection and
    scripts/init_local_data.py) and the properties proved about them.

    Conventions of the embedding:
    - a Python object that can be mutated through a reference (a pandas
      DataFrame) lives in a store, and a function over it is a program of the
      store monad [Store.Py];
    - a call that may raise returns a [Python.result];
    - an instant is an integer, the time elapsed since the epoch in UTC; a
      missing value of a column (NaN, NaT) is [None]. *)

From Stdlib Require Import ZArith QArith Qcanon String Ascii List Lia Bool.
From stdpp Require Import base option list gmap strings.

Local Open Scope Z_scope.

(** ** Results of calls that may raise *)

Module Python.

Inductive result (E A : Type) : Type :=
| Return (a : A)
| Raise (e : E).

Arguments Return {E A} a.
Arguments Raise {E A} e.

(** The built-in exceptions the embedded functions meet. *)
Inductive exception : Type :=
| KeyError (key : string)
| IndexError
| TypeError
| ValueError (msg : string)
| OverflowError.

#[global] Instance result_ret {E} : MRet (result E) := λ A a, Return a.

#[global] Instance result_bind {E} : MBind (result E) :=
  λ A B k m, match m with
             | Return a => k a
             | Raise e => Raise e
             end.

End Python.

(** ** The object store

    pandas objects are shared by reference: [df[mask]], [drop_duplicates],
    [reset_index], [copy] and [drop] build a new object, while an item
    assignment [df[c] = s] changes the object it is applied to.  A program is a
    function of the store that returns or raises; it is stuck ([None]) only
    on a reference that names no object, which a Python program cannot
    hold. *)

Module Store.
Import Python.

Section store.
Context {F E : Type}.

Definition Py (A : Type) : Type :=
  gmap nat F → option (result E A * gmap nat F).

Definition ret {A} (a : A) : Py A := λ h, Some (Return a, h).

Definition raise {A} (e : E) : Py A := λ h, Some (Raise e, h).

Definition bind {A B} (m : Py A) (k : A → Py B) : Py B :=
  λ h, match m h with
       | Some (Return a, h') => k a h'
       | Some (Raise e, h') => Some (Raise e, h')
       | None => None
       end.

(** Reading the object behind a reference. *)
Definition load (r : nat) : Py F :=
  λ h, match h !! r with
       | Some v => Some (Return v, h)
       | None => None
       end.

(** A new object, at a reference no object has yet. *)
Definition new (v : F) : Py nat :=
  λ h, let r := fresh (dom h) in Some (Return r, <[r := v]> h).

(** In-place update of the object behind a reference. *)
Definition assign (r : nat) (v : F) : Py unit :=
  λ h, match h !! r with
       | Some _ => Some (Return tt, <[r := v]> h)
       | None => None
       end.

(** Every object of the store [h] is in [h'], as it was. *)
Definition unchanged (h h' : gmap nat F) : Prop :=
  ∀ r v, h !! r = Some v → h' !! r = Some v.

(** A program leaves every object of the store it starts from as it was,
    whether it returns or raises. *)
Definition preserves {A} (m : Py A) : Prop :=
  ∀ h res h', m h = Some (res, h') → unchanged h h'.

End store.

End Store.

Notation "x <~ m ;; k" := (Store.bind m (λ x, k))
  (at level 100, m at next level, right associativity, only parsing).

(** ** feature_engineering/forecasts.py *)

Module Forecasts.
Import Python.

(** A row of the forecast frame: the columns the module reads, and
    [current_timestamp] for the columns it does not.  The two datetime
    columns are zone-aware, as openmeteo.py and accuweather.py stage them, so
    a cell is an instant or NaT, and two cells compare as instants. *)
Record Forecast : Type := mkForecast {
  datetime : option Z;               (* valid time; None is NaT *)
  forecast_temperature : option Qc;  (* None is NaN *)
  city : string;
  model_timestamp : option Z;        (* issue time; None is NaT *)
  model_name : string;
  model_id : Z;
  date : string;
  current_timestamp : option Z
}.

#[global] Instance Forecast_eq_dec : EqDecision Forecast.
Proof. solve_decision. Defined.

(** A frame is the list of its rows, each under its index label. *)
Abbreviation DataFrame := (list (Z * Forecast)).

Definition getitem_col {A} (f : Forecast → A) (df : DataFrame) : list A :=
  map (λ p, f p.2) df.

(** [a > b] on two cells of datetime columns: false as soon as one is NaT. *)
Definition gt (a b : option Z) : bool :=
  match a, b with
  | Some x, Some y => bool_decide (y < x)
  | _, _ => false
  end.

Definition series_gt (xs ys : list (option Z)) : list bool := zip_with gt xs ys.

Definition series_and (xs ys : list bool) : list bool := zip_with andb xs ys.

Definition notna {A} (xs : list (option A)) : list bool :=
  map (λ x, match x with Some _ => true | None => false end) xs.

Definition series_ne (xs : list string) (s : string) : list bool :=
  map (λ x, negb (bool_decide (x = s))) xs.

(** [df[mask]]: the rows whose mask entry is True, labels kept. *)
Fixpoint getitem_mask (df : DataFrame) (mask : list bool) : DataFrame :=
  match df, mask with
  | x :: df', true :: mask' => x :: getitem_mask df' mask'
  | _ :: df', false :: mask' => getitem_mask df' mask'
  | _, _ => []
  end.

(** The columns [drop_duplicates] is given as [subset], in that order. *)
Definition subset (r : Forecast)
  : option Z * option Qc * string * option Z * string * Z * string :=
  (datetime r, forecast_temperature r, city r, model_timestamp r,
   model_name r, model_id r, date r).

(** [duplicated(subset, keep="first")]: True for a row whose subset columns
    equal those of a row before it (missing values equal each other). *)
Fixpoint duplicated
    (seen : list (option Z * option Qc * string * option Z * string * Z * string))
    (df : DataFrame) : list bool :=
  match df with
  | [] => []
  | p :: df' =>
      if decide (subset p.2 ∈ seen)
      then true :: duplicated seen df'
      else false :: duplicated (subset p.2 :: seen) df'
  end.

Definition drop_duplicates (df : DataFrame) : DataFrame :=
  getitem_mask df (map negb (duplicated [] df)).

(** [reset_index(drop=True)]: the rows relabelled 0, 1, 2, ... *)
Definition reset_index (df : DataFrame) : DataFrame :=
  imap (λ i p, (Z.of_nat i, p.2)) df.

(** Line 37 of forecasts.py, the causality pass:
    [df[df["datetime"] > df["model_timestamp"]]]. *)
Abbreviation Py := (Store.Py (F := DataFrame) (E := exception)).

Definition causality_filter (df : nat) : Py nat :=
  d <~ Store.load df ;;
  Store.new (getitem_mask d
    (series_gt (getitem_col datetime d) (getitem_col model_timestamp d))).

Definition filter_redundant_forecasts (df : nat) : Py nat :=
  filtered_df <~ causality_filter df ;;
  f <~ Store.load filtered_df ;;
  deduped_df <~ Store.new (drop_duplicates f) ;;
  d <~ Store.load deduped_df ;;
  Store.new (reset_index d).

Definition filter_unused_forecast_data (df : nat) : Py nat :=
  d <~ Store.load df ;;
  let mask :=
    series_and
      (series_and (notna (getitem_col forecast_temperature d))
                  (series_ne (getitem_col city d) "Houston"))
      (series_ne (getitem_col model_name d) "best_match") in
  selected <~ Store.new (getitem_mask d mask) ;;
  s <~ Store.load selected ;;
  Store.new (reset_index s).

(** Valid time strictly after issue time. *)
Definition causal (r : Forecast) : Prop :=
  match datetime r, model_timestamp r with
  | Some valid, Some issue => issue < valid
  | _, _ => False
  end.

End Forecasts.

(** ** data_collection/utilities.py *)

Module Utilities.
Import Python.

(** *** Timestamps and time zones

    A zone gives the offset from UTC in force at an instant.  A cell of a
    datetime column is missing, naive (a wall-clock reading with no zone), or
    zone-aware: the wall-clock reading together with the offset it was taken
    under, as in ['2025-09-14 00:00:00-05:00']. *)

Record tzinfo : Type := { tzname : string; utcoffset : Z → Z }.

Definition UTC : tzinfo := {| tzname := "UTC"; utcoffset := λ _, 0 |}.

Inductive cell : Type :=
| NaT
| Naive (wall : Z)
| Aware (wall offset : Z).

(** The instant an aware reading denotes. *)
Definition instant (wall offset : Z) : Z := wall - offset.

(** [pd.to_datetime(_, utc=True)] on one cell: an aware reading is moved to
    UTC, a naive one is taken to be UTC already. *)
Definition to_datetime_utc (c : cell) : cell :=
  match c with
  | NaT => NaT
  | Naive wall => Aware wall 0
  | Aware wall offset => Aware (instant wall offset) 0
  end.

(** [tz_convert(zone)] on one cell: the same instant read in [zone]; pandas
    refuses a naive reading. *)
Definition tz_convert (zone : tzinfo) (c : cell) : result exception cell :=
  match c with
  | NaT => Return NaT
  | Naive _ => Raise TypeError
  | Aware wall offset =>
      let i := instant wall offset in
      Return (Aware (i + utcoffset zone i) (utcoffset zone i))
  end.

(** [series.dt.tz_convert(zone)]. *)
Fixpoint dt_tz_convert (zone : tzinfo) (s : list cell)
  : result exception (list cell) :=
  match s with
  | [] => Return []
  | c :: s' =>
      match tz_convert zone c with
      | Raise e => Raise e
      | Return c' =>
          match dt_tz_convert zone s' with
          | Raise e => Raise e
          | Return cs => Return (c' :: cs)
          end
      end
  end.

(** What line 87 computes for one cell of the column. *)
Definition to_utc (c : cell) : result exception cell :=
  tz_convert UTC (to_datetime_utc c).

(** Modelled from the spec: the conversion back to the original zone, which
    the repository does not define.  The spec names it [to_original_zone];
    it is pandas' [tz_convert] to the zone the reading was taken in. *)
Definition to_original_zone (zone : tzinfo) (c : cell) : result exception cell :=
  tz_convert zone c.

(** A reading was taken in [zone]: the offset it carries is the one [zone]
    has at its instant. *)
Definition in_zone (zone : tzinfo) (c : cell) : Prop :=
  match c with
  | NaT => True
  | Naive _ => False
  | Aware wall offset => utcoffset zone (instant wall offset) = offset
  end.

(** *** Frames of datetime columns *)

Record DataFrame : Type := mkDataFrame {
  index : list Z;
  columns : gmap string (list cell)
}.

Abbreviation Py := (Store.Py (F := DataFrame) (E := exception)).

Definition copy (df : nat) : Py nat :=
  d <~ Store.load df ;; Store.new d.

(** [df[col]], a KeyError when the frame has no such column. *)
Definition getitem (df : nat) (col : string)
  : Py (list cell) :=
  d <~ Store.load df ;;
  match columns d !! col with
  | Some s => Store.ret s
  | None => Store.raise (KeyError col)
  end.

(** [df[col] = s]: the object behind [df] itself gets the column. *)
Definition setitem (df : nat) (col : string) (s : list cell)
  : Py unit :=
  d <~ Store.load df ;;
  Store.assign df (mkDataFrame (index d) (<[col := s]> (columns d))).

(** [df.drop(columns=[col])]: a new frame without the column. *)
Definition drop_columns (df : nat) (col : string)
  : Py nat :=
  d <~ Store.load df ;;
  match columns d !! col with
  | Some _ => Store.new (mkDataFrame (index d) (delete col (columns d)))
  | None => Store.raise (KeyError col)
  end.

Definition lift {A} (r : result exception A) : Py A :=
  match r with
  | Return a => Store.ret a
  | Raise e => Store.raise e
  end.

Definition convert_datetime_to_utc (df : nat) (col : string) (drop_col : bool)
  : Py nat :=
  df <~ copy df ;;
  s <~ getitem df col ;;
  u <~ lift (dt_tz_convert UTC (map to_datetime_utc s)) ;;
  _ <~ setitem df "datetime_utc" u ;;
  if drop_col then drop_columns df col else Store.ret df.

(** *** The staging writer

    The file system is the map from a path to what is stored there.
    [df.to_parquet(path)] stores the frame at the path, whatever was there. *)

Section save.
Context {Frame : Type}.

Definition to_parquet (df : Frame) (full_path : string)
    (fs : gmap string Frame) : gmap string Frame :=
  <[full_path := df]> fs.

(** [s.replace(old, new)] and [s.replace(old, new, count)] for a
    one-character [old], the only form [save] uses. *)
Fixpoint replace (old : ascii) (new : string) (count : option nat) (s : string)
  : string :=
  match s with
  | EmptyString => EmptyString
  | String c s' =>
      match count with
      | Some O => s
      | Some (S n) =>
          if Ascii.eqb c old then new +:+ replace old new (Some n) s'
          else String c (replace old new count s')
      | None =>
          if Ascii.eqb c old then new +:+ replace old new None s'
          else String c (replace old new None s')
      end
  end.

(** The timestamp is given by its [isoformat()]. *)
Definition save (df : Frame) (path file_name : string)
    (current_timestamp : option string) (fs : gmap string Frame)
  : gmap string Frame :=
  let base := path +:+ "/" +:+ file_name in
  let base :=
    match current_timestamp with
    | Some isoformat =>
        let dt_str := isoformat in
        let dt_str :=
          replace "-" "_" None
            (replace "+" "_plus_" None (replace ":" "-" None dt_str)) in
        let dt_str := replace "_" "-" (Some 2%nat) dt_str in
        base +:+ "--" +:+ dt_str
    | None => base
    end in
  let full_path := base +:+ ".parquet" in
  to_parquet df full_path fs.

End save.

End Utilities.

(** ** data_collection/accuweather.py *)

Module Accuweather.
Import Python.

Definition ACCU_BASE : string := "https://dataservice.accuweather.com".

(** *** The HTTP helper

    [requests.Timeout] and [requests.ConnectionError] are the two faults the
    helper catches.  The network is an oracle: the reply to the n-th request
    the session sends, given its URL and parameters.  The world the helper
    runs in is the list of requests sent so far and of the delays slept. *)

Inductive transient : Type := Timeout | ConnectionError.

Inductive reply (Json : Type) : Type :=
| Response (status_code : Z) (text : string) (json : option Json)
| Fails (exc : transient)
| FailsOtherwise (exc : string).

Arguments Response {Json} status_code text json.
Arguments Fails {Json} exc.
Arguments FailsOtherwise {Json} exc.

Inductive error : Type :=
| MissingApiKey
| ApiError (status_code : Z) (url : string) (params : gmap string string)
           (excerpt : string)
| NetworkError (url : string) (last_exc : option transient)
| Uncaught (exc : string).

Record World : Type := mkWorld {
  requests : list (string * gmap string string);
  slept : list Qc
}.

Record AccuWeatherClient : Type := { api_key : string }.

(** [AccuWeatherClient()]: the key is read from the environment, and a
    missing or empty one is refused. *)
Definition new_client (environment_key : option string)
  : result error AccuWeatherClient :=
  match environment_key with
  | None => Raise MissingApiKey
  | Some key => if bool_decide (key = ""%string) then Raise MissingApiKey
                else Return {| api_key := key |}
  end.

Definition base_delay : Qc := Q2Qc (3 # 4).

Definition sleep (seconds : Qc) (w : World) : World :=
  mkWorld (requests w) (slept w ++ [seconds]).

Section get.
Context {Json : Type}.
Variable network : nat → string → gmap string string → reply Json.

Definition session_get (url : string) (params : gmap string string) (w : World)
  : reply Json * World :=
  (network (length (requests w)) url params,
   mkWorld (requests w ++ [(url, params)]) (slept w)).

(** The loop [for attempt in range(1, retries + 1)] over the attempts left. *)
Fixpoint _get_loop (attempts : list Z) (retries : Z) (url : string)
    (params : gmap string string) (last_exc : option transient) (w : World)
  : result error Json * World :=
  match attempts with
  | [] => (Raise (NetworkError url last_exc), w)
  | attempt :: rest =>
      match session_get url params w with
      | (Response status_code text json, w) =>
          if bool_decide (status_code = 200) then
            match json with
            | Some data => (Return data, w)
            | None => (Raise (Uncaught "JSONDecodeError"), w)
            end
          else (Raise (ApiError status_code url params (substring 0 500 text)), w)
      | (Fails exc, w) =>
          if bool_decide (attempt = retries)
          then (Raise (NetworkError url (Some exc)), w)
          else _get_loop rest retries url params (Some exc)
                         (sleep (base_delay * Q2Qc (inject_Z attempt)) w)
      | (FailsOtherwise exc, w) => (Raise (Uncaught exc), w)
      end
  end.

(** [range(1, retries + 1)]. *)
Definition attempts_of (retries : Z) : list Z := seqZ 1 retries.

Definition _get (self : AccuWeatherClient) (path : string)
    (params : gmap string string) (retries : Z) (w : World)
  : result error Json * World :=
  let url := ACCU_BASE +:+ path in
  let params := <["apikey"%string := api_key self]> params in
  _get_loop (attempts_of retries) retries url params None w.

End get.

(** *** Staging all cities

    [city_reference.cities] is a module of the repository that is not among
    the sources: the registry is a parameter, the list of its items in
    iteration order.  So are the two stretches of a loop body that only build
    columns: the fetch of one city's frame through the client, and the
    annotation of that frame with the registry's metadata (which raises when
    the entry has no coordinates).  A frame is the list of its rows. *)

Record Options : Type := mkOptions {
  metric : bool;
  details : bool;
  language : string;
  add_fahrenheit : bool;
  include_city_meta : bool;
  model_name : string;
  model_id : string;
  verbose : bool
}.

(** What is printed. *)
Inductive line : Type :=
| Saved (city fpath : string)
| FAILED (city reason : string)
| Note (count : nat) (failures : gmap string string).

(** What the two functions raise themselves. *)
Inductive run_error : Type :=
| ClientError (e : error)
| AllCityFetchesFailed (failures : gmap string string)
| NoCitiesFound.

Record Disk (Row : Type) : Type := mkDisk {
  files : gmap string (list Row);
  stdout : list line
}.

Arguments mkDisk {Row} files stdout.
Arguments files {Row} d.
Arguments stdout {Row} d.

Definition print {Row} (l : line) (w : Disk Row) : Disk Row :=
  mkDisk (files w) (stdout w ++ [l]).

(** [df.to_parquet(fpath, index=False)]. *)
Definition to_parquet {Row} (df : list Row) (fpath : string) (w : Disk Row)
  : Disk Row :=
  mkDisk (<[fpath := df]> (files w)) (stdout w).

Definition is_space (c : ascii) : bool :=
  let n := nat_of_ascii c in
  bool_decide (9 ≤ n ≤ 13)%nat || bool_decide (28 ≤ n ≤ 32)%nat.

Definition is_lower_alnum (c : ascii) : bool :=
  let n := nat_of_ascii c in
  bool_decide (97 ≤ n ≤ 122)%nat || bool_decide (48 ≤ n ≤ 57)%nat.

Definition lower_char (c : ascii) : ascii :=
  let n := nat_of_ascii c in
  if bool_decide (65 ≤ n ≤ 90)%nat then ascii_of_nat (n + 32) else c.

(** [s.lstrip(...)] and [s.strip(...)] for the characters [drop] accepts. *)
Fixpoint lstrip (drop : ascii → bool) (s : list ascii) : list ascii :=
  match s with
  | c :: s' => if drop c then lstrip drop s' else s
  | [] => []
  end.

Definition strip (drop : ascii → bool) (s : list ascii) : list ascii :=
  rev (lstrip drop (rev (lstrip drop s))).

(** [re.sub(r"[^a-z0-9]+", "_", value)]: [in_run] tells whether the
    character before was already replaced. *)
Fixpoint sub_non_alnum (in_run : bool) (s : list ascii) : list ascii :=
  match s with
  | [] => []
  | c :: s' =>
      if is_lower_alnum c then c :: sub_non_alnum false s'
      else if in_run then sub_non_alnum true s'
      else "_"%char :: sub_non_alnum true s'
  end.

Definition _slugify (value : string) : string :=
  let value := map lower_char (strip is_space (list_ascii_of_string value)) in
  let value := sub_non_alnum false value in
  string_of_list_ascii (strip (λ c, Ascii.eqb c "_") value).

Section orchestrator.
Context {Row Meta Exn : Type}.
(** [city_reference.cities.items()]. *)
Variable CITY_REFERENCE : list (string * Meta).
(** [str(exc)]. *)
Variable str : Exn → string.
(** [client.get_hourly_forecast_12h_by_city(city_name=city, ...,
    as_dataframe=True)]. *)
Variable get_hourly_forecast_12h_by_city :
  AccuWeatherClient → string → Options → result Exn (list Row).
(** Lines 376 to 400: the columns added to the fetched frame. *)
Variable annotate : string → Meta → Z → Options → list Row → result Exn (list Row).
(** Lines 267 to 283, the same for the client's own method. *)
Variable tag : string → Meta → Options → list Row → result Exn (list Row).
(** Lines 295 to 302: the datetime column parsed and the rows sorted. *)
Variable tidy : list Row → list Row.

(** The state of a loop: [frames], [failures] and the outside world. *)
Record Loop : Type := mkLoop {
  frames : list (list Row);
  failures : gmap string string;
  world : Disk Row
}.

(** One pass through the body of the loop of
    [stage_accuweather_12h_all_cities]. *)
Definition stage_city (client : AccuWeatherClient) (out_path ts_str : string)
    (timestamp : Z) (options : Options) (st : Loop) (item : string * Meta)
  : Loop :=
  let '(city, meta) := item in
  match df ← get_hourly_forecast_12h_by_city client city options;
        annotate city meta timestamp options df with
  | Return df =>
      let city_slug := _slugify city in
      let fname := "accuweather_12h_" +:+ city_slug +:+ "_" +:+ ts_str
                   +:+ ".parquet" in
      let fpath := out_path +:+ "/" +:+ fname in
      let w := to_parquet df fpath (world st) in
      let w := if verbose options then print (Saved city fpath) w else w in
      mkLoop (frames st ++ [df]) (failures st) w
  | Raise exc =>
      let failures := <[city := str exc]> (failures st) in
      let w := if verbose options then print (FAILED city (str exc)) (world st)
               else world st in
      mkLoop (frames st) failures w
  end.

Definition stage_accuweather_12h_all_cities (environment_key : option string)
    (out_path ts_str : string) (timestamp : Z) (options : Options)
    (w : Disk Row) : result run_error (list Row) * Disk Row :=
  match new_client environment_key with
  | Raise e => (Raise (ClientError e), w)
  | Return client =>
      let st := foldl (stage_city client out_path ts_str timestamp options)
                      (mkLoop [] ∅ w) CITY_REFERENCE in
      match frames st with
      | [] =>
          (Raise (if bool_decide (failures st = ∅) then NoCitiesFound
                  else AllCityFetchesFailed (failures st)),
           world st)
      | _ :: _ =>
          let result := mjoin (frames st) in
          let w :=
            if verbose options && negb (bool_decide (failures st = ∅))
            then print (Note (size (failures st)) (failures st)) (world st)
            else world st in
          (Return result, w)
      end
  end.

(** One pass through the body of the loop of the client's
    [get_hourly_forecast_12h_all_cities]. *)
Definition fetch_city (self : AccuWeatherClient) (options : Options)
    (st : Loop) (item : string * Meta) : Loop :=
  let '(city, meta) := item in
  match df ← get_hourly_forecast_12h_by_city self city options;
        tag city meta options df with
  | Return df => mkLoop (frames st ++ [df]) (failures st) (world st)
  | Raise exc => mkLoop (frames st) (<[city := str exc]> (failures st)) (world st)
  end.

Definition get_hourly_forecast_12h_all_cities (self : AccuWeatherClient)
    (options : Options) (w : Disk Row)
  : result run_error (list Row) * Disk Row :=
  let st := foldl (fetch_city self options) (mkLoop [] ∅ w) CITY_REFERENCE in
  match frames st with
  | [] => (Raise (AllCityFetchesFailed (failures st)), world st)
  | _ :: _ =>
      let out := tidy (mjoin (frames st)) in
      let w :=
        if negb (bool_decide (failures st = ∅))
        then print (Note (size (failures st)) (failures st)) (world st)
        else world st in
      (Return out, w)
  end.

End orchestrator.

End Accuweather.

(** ** The datetime module of the standard library

    [date], its proleptic Gregorian ordinal, and [strptime] and [strftime] for
    the directives the repository uses, after the reference implementation
    (Lib/_pydatetime.py, Lib/_strptime.py).  Strings are strings of bytes:
    digits and letters outside ASCII are not modelled.  [%Y] is written with
    four digits. *)

Module Datetime.
Import Python.

Record date : Type := mkDate { year : Z; month : Z; day : Z }.

#[global] Instance date_eq_dec : EqDecision date.
Proof. solve_decision. Defined.

Definition MINYEAR : Z := 1.
Definition MAXYEAR : Z := 9999.
Definition _MAXORDINAL : Z := 3652059.

Definition _DAYS_IN_MONTH : list Z :=
  [-1; 31; 28; 31; 30; 31; 30; 31; 31; 30; 31; 30; 31].

Definition _DAYS_BEFORE_MONTH : list Z :=
  [-1; 0; 31; 59; 90; 120; 151; 181; 212; 243; 273; 304; 334].

Definition _is_leap (year : Z) : bool :=
  bool_decide (year mod 4 = 0)
  && (negb (bool_decide (year mod 100 = 0)) || bool_decide (year mod 400 = 0)).

Definition _days_before_year (year : Z) : Z :=
  let y := year - 1 in
  y * 365 + y / 4 - y / 100 + y / 400.

Definition _days_in_month (year month : Z) : Z :=
  if bool_decide (month = 2) && _is_leap year then 29
  else _DAYS_IN_MONTH !!! Z.to_nat month.

Definition _days_before_month (year month : Z) : Z :=
  _DAYS_BEFORE_MONTH !!! Z.to_nat month
  + (if bool_decide (2 < month) && _is_leap year then 1 else 0).

Definition _ymd2ord (year month day : Z) : Z :=
  _days_before_year year + _days_before_month year month + day.

Definition _DI400Y : Z := 146097.
Definition _DI100Y : Z := 36524.
Definition _DI4Y : Z := 1461.

Definition _ord2ymd (n : Z) : Z * Z * Z :=
  let n := n - 1 in
  let n400 := n / _DI400Y in
  let n := n mod _DI400Y in
  let year := n400 * 400 + 1 in
  let n100 := n / _DI100Y in
  let n := n mod _DI100Y in
  let n4 := n / _DI4Y in
  let n := n mod _DI4Y in
  let n1 := n / 365 in
  let n := n mod 365 in
  let year := year + n100 * 100 + n4 * 4 + n1 in
  if bool_decide (n1 = 4) || bool_decide (n100 = 4) then (year - 1, 12, 31)
  else
    let leapyear :=
      bool_decide (n1 = 3)
      && (negb (bool_decide (n4 = 24)) || bool_decide (n100 = 3)) in
    let month := Z.shiftr (n + 50) 5 in
    let preceding :=
      _DAYS_BEFORE_MONTH !!! Z.to_nat month
      + (if bool_decide (2 < month) && leapyear then 1 else 0) in
    if bool_decide (n < preceding) then
      let month := month - 1 in
      let preceding :=
        preceding
        - (_DAYS_IN_MONTH !!! Z.to_nat month
           + (if bool_decide (month = 2) && leapyear then 1 else 0)) in
      (year, month, n - preceding + 1)
    else (year, month, n - preceding + 1).

(** The fields [date(year, month, day)] accepts. *)
Definition valid (d : date) : Prop :=
  MINYEAR ≤ year d ≤ MAXYEAR
  ∧ 1 ≤ month d ≤ 12
  ∧ 1 ≤ day d ≤ _days_in_month (year d) (month d).

#[global] Instance valid_dec d : Decision (valid d).
Proof. unfold valid. apply _. Defined.

Definition new_date (year month day : Z) : result exception date :=
  if decide (valid (mkDate year month day)) then Return (mkDate year month day)
  else Raise (ValueError "date value out of range").

Definition toordinal (d : date) : Z := _ymd2ord (year d) (month d) (day d).

Definition fromordinal (n : Z) : date :=
  let '(y, m, d) := _ord2ymd n in mkDate y m d.

(** [a > b] and [a <= b] on dates compare (year, month, day). *)
Definition date_lt (a b : date) : Prop :=
  year a < year b
  ∨ (year a = year b ∧ (month a < month b
                        ∨ (month a = month b ∧ day a < day b))).

#[global] Instance date_lt_dec a b : Decision (date_lt a b).
Proof. unfold date_lt. apply _. Defined.

(** [d + timedelta(days=days)]. *)
Definition add_days (d : date) (days : Z) : result exception date :=
  let o := toordinal d + days in
  if bool_decide (0 < o ≤ _MAXORDINAL) then Return (fromordinal o)
  else Raise OverflowError.

(** [(a - b).days]. *)
Definition days_between (a b : date) : Z := toordinal a - toordinal b.

(** *** strptime and strftime *)

Inductive directive : Type :=
| Year4        (* %Y *)
| Year2        (* %y *)
| MonthNumber  (* %m *)
| MonthAbbr    (* %b *)
| DayOfMonth   (* %d *)
| Literal (c : ascii).

Definition month_abbr : list string :=
  ["Jan"; "Feb"; "Mar"; "Apr"; "May"; "Jun";
   "Jul"; "Aug"; "Sep"; "Oct"; "Nov"; "Dec"].

Definition digit_value (c : ascii) : option Z :=
  let n := Z.of_nat (nat_of_ascii c) in
  if bool_decide (48 ≤ n ≤ 57) then Some (n - 48) else None.

Definition to_lower (c : ascii) : ascii :=
  let n := nat_of_ascii c in
  if bool_decide (65 ≤ n ≤ 90)%nat then ascii_of_nat (n + 32) else c.

Definition to_upper (c : ascii) : ascii :=
  let n := nat_of_ascii c in
  if bool_decide (97 ≤ n ≤ 122)%nat then ascii_of_nat (n - 32) else c.

Fixpoint map_string (f : ascii → ascii) (s : string) : string :=
  match s with
  | EmptyString => EmptyString
  | String c s' => String (f c) (map_string f s')
  end.

(** [str.lower], [str.upper] and [str.capitalize]. *)
Definition lower (s : string) : string := map_string to_lower s.
Definition upper (s : string) : string := map_string to_upper s.
Definition capitalize (s : string) : string :=
  match s with
  | EmptyString => EmptyString
  | String c s' => String (to_upper c) (lower s')
  end.

(** What the directives read so far have found. *)
Record found : Type := mkFound {
  found_year : option Z;
  found_month : option Z;
  found_day : option Z
}.

(** One digit in a range, then the rest of the input. *)
Definition digit_in (lo hi : Z) (s : string) : list (Z * string) :=
  match s with
  | String c s' =>
      match digit_value c with
      | Some v => if bool_decide (lo ≤ v ≤ hi) then [(v, s')] else []
      | None => []
      end
  | EmptyString => []
  end.

Definition two_digits (lo1 hi1 lo2 hi2 : Z) (s : string) : list (Z * string) :=
  '(a, s1) ← digit_in lo1 hi1 s;
  '(b, s2) ← digit_in lo2 hi2 s1;
  [(10 * a + b, s2)].

Definition after_space (s : string) : list string :=
  match s with
  | String c s' => if Ascii.eqb c " " then [s'] else []
  | EmptyString => []
  end.

(** The alternatives of a directive's regular expression, in the order the
    matcher tries them. *)
Definition match_directive (dir : directive) (f : found) (s : string)
  : list (found * string) :=
  match dir with
  | Year4 =>
      '(a, s1) ← two_digits 0 9 0 9 s;
      '(b, s2) ← two_digits 0 9 0 9 s1;
      [(mkFound (Some (100 * a + b)) (found_month f) (found_day f), s2)]
  | Year2 =>
      '(a, s1) ← two_digits 0 9 0 9 s;
      [(mkFound (Some (if bool_decide (a ≤ 68) then 2000 + a else 1900 + a))
                (found_month f) (found_day f), s1)]
  | MonthNumber =>
      '(m, s1) ← two_digits 1 1 0 2 s ++ two_digits 0 0 1 9 s ++ digit_in 1 9 s;
      [(mkFound (found_year f) (Some m) (found_day f), s1)]
  | MonthAbbr =>
      '(i, name) ← imap (λ i name, (i, name)) month_abbr;
      if bool_decide (lower (substring 0 3 s) = lower name)
      then [(mkFound (found_year f) (Some (Z.of_nat i + 1)) (found_day f),
             substring 3 (String.length s - 3) s)]
      else []
  | DayOfMonth =>
      '(d, s1) ← two_digits 3 3 0 1 s ++ two_digits 1 2 0 9 s
                 ++ two_digits 0 0 1 9 s ++ digit_in 1 9 s
                 ++ (s' ← after_space s; digit_in 1 9 s');
      [(mkFound (found_year f) (found_month f) (Some d), s1)]
  | Literal c =>
      match s with
      | String c' s' => if Ascii.eqb c c' then [(f, s')] else []
      | EmptyString => []
      end
  end.

Fixpoint match_format (fmt : list directive) (f : found) (s : string)
  : list (found * string) :=
  match fmt with
  | [] => [(f, s)]
  | dir :: fmt' =>
      '(f', s') ← match_directive dir f s;
      match_format fmt' f' s'
  end.

(** [datetime.strptime(s, fmt).date()]: the first match of the format decides;
    input left over after it, or fields that are no date, are a ValueError. *)
Definition strptime (s : string) (fmt : list directive) : result exception date :=
  match match_format fmt (mkFound None None None) s with
  | [] => Raise (ValueError "time data does not match format")
  | (f, rest) :: _ =>
      if bool_decide (rest = ""%string) then
        new_date (default 1900 (found_year f)) (default 1 (found_month f))
                 (default 1 (found_day f))
      else Raise (ValueError "unconverted data remains")
  end.

Definition digit_char (n : Z) : ascii := ascii_of_nat (48 + Z.to_nat (n mod 10)).

Definition pad2 (n : Z) : string :=
  String (digit_char (n / 10)) (String (digit_char n) "").

Definition pad4 (n : Z) : string := pad2 (n / 100) +:+ pad2 n.

Definition format_directive (dir : directive) (d : date) : string :=
  match dir with
  | Year4 => pad4 (year d)
  | Year2 => pad2 (year d mod 100)
  | MonthNumber => pad2 (month d)
  | MonthAbbr => month_abbr !!! Z.to_nat (month d - 1)
  | DayOfMonth => pad2 (day d)
  | Literal c => String c ""
  end.

Definition strftime (d : date) (fmt : list directive) : string :=
  foldr (λ dir out, format_directive dir d +:+ out) "" fmt.

End Datetime.

(** ** data_collection/file_search.py *)

Module FileSearch.
Import Python Datetime.

(** The strftime format of each configured date format. *)
Definition _DATE_FORMAT_MAP : list (string * list directive) :=
  [("YYYY-MM-DD"%string, [Year4; Literal "-"; MonthNumber; Literal "-"; DayOfMonth]);
   ("YYYYMMDD"%string, [Year4; MonthNumber; DayOfMonth]);
   ("YYMMMDD"%string, [Year2; MonthAbbr; DayOfMonth])].

Fixpoint dict_get {V} (d : list (string * V)) (key : string) : option V :=
  match d with
  | [] => None
  | (k, v) :: d' => if bool_decide (k = key) then Some v else dict_get d' key
  end.

Definition _parse_date (date_str date_format : string) : result exception date :=
  match dict_get _DATE_FORMAT_MAP date_format with
  | None => Raise (ValueError "Unsupported date_format")
  | Some fmt =>
      let candidate :=
        if bool_decide (date_format = "YYMMMDD"%string) then capitalize date_str
        else date_str in
      match strptime candidate fmt with
      | Return d => Return d
      | Raise _ => Raise (ValueError "Could not parse date_str")
      end
  end.

Definition _format_date (d : date) (date_format : string) : result exception string :=
  match dict_get _DATE_FORMAT_MAP date_format with
  | None => Raise (ValueError "Unsupported date_format")
  | Some fmt =>
      let s := strftime d fmt in
      Return (if bool_decide (date_format = "YYMMMDD"%string) then upper s else s)
  end.

(** [a or b] on an optional string: [b] when [a] is None or empty. *)
Definition or_else (a : option string) (b : string) : string :=
  match a with
  | Some s => if bool_decide (s = ""%string) then b else s
  | None => b
  end.

(** [today] stands for [date.today()]. *)
Definition enumerate_date_range (today : date)
    (start_date start_date_format : string)
    (end_date end_date_format : option string)
  : result exception (list string) :=
  start ← _parse_date start_date start_date_format;
  end_ ← match end_date with
         | None => Return today
         | Some end_date =>
             let end_fmt := or_else end_date_format start_date_format in
             _parse_date end_date end_fmt
         end;
  if decide (date_lt end_ start) then Return []
  else
    let num_days := days_between end_ start + 1 in
    mapM (λ i, d ← add_days start i; _format_date d start_date_format)
         (seqZ 0 num_days).

(** An iterable is a sized container (a list, a tuple, a string), empty
    containers being false, or an iterator (a generator, [iter(...)]), which
    is true whatever it will yield. *)
Inductive iterable (A : Type) : Type :=
| Container (items : list A)
| Iterator (items : list A).

Arguments Container {A} items.
Arguments Iterator {A} items.

(** [list(it)]. *)
Definition list_of {A} (it : iterable A) : list A :=
  match it with
  | Container items => items
  | Iterator items => items
  end.

(** [bool(it)]. *)
Definition truth {A} (it : iterable A) : bool :=
  match it with
  | Container [] => false
  | Container (_ :: _) => true
  | Iterator _ => true
  end.

Definition build_file_stem_candidates (prefixes dates : iterable string)
    (suffixes : option (iterable string)) : result exception (list string) :=
  let prefixes_list := list_of prefixes in
  let dates_list := list_of dates in
  let suffixes_list :=
    match suffixes with
    | Some suffixes => if truth suffixes then list_of suffixes else [""%string]
    | None => [""%string]
    end in
  match prefixes_list with
  | [] => Raise (ValueError "prefixes must contain at least one prefix")
  | _ :: _ =>
      match dates_list with
      | [] => Return []
      | _ :: _ =>
          Return (prefix ← prefixes_list;
                  d ← dates_list;
                  suffix ← suffixes_list;
                  [prefix +:+ d +:+ suffix])
      end
  end.

End FileSearch.

(** ** data_collection/openmeteo.py *)

Module Openmeteo.
Import Python.

(** One response of the batched call, by the accessors the parser uses:
    [Model()], [Current().Time()], and of [Hourly()]: [Time()], [TimeEnd()],
    [Interval()] and [Variables(0).ValuesAsNumpy()].  Times are in seconds. *)
Record Response : Type := mkResponse {
  Model : Z;
  Current_Time : Z;
  Hourly_Time : Z;
  Hourly_TimeEnd : Z;
  Hourly_Interval : Z;
  Hourly_Values : list (option Qc)
}.

Record Row : Type := mkRow {
  forecast_date : Z;
  temperature_2m : option Qc;
  city : string;
  model_timestamp : Z;
  current_timestamp : Z;
  model_name : string;
  model_id : Z
}.

(** [pd.date_range(start, end, freq, inclusive="left")]: the instants
    [start], [start + freq], ... that lie before [end] (after it, for a
    negative step); a zero step is refused. *)
Definition date_range (start end_ freq : Z) : result exception (list Z) :=
  if bool_decide (freq = 0) then Raise (ValueError "zero frequency")
  else
    let periods :=
      if bool_decide (0 < freq) then (end_ - start + freq - 1) / freq
      else (start - end_ + (- freq) - 1) / (- freq) in
    Return (map (λ k, start + k * freq) (seqZ 0 periods)).

(** [pd.DataFrame(data={"forecast_date": dates, "temperature_2m": values})]:
    the two columns must be equally long; rows are labelled 0, 1, ... *)
Definition new_frame (dates : list Z) (values : list (option Qc))
  : result exception (list (Z * (Z * option Qc))) :=
  if bool_decide (length dates = length values)
  then Return (imap (λ i row, (Z.of_nat i, row)) (zip dates values))
  else Raise (ValueError "All arrays must be of the same length").

Definition add_multi_model_metadata (forecast_update : list (Z * (Z * option Qc)))
    (city : string) (model_timestamp current_timestamp : Z)
    (model_name : string) (model_id : Z) : list (Z * Row) :=
  map (λ p, (p.1, mkRow p.2.1 p.2.2 city model_timestamp current_timestamp
                        model_name model_id))
      forecast_update.

(** [seq[i]] on a list. *)
Definition getitem {A} (l : list A) (i : nat) : result exception A :=
  match l !! i with
  | Some x => Return x
  | None => Raise IndexError
  end.

(** The body of the loop, for the index [model]. *)
Definition parse_model (current_timestamp : Z) (responses : list Response)
    (models : list string) (city : string) (model : nat)
  : result exception (list (Z * Row)) :=
  response ← getitem responses model;
  let model_id := Model response in
  model_name ← getitem models model;
  let model_timestamp := Current_Time response in
  let hourly_temperature_2m := Hourly_Values response in
  forecast_date ← date_range (Hourly_Time response) (Hourly_TimeEnd response)
                             (Hourly_Interval response);
  hourly_dataframe ← new_frame forecast_date hourly_temperature_2m;
  Return (add_multi_model_metadata hourly_dataframe city model_timestamp
                                   current_timestamp model_name model_id).

(** [for model in range(len(responses))], the frames concatenated. *)
Fixpoint parse_loop (current_timestamp : Z) (responses : list Response)
    (models : list string) (city : string) (indices : list nat)
    (hourly_df : list (Z * Row)) : result exception (list (Z * Row)) :=
  match indices with
  | [] => Return hourly_df
  | model :: rest =>
      hourly_dataframe ← parse_model current_timestamp responses models city model;
      parse_loop current_timestamp responses models city rest
                 (hourly_df ++ hourly_dataframe)
  end.

(** [current_timestamp] stands for [get_current_timestamp()], [models] for
    [params["models"]]. *)
Definition parse_multi_model_response (current_timestamp : Z)
    (responses : list Response) (models : list string) (city : string)
  : result exception (list (Z * Row) * Z) :=
  hourly_df ← parse_loop current_timestamp responses models city
                         (seq 0 (length responses)) [];
  Return (hourly_df, current_timestamp).

End Openmeteo.

(** ** scripts/init_local_data.py *)

Module InitLocalData.
Import Python.

Definition BASE : string := "local_data".

(** A schema: the columns with their arrow types. *)
Definition SCHEMAS : list (string * list (string * string)) :=
  [("location"%string,
    [("name", "string"); ("latitude", "float64"); ("longitude", "float64");
     ("series_id", "string"); ("nws_id", "string"); ("tz", "string");
     ("weather_id", "string")]%string);
   ("observation"%string,
    [("city", "string"); ("station_id", "string");
     ("valid_time_utc", "timestamp[us]"); ("as_of_time_utc", "timestamp[us]");
     ("temp_c", "float64"); ("quality_flag", "string"); ("provider", "string");
     ("prov_hash", "string"); ("raw_payload", "string")]%string);
   ("forecast"%string,
    [("city", "string"); ("provider", "string");
     ("issue_time_utc", "timestamp[us]"); ("valid_time_utc", "timestamp[us]");
     ("lead_hours", "int16"); ("temp_c", "float64"); ("model_run", "string");
     ("as_of_time_utc", "timestamp[us]"); ("prov_hash", "string");
     ("raw_payload", "string")]%string);
   ("quote"%string,
    [("market_id", "string"); ("ts_utc", "timestamp[us]"); ("side", "string");
     ("price", "decimal128(8, 2)"); ("size", "int32"); ("book_level", "int16")]%string);
   ("order"%string,
    [("account_id", "string"); ("market_id", "string");
     ("ts_utc", "timestamp[us]"); ("side", "string"); ("order_type", "string");
     ("price_limit", "decimal128(8, 2)"); ("size", "int32");
     ("time_in_force", "string"); ("decision_id", "string")]%string);
   ("execution"%string,
    [("account_id", "string"); ("broker_order_id", "string");
     ("market_id", "string"); ("ts_utc", "timestamp[us]"); ("side", "string");
     ("price", "decimal128(8, 2)"); ("size", "int32");
     ("fee_usd", "decimal128(10, 2)"); ("raw_payload", "string")]%string);
   ("cash_ledger"%string,
    [("account_id", "string"); ("ts_utc", "timestamp[us]");
     ("amount_usd", "decimal128(14, 2)"); ("reason", "string");
     ("ref_id", "string"); ("meta", "string")]%string)].

(** The registry: each city with its latitude, longitude, series_id, nws_id,
    tz and weather_id, numbers as they are written in the source. *)
Definition CITIES : list (string * list string) :=
  [("Austin", ["30.1941"; "-97.6711"; "KXHIGHAUS"; "AUS"; "America/Chicago";
     "05a7e7f73567bcc0ce8fac95250c4a0b26580d12fa0797e832d875d46ed01a30"]);
   ("Chicago", ["41.7868"; "-87.7522"; "KXHIGHCHI"; "MDW"; "America/Chicago";
     "4c9ff75840c6ce23fa10812d0f14b605af47896e9ca3fd59abdb9edd1b9d486a"]);
   ("Denver", ["39.8563"; "-104.6764"; "KXHIGHDEN"; "DEN"; "America/Denver";
     "b81fbb91071aa45b5119729b5bd58e27f8e397fc860ab0ba891fae1ef987cf2b"]);
   ("Houston", ["29.6459"; "-95.2769"; "KXHIGHHOU"; "HOU"; "America/Chicago";
     "da00666b99e29819289c87a0c1e7c4813ce274131a5131564adbb59caf76fcfe"]);
   ("Los Angeles", ["33.9422"; "-118.4036"; "KXHIGHLAX"; "LAX";
     "America/Los_Angeles";
     "4facbbbb39938d43bf8e8f58a2f32dc61b6fd97d57c89ed8fd3ecbd8079003da"]);
   ("Miami", ["25.7923"; "-80.2823"; "KXHIGHMIA"; "MIA"; "America/New_York";
     "92cba1c3903ca3481419603edf4cce05fa6181189af9e61839ba3c941b378871"]);
   ("New York", ["40.7826"; "-73.9656"; "KXHIGHNY"; "NYC"; "America/New_York";
     "98e8083bb7de0fc467fd1e22a1692f8f200343e4e0acc3b3fc31e71d29113b54"]);
   ("Philadelphia", ["39.87294"; "-75.243988"; "KXHIGHPHIL"; "PHL";
     "America/New_York";
     "1f6f9851651ae31314e564a45a97ac1e6780f295adf762161768fb73b3bc6450"])]%string.

Record Table : Type := mkTable {
  table_schema : list (string * string);
  table_rows : list (list string)
}.

Record FileSystem : Type := mkFileSystem {
  directories : gset string;
  tables : gmap string Table
}.

(** [d[key]] on a dict. *)
Fixpoint getitem {V} (d : list (string * V)) (key : string) : result exception V :=
  match d with
  | [] => Raise (KeyError key)
  | (k, v) :: d' => if bool_decide (k = key) then Return v else getitem d' key
  end.

Definition mkdir (path : string) (fs : FileSystem) : FileSystem :=
  mkFileSystem ({[path]} ∪ directories fs) (tables fs).

Definition _ensure_dirs (fs : FileSystem) : FileSystem :=
  foldl (λ fs tbl, mkdir (BASE +:+ "/" +:+ tbl) fs) (mkdir BASE fs)
        ["fact_observation"; "fact_forecast"; "fact_quote"; "fact_order";
         "fact_execution"; "fact_cash_ledger"]%string.

(** [pq.write_table(table, file)]. *)
Definition write_table (table : Table) (file : string) (fs : FileSystem)
  : FileSystem :=
  mkFileSystem (directories fs) (<[file := table]> (tables fs)).

Definition _write_empty_if_missing (file : string) (schema : list (string * string))
    (fs : FileSystem) : FileSystem :=
  match tables fs !! file with
  | Some _ => fs
  | None => write_table (mkTable schema []) file fs
  end.

(** The arguments of a call are evaluated before the call. *)
Definition init (fs : FileSystem) : result exception unit * FileSystem :=
  let fs := _ensure_dirs fs in
  match getitem SCHEMAS "dim_location" with
  | Raise e => (Raise e, fs)
  | Return schema =>
      let fs := _write_empty_if_missing (BASE +:+ "/dim_location.parquet") schema fs in
      match getitem SCHEMAS "dim_market_contract" with
      | Raise e => (Raise e, fs)
      | Return schema =>
          let fs := _write_empty_if_missing
                      (BASE +:+ "/dim_market_contract.parquet") schema fs in
          let rows := map (λ '(name, v), name :: v) CITIES in
          match getitem SCHEMAS "dim_location" with
          | Raise e => (Raise e, fs)
          | Return schema =>
              (Return tt,
               write_table (mkTable schema rows)
                           (BASE +:+ "/dim_location.parquet") fs)
          end
      end
  end.

End InitLocalData.

(** ** data_collection/utilities.py: the field names *)

Module FieldNames.

Section rename.
Context {Column : Type}.

(** [df.rename(columns=mapping)]: a new frame in which every column label
    the mapping has is replaced by what it is mapped to; the columns, their
    order and the index stay.  A frame is the list of its labelled columns,
    as two columns may come to carry one label. *)
Definition rename (mapping : list (string * string))
    (df : list (string * Column)) : list (string * Column) :=
  map (λ '(label, column),
         (default label (FileSearch.dict_get mapping label), column)) df.

Definition normalize_field_names (df : list (string * Column))
  : list (string * Column) :=
  rename [("forecast_date", "datetime");
          ("obs_datetime", "datetime");
          ("obs_date", "date");
          ("temperature_2m", "forecast_temperature");
          ("strike_midpoint", "event_midpoint")]%string df.

End rename.

End FieldNames.

(** ** feature_engineering/forecasts.py: the forecast fields *)

Module ForecastFields.
Import Python.
Export Utilities(tzinfo, tzname, utcoffset).

(** Ticks of a datetime64[ns] column in a second and in a day. *)
Definition second : Z := 1000000000.
Definition day : Z := 86400 * second.

(** [pd.Timedelta(days=n)]. *)
Definition Timedelta (days : Z) : Z := days * day.

Section fields.

(** Floating-point numbers and the two operations on them the function
    uses: the seconds of a duration given in ticks, and [x / n]. *)
Variable float : Type.
Variable total_seconds : Z → float.
Variable truediv : float → Z → float.

(** A column holds timestamps, durations, floats, booleans or strings.  A
    timestamp is a count of ticks ([None] is NaT): since 1970-01-01 00:00 UTC
    in a zone-aware column, which carries its zone, and since 1970-01-01
    00:00 on the wall clock in a naive one.  Timestamps are taken well inside
    the range of the dtype, so that moving one by a day does not leave it. *)
Inductive column : Type :=
| Datetime64 (tz : option tzinfo) (values : list (option Z))
| Timedelta64 (values : list (option Z))
| Float64 (values : list (option float))
| Bool (values : list bool)
| Object (values : list (option string)).

(** What pandas gives for [a - b] on two columns that are not both
    timestamps or are of two zones, and for [a - pd.Timedelta(..)] on a
    column that holds no timestamps. *)
Variable sub_other : column → column → result exception column.
Variable sub_timedelta_other : column → Z → result exception column.

Record DataFrame : Type := mkDataFrame {
  index : list Z;
  columns : gmap string column
}.

(** What the function raises: a built-in exception, or the AttributeError
    of the [.dt] accessor. *)
Inductive raised : Type :=
| BuiltIn (e : exception)
| AttributeError.

Abbreviation Py := (Store.Py (F := DataFrame) (E := raised)).

Definition lift {A} (r : result exception A) : Py A :=
  match r with
  | Return a => Store.ret a
  | Raise e => Store.raise (BuiltIn e)
  end.

(** [df[col]] and [df[col] = s]. *)
Definition getitem (df : nat) (col : string) : Py column :=
  d <~ Store.load df ;;
  match columns d !! col with
  | Some s => Store.ret s
  | None => Store.raise (BuiltIn (KeyError col))
  end.

Definition setitem (df : nat) (col : string) (s : column) : Py unit :=
  d <~ Store.load df ;;
  Store.assign df (mkDataFrame (index d) (<[col := s]> (columns d))).

(** [a - b] on two cells: missing as soon as one is. *)
Definition sub_cell (a b : option Z) : option Z :=
  x ← a; y ← b; Some (x - y).

(** [a - b] on two columns: two columns of one zone (zones go by their
    names) give the durations between their instants, and two naive ones
    those between their readings; pandas refuses a naive and an aware one. *)
Definition sub (a b : column) : result exception column :=
  match a, b with
  | Datetime64 (Some za) xs, Datetime64 (Some zb) ys =>
      if bool_decide (tzname za = tzname zb)
      then Return (Timedelta64 (zip_with sub_cell xs ys))
      else sub_other a b
  | Datetime64 None xs, Datetime64 None ys =>
      Return (Timedelta64 (zip_with sub_cell xs ys))
  | Datetime64 _ _, Datetime64 _ _ => Raise TypeError
  | _, _ => sub_other a b
  end.

(** [a - pd.Timedelta(..)]: every timestamp moved back by that many ticks,
    the zone kept. *)
Definition sub_timedelta (a : column) (td : Z) : result exception column :=
  match a with
  | Datetime64 tz xs => Return (Datetime64 tz (map (fmap (λ x, x - td)) xs))
  | _ => sub_timedelta_other a td
  end.

(** [series.dt.total_seconds()]: durations only. *)
Definition dt_total_seconds (s : column) : Py (list (option float)) :=
  match s with
  | Timedelta64 xs => Store.ret (map (fmap total_seconds) xs)
  | _ => Store.raise AttributeError
  end.

(** The reading of the wall clock of [zone] at an instant, in ticks: the
    zone gives its offset in seconds at an instant in seconds. *)
Definition wall (zone : tzinfo) (t : Z) : Z :=
  t + second * utcoffset zone (t / second).

(** [series.dt.date]: the calendar date of every timestamp, on the wall
    clock of the zone of the column.  A date is given as its day number from
    1970-01-01, so that two dates are equal when their numbers are. *)
Definition dt_date (s : column) : Py (list (option Z)) :=
  match s with
  | Datetime64 (Some zone) xs => Store.ret (map (fmap (λ t, wall zone t / day)) xs)
  | Datetime64 None xs => Store.ret (map (fmap (λ w, w / day)) xs)
  | _ => Store.raise AttributeError
  end.

(** [a == b] on two cells holding dates: NaT equals nothing. *)
Definition eq_cell (a b : option Z) : bool :=
  match a, b with
  | Some x, Some y => bool_decide (x = y)
  | _, _ => false
  end.

Definition series_eq (xs ys : list (option Z)) : column :=
  Bool (zip_with eq_cell xs ys).

Definition add_forecast_fields (df : nat) : Py nat :=
  a <~ getitem df "datetime" ;;
  b <~ getitem df "model_timestamp" ;;
  horizon <~ lift (sub a b) ;;
  _ <~ setitem df "forecast_horizon" horizon ;;
  s <~ getitem df "forecast_horizon" ;;
  seconds <~ dt_total_seconds s ;;
  _ <~ setitem df "forecast_horizon_hours"
         (Float64 (map (fmap (λ x, truediv x 3600)) seconds)) ;;
  m <~ getitem df "model_timestamp" ;;
  issued <~ dt_date m ;;
  a <~ getitem df "datetime" ;;
  before <~ lift (sub_timedelta a (Timedelta 1)) ;;
  valid <~ dt_date before ;;
  _ <~ setitem df "is_model_timestamp_prior_day" (series_eq issued valid) ;;
  m <~ getitem df "model_timestamp" ;;
  issued <~ dt_date m ;;
  a <~ getitem df "datetime" ;;
  before <~ lift (sub_timedelta a (Timedelta 0)) ;;
  valid <~ dt_date before ;;
  _ <~ setitem df "is_model_timestamp_same_day" (series_eq issued valid) ;;
  Store.ret df.

End fields.

Arguments Datetime64 {float} tz values.
Arguments Timedelta64 {float} values.
Arguments Float64 {float} values.
Arguments Bool {float} values.
Arguments Object {float} values.
Arguments mkDataFrame {float} index columns.
Arguments index {float} d.
Arguments columns {float} d.

End ForecastFields.

(** ** feature_engineering/dates.py *)

Module Dates.
Import Python Datetime.

(** A column holds timestamps (the wall-clock reading of each, in seconds
    since 1970-01-01 00:00 of its zone; [None] is NaT) or objects, here
    strings ([None] is NaN). *)
Inductive column : Type :=
| Datetime64 (wall : list (option Z))
| Object (values : list (option string)).

Record DataFrame : Type := mkDataFrame {
  index : list Z;
  columns : gmap string column
}.

(** What the function raises: a built-in exception, or the AttributeError
    of the [.dt] and [.str] accessors. *)
Inductive raised : Type :=
| BuiltIn (e : exception)
| AttributeError.

Abbreviation Py := (Store.Py (F := DataFrame) (E := raised)).

(** [df[col]] and [df[col] = s], as in utilities.py. *)
Definition getitem (df : nat) (col : string) : Py column :=
  d <~ Store.load df ;;
  match columns d !! col with
  | Some s => Store.ret s
  | None => Store.raise (BuiltIn (KeyError col))
  end.

Definition setitem (df : nat) (col : string) (s : column) : Py unit :=
  d <~ Store.load df ;;
  Store.assign df (mkDataFrame (index d) (<[col := s]> (columns d))).

(** The calendar date of a wall-clock reading; 1970-01-01 is day 719163. *)
Definition date_of (wall : Z) : date := fromordinal (719163 + wall / 86400).

(** [series.dt.strftime(fmt)]. *)
Definition dt_strftime (s : column) (fmt : list directive) : Py column :=
  match s with
  | Datetime64 wall =>
      Store.ret (Object (map (fmap (λ w, strftime (date_of w) fmt)) wall))
  | Object _ => Store.raise AttributeError
  end.

(** [series.str[start:stop]]. *)
Definition str_slice (s : column) (start stop : nat) : Py column :=
  match s with
  | Object values =>
      Store.ret (Object (map (fmap (substring start (stop - start))) values))
  | Datetime64 _ => Store.raise AttributeError
  end.

(** [a + b] on two columns of strings and on a column and a string; a
    missing value stays missing. *)
Definition add (a b : column) : Py column :=
  match a, b with
  | Object xs, Object ys =>
      Store.ret (Object (zip_with (λ x y, x ← x; y ← y; Some (x +:+ y)) xs ys))
  | _, _ => Store.raise (BuiltIn TypeError)
  end.

Definition add_str (a : column) (b : string) : Py column :=
  match a with
  | Object xs => Store.ret (Object (map (fmap (λ x, x +:+ b)) xs))
  | Datetime64 _ => Store.raise (BuiltIn TypeError)
  end.

Definition add_date_fields (df : nat) : Py nat :=
  s <~ getitem df "datetime" ;;
  date <~ dt_strftime s [Year4; Literal "-"; MonthNumber; Literal "-"; DayOfMonth] ;;
  _ <~ setitem df "date" date ;;
  s <~ getitem df "date" ;;
  month <~ str_slice s 5 7 ;;
  _ <~ setitem df "month" month ;;
  s <~ getitem df "date" ;;
  year <~ str_slice s 0 4 ;;
  _ <~ setitem df "year" year ;;
  year <~ getitem df "year" ;;
  year_ <~ add_str year "-" ;;
  month <~ getitem df "month" ;;
  year_month <~ add year_ month ;;
  _ <~ setitem df "year_month" year_month ;;
  Store.ret df.

End Dates.

(** ** data_collection/accuweather.py: the client's public helpers *)

Module AccuweatherClient.
Import Python Accuweather.

(** A decoded JSON value. *)
#[local] Unset Elimination Schemes.
Inductive Json : Type :=
| JNull
| JBool (b : bool)
| JNumber (n : Q)
| JString (s : string)
| JArray (items : list Json)
| JObject (fields : list (string * Json)).
#[local] Set Elimination Schemes.

(** Every failure is raised as [AccuWeatherError]; the constructors keep
    the messages apart.  [Get] is an error of the HTTP helper, [Raised] an
    exception the method does not catch. *)
Inductive client_error : Type :=
| Get (e : error)
| UnexpectedGeoposition (data : Json)
| UnexpectedHourly (data : Json)
| CityReferenceImport (import_error : string)
| CityNotFound (city_name : string)
| MissingLatLon (city_name : string)
| Raised (e : exception).

(** [str(b).lower()]. *)
Definition str_lower (b : bool) : string := if b then "true" else "false".

(** [data[key]] for a string [key]: only an object can be subscripted so,
    and only by a key it has; [None] stands for the exception (KeyError,
    TypeError) raised otherwise. *)
Definition subscript (data : Json) (key : string) : option Json :=
  match data with
  | JObject fields => FileSearch.dict_get fields key
  | _ => None
  end.

Section client.
Context {Coord Value Frame : Type}.
Variable network : nat → string → gmap string string → reply Json.
(** [f"{x:.6f}"]. *)
Variable format_6f : Coord → string.
(** [str(v)] for a decoded value that is not a string. *)
Variable str : Json → string.
(** Lines 159 to 177: the frame of the hourly records, its columns renamed. *)
Variable to_frame : list Json → Frame.
(** [city_reference.cities.items()], and the exception of its import. *)
Variable CITY_REFERENCE : list (string * list (string * Value)).
Variable _city_ref_import_error : option string.
(** [float(v)], [None] when it raises. *)
Variable float : Value → option Coord.

Definition get_location_key_by_geoposition (self : AccuWeatherClient)
    (lat lon : Coord) (language : string) (details : bool)
    (toplevel : option bool) (w : World) : result client_error Json * World :=
  let params : gmap string string :=
    <["details"%string := str_lower details]>
      (<["language"%string := language]>
         {[ "q"%string := format_6f lat +:+ "," +:+ format_6f lon ]}) in
  let params :=
    match toplevel with
    | Some toplevel => <["toplevel"%string := str_lower toplevel]> params
    | None => params
    end in
  match _get network self "/locations/v1/cities/geoposition/search" params 3 w with
  | (Return data, w) =>
      match subscript data "Key" with
      | Some key => (Return key, w)
      | None => (Raise (UnexpectedGeoposition data), w)
      end
  | (Raise e, w) => (Raise (Get e), w)
  end.

(** [f"{v}"]. *)
Definition format (v : Json) : string :=
  match v with
  | JString s => s
  | _ => str v
  end.

Definition get_hourly_forecast_12h (self : AccuWeatherClient)
    (location_key : Json) (metric details : bool) (language : string)
    (w : World) : result client_error (list Json) * World :=
  let params : gmap string string :=
    <["language"%string := language]>
      (<["details"%string := str_lower details]>
         {[ "metric"%string := str_lower metric ]}) in
  let path := "/forecasts/v1/hourly/12hour/" +:+ format location_key in
  match _get network self path params 3 w with
  | (Return (JArray data), w) => (Return data, w)
  | (Return data, w) => (Raise (UnexpectedHourly data), w)
  | (Raise e, w) => (Raise (Get e), w)
  end.

(** What the forecast methods return: a frame, or the records as decoded. *)
Inductive forecast : Type :=
| DataFrame (df : Frame)
| Records (hourly12 : list Json).

Definition get_hourly_forecast_12h_by_latlon (self : AccuWeatherClient)
    (lat lon : Coord) (metric details : bool) (language : string)
    (as_dataframe : bool) (w : World) : result client_error forecast * World :=
  match get_location_key_by_geoposition self lat lon language false None w with
  | (Raise e, w) => (Raise e, w)
  | (Return location_key, w) =>
      match get_hourly_forecast_12h self location_key metric details language w with
      | (Raise e, w) => (Raise e, w)
      | (Return hourly12, w) =>
          (Return (if as_dataframe then DataFrame (to_frame hourly12)
                   else Records hourly12), w)
      end
  end.

(** [{k.lower(): k for k in CITY_REFERENCE}]: of two names that differ in
    case only, the later one stays. *)
Definition lower_names : gmap string string :=
  foldl (λ lower k, <[Datetime.lower k := k]> lower) ∅ (map fst CITY_REFERENCE).

Definition get_city_coords (city_name : string)
  : result client_error (Coord * Coord) :=
  match CITY_REFERENCE, _city_ref_import_error with
  | [], Some import_error => Raise (CityReferenceImport import_error)
  | _, _ =>
      city_name ←
        match FileSearch.dict_get CITY_REFERENCE city_name with
        | Some _ => Return city_name
        | None =>
            match lower_names !! Datetime.lower city_name with
            | Some k => Return k
            | None => Raise (CityNotFound city_name)
            end
        end;
      match FileSearch.dict_get CITY_REFERENCE city_name with
      | None => Raise (Raised (KeyError city_name))
      | Some c =>
          match lat ← FileSearch.dict_get c "latitude" ≫= float;
                lon ← FileSearch.dict_get c "longitude" ≫= float;
                Some (lat, lon) with
          | Some coords => Return coords
          | None => Raise (MissingLatLon city_name)
          end
      end
  end.

Definition get_hourly_forecast_12h_by_city (self : AccuWeatherClient)
    (city_name : string) (metric details : bool) (language : string)
    (as_dataframe : bool) (w : World) : result client_error forecast * World :=
  match get_city_coords city_name with
  | Raise e => (Raise e, w)
  | Return (lat, lon) =>
      get_hourly_forecast_12h_by_latlon self lat lon metric details language
                                        as_dataframe w
  end.

End client.

End AccuweatherClient.

(** ** data_collection/openmeteo.py: the run over all cities *)

Module OpenmeteoRun.
Import Python Openmeteo.

(** What a run raises: a built-in exception, an exception of the Open-Meteo
    client, or the error of reading a local variable that was never
    assigned. *)
Inductive raised (Exn : Type) : Type :=
| BuiltIn (e : exception)
| Client (e : Exn)
| UnboundLocalError (name : string).

Arguments BuiltIn {Exn} e.
Arguments Client {Exn} e.
Arguments UnboundLocalError {Exn} name.

Record Params (Value : Type) : Type := mkParams {
  latitude : Value;
  longitude : Value;
  forecast_days : Z;
  current : string;
  hourly : list string;
  temperature_unit : string;
  models : list string
}.

Arguments mkParams {Value} latitude longitude forecast_days current hourly
  temperature_unit models.
Arguments latitude {Value} p.
Arguments longitude {Value} p.
Arguments forecast_days {Value} p.
Arguments models {Value} p.

Section run.
Context {Value Exn : Type}.
(** [openmeteo.weather_api(url, params=params)], for the n-th request of
    the run; the client is the one [connect_to_openmeteo] builds. *)
Variable weather_api :
  nat → string → Params Value → result Exn (list Response).
(** [get_current_timestamp()] at its n-th call, and the [isoformat()] of a
    timestamp. *)
Variable now : nat → Z.
Variable isoformat : Z → string.

Definition update_multi_model_forecast_params
    (cities : list (string * list (string * Value))) (city : string)
    (forecast_days : Z) : result exception (Params Value) :=
  entry ← InitLocalData.getitem cities city;
  latitude ← InitLocalData.getitem entry "latitude";
  entry ← InitLocalData.getitem cities city;
  longitude ← InitLocalData.getitem entry "longitude";
  Return (mkParams latitude longitude forecast_days "temperature_2m"
            ["temperature_2m"%string] "fahrenheit"
            ["best_match"; "ecmwf_ifs04"; "ecmwf_ifs025"; "ecmwf_aifs025";
             "gfs_global"; "gfs_hrrr"; "ncep_nbm_conus"; "gfs_graphcast025";
             "jma_gsm"; "icon_global"; "gem_global"; "gem_regional";
             "meteofrance_arpege_world";
             "ukmo_global_deterministic_10km"]%string).

Definition lift {A} (r : result exception A) : result (raised Exn) A :=
  match r with
  | Return a => Return a
  | Raise e => Raise (BuiltIn e)
  end.

Definition call {A} (r : result Exn A) : result (raised Exn) A :=
  match r with
  | Return a => Return a
  | Raise e => Raise (Client e)
  end.

(** The loop over [cities.keys()]: [request_count], [all_cities_df] and
    [current_timestamp], which has no value before the first pass. *)
Fixpoint cities_loop (cities : list (string * list (string * Value)))
    (keys : list string) (request_count : nat) (all_cities_df : list (Z * Row))
    (current_timestamp : option Z)
  : result (raised Exn) (list (Z * Row) * option Z) :=
  match keys with
  | [] => Return (all_cities_df, current_timestamp)
  | city :: keys' =>
      multi_model_forecast_params ←
        lift (update_multi_model_forecast_params cities city 3);
      responses ←
        call (weather_api request_count "https://api.open-meteo.com/v1/forecast"
                          multi_model_forecast_params);
      '(hourly_df, current_timestamp) ←
        lift (parse_multi_model_response (now request_count) responses
                (models multi_model_forecast_params) city);
      cities_loop cities keys' (S request_count) (all_cities_df ++ hourly_df)
                  (Some current_timestamp)
  end.

Definition get_multi_model_forecast
    (cities : list (string * list (string * Value)))
    (fs : gmap string (list (Z * Row)))
  : result (raised Exn) unit * gmap string (list (Z * Row)) :=
  match cities_loop cities (map fst cities) 0 [] None with
  | Raise e => (Raise e, fs)
  | Return (all_cities_df, None) =>
      (Raise (UnboundLocalError "current_timestamp"), fs)
  | Return (all_cities_df, Some current_timestamp) =>
      (Return tt,
       Utilities.save all_cities_df "data/staging/openmeteo_forecasts"
         "multi_model_forecasts" (Some (isoformat current_timestamp)) fs)
  end.

End run.

End OpenmeteoRun.

(** ** data_collection/nws_observations.py *)

Module NwsObservations.
Import Python.

(** A cell of a frame: nothing, text, a number or a timestamp.  A frame is
    the list of its labelled columns, all of one length; its index is the
    default one throughout ([reset_index(drop=True)] restores it after
    every selection of rows), so it is not kept. *)
Inductive cell : Type :=
| NaN
| Str (s : string)
| Num (n : Q)
| Timestamp (t : Z).

(** What the functions raise: a built-in exception, an exception of
    [pd.read_html], the AttributeError of the [.str] accessor, or the error
    of reading a local variable that was never assigned. *)
Inductive raised (Exn : Type) : Type :=
| BuiltIn (e : exception)
| ReadHtml (e : Exn)
| AttributeError
| UnboundLocalError (name : string).

Arguments BuiltIn {Exn} e.
Arguments ReadHtml {Exn} e.
Arguments AttributeError {Exn}.
Arguments UnboundLocalError {Exn} name.

(** [pat in s]. *)
Fixpoint contains (pat s : string) : bool :=
  String.prefix pat s
  || match s with
     | EmptyString => false
     | String _ s' => contains pat s'
     end.

(** A column as [pd.read_html] returns it: its cells, and whether its
    dtype is object (a column of text) rather than a numeric one. *)
Record Series : Type := mkSeries {
  object_dtype : bool;
  values : list cell
}.

(** [series.str.contains(pat, na=False)] for a pattern without special
    characters.  Only a column of dtype object has the [.str] accessor; a
    cell that is not text counts as missing, so as False. *)
Definition str_contains {Exn} (series : Series) (pat : string)
  : result (raised Exn) (list bool) :=
  if object_dtype series
  then Return (map (λ c, match c with
                         | Str s => contains pat s
                         | _ => false
                         end) (values series))
  else Raise AttributeError.

(** [df[mask]] on one column. *)
Fixpoint select {A} (column : list A) (mask : list bool) : list A :=
  match column, mask with
  | x :: column', true :: mask' => x :: select column' mask'
  | _ :: column', false :: mask' => select column' mask'
  | _, _ => []
  end.

(** [df.iloc[:, column_numbers]]: the columns at the positions given, an
    IndexError when a position is out of bounds. *)
Definition iloc_columns (df : list Series) (column_numbers : list nat)
  : result exception (list Series) :=
  mapM (λ n, match df !! n with
             | Some column => Return column
             | None => Raise IndexError
             end) column_numbers.

Section read.
Context {Value Exn : Type}.
(** [pd.read_html(url)]: the tables of the page, each the list of its
    columns. *)
Variable read_html : string → result Exn (list (list Series)).
(** [f"{v}"]. *)
Variable format : Value → string.
(** [get_current_timestamp()] at its n-th call, and the [isoformat()] of a
    timestamp. *)
Variable now : nat → Z.
Variable isoformat : Z → string.

Definition lift {A} (r : result exception A) : result (raised Exn) A :=
  match r with
  | Return a => Return a
  | Raise e => Raise (BuiltIn e)
  end.

(** [read_nws_table(nws_id)], with the default [column_numbers] and
    [column_names].  Of the frame returned the cells are kept: the dtype of
    a column is asked for by [.str] alone. *)
Definition read_nws_table (nws_id : Value)
  : result (raised Exn) (list (string * list cell)) :=
  let column_numbers := [0; 1; 2; 4; 6; 8]%nat in
  let column_names := ["date"; "time"; "wind"; "weather"; "air"; "6_hour_max"]%string in
  tables ← match read_html ("https://forecast.weather.gov/data/obhistory/K"
                            +:+ format nws_id +:+ ".html") with
           | Return tables => Return tables
           | Raise e => Raise (ReadHtml e)
           end;
  df ← lift (Openmeteo.getitem tables 0);
  df_selected ← lift (iloc_columns df column_numbers);
  let new_column_names := column_names in
  let df_selected := zip new_column_names df_selected in
  date ← lift (InitLocalData.getitem df_selected "date");
  footer ← str_contains date "Date";
  let filtered_df :=
    map (λ '(name, column), (name, select (values column) (map negb footer)))
        df_selected in
  Return filtered_df.

(** The number of rows of a frame, and [df[name] = value] for a scalar. *)
Definition nrows (df : list (string * list cell)) : nat :=
  match df with
  | [] => 0
  | (_, column) :: _ => length column
  end.

Fixpoint setitem (df : list (string * list cell)) (name : string)
    (column : list cell) : list (string * list cell) :=
  match df with
  | [] => [(name, column)]
  | (k, old) :: df' =>
      if bool_decide (k = name) then (k, column) :: df'
      else (k, old) :: setitem df' name column
  end.

Definition setitem_scalar (df : list (string * list cell)) (name : string)
    (value : cell) : list (string * list cell) :=
  setitem df name (replicate (nrows df) value).

(** [pd.concat([a, b])]: the rows of [b] under those of [a], over the
    labels of [a] followed by the new ones of [b]; a frame that lacks a
    column has missing values there. *)
Definition column_or_nan (df : list (string * list cell)) (name : string)
  : list cell :=
  default (replicate (nrows df) NaN) (FileSearch.dict_get df name).

Definition concat (a b : list (string * list cell)) : list (string * list cell) :=
  map (λ name, (name, column_or_nan a name ++ column_or_nan b name))
      (map fst a ++ filter (λ name, name ∉ map fst a) (map fst b)).

(** What is printed: the shape of the frame and the timestamp. *)
Record Disk : Type := mkDisk {
  files : gmap string (list (string * list cell));
  stdout : list (nat * nat * Z)
}.

Fixpoint cities_loop (cities : list (string * list (string * Value)))
    (keys : list string) (n : nat) (all_cities_df : list (string * list cell))
    (current_timestamp : option Z)
  : result (raised Exn) (list (string * list cell) * option Z) :=
  match keys with
  | [] => Return (all_cities_df, current_timestamp)
  | city :: keys' =>
      entry ← lift (InitLocalData.getitem cities city);
      nws_id ← lift (InitLocalData.getitem entry "nws_id");
      let current_timestamp := now n in
      nws_update ← read_nws_table nws_id;
      let nws_update := setitem_scalar nws_update "timestamp"
                                       (Timestamp current_timestamp) in
      let nws_update := setitem_scalar nws_update "city" (Str city) in
      cities_loop cities keys' (S n) (concat all_cities_df nws_update)
                  (Some current_timestamp)
  end.

Definition get_nws_data (cities : list (string * list (string * Value)))
    (w : Disk) : result (raised Exn) unit * Disk :=
  match cities_loop cities (map fst cities) 0 [] None with
  | Raise e => (Raise e, w)
  | Return (all_cities_df, None) =>
      (Raise (UnboundLocalError "current_timestamp"), w)
  | Return (all_cities_df, Some current_timestamp) =>
      let files :=
        Utilities.save all_cities_df "data/staging/nws_observations"
          "nws_observations" (Some (isoformat current_timestamp)) (files w) in
      (Return tt,
       mkDisk files
         (stdout w ++ [(nrows all_cities_df, length all_cities_df,
                        current_timestamp)]))
  end.

End read.

End NwsObservations.

(** * Properties *)

(** ** The store monad *)

Module StoreProps.
Import Python Store.

Section store.
Context {F E : Type}.
Implicit Types (h : gmap nat F) (v : F) (r : nat).

Lemma new_fresh h : h !! fresh (dom h) = None.
Proof. apply not_elem_of_dom, is_fresh. Qed.

Lemma new_run v h :
  new (E := E) v h = Some (Return (fresh (dom h)), <[fresh (dom h) := v]> h).
Proof. reflexivity. Qed.

Lemma load_run r v h : h !! r = Some v → load (E := E) r h = Some (Return v, h).
Proof. intros Hr. unfold load. now rewrite Hr. Qed.

Lemma insert_fresh_lookup h r r' v v' :
  h !! r = None → h !! r' = Some v' → <[r := v]> h !! r' = Some v'.
Proof.
  intros Hnone Hsome. rewrite lookup_insert_ne; [exact Hsome|].
  intros ->. congruence.
Qed.

Lemma unchanged_new h v : unchanged h (<[fresh (dom h) := v]> h).
Proof. intros r w Hr. eapply insert_fresh_lookup; [apply new_fresh|exact Hr]. Qed.

Lemma unchanged_trans h1 h2 h3 : unchanged h1 h2 → unchanged h2 h3 → unchanged h1 h3.
Proof. intros H12 H23 r v Hr. apply H23, H12, Hr. Qed.

(** What a new object is stored over was not an object before. *)
Lemma fresh_after h h' : unchanged h h' → h !! fresh (dom h') = None.
Proof.
  intros Hsub. destruct (h !! fresh (dom h')) as [v|] eqn:Ev; [|reflexivity].
  apply Hsub in Ev. now rewrite new_fresh in Ev.
Qed.

Lemma preserves_ret {A} (a : A) : preserves (F := F) (E := E) (ret a).
Proof. intros h a' h' [= <- <-] r v Hr. exact Hr. Qed.

Lemma preserves_raise {A} (e : E) : preserves (F := F) (A := A) (raise e).
Proof. intros h a' h' [= <- <-] r v Hr. exact Hr. Qed.

Lemma preserves_load r : preserves (load (F := F) (E := E) r).
Proof.
  intros h a h' Hrun r' v Hr. unfold load in Hrun.
  destruct (h !! r); [|discriminate]. now injection Hrun as <- <-.
Qed.

Lemma preserves_new v : preserves (new (E := E) v).
Proof.
  intros h a h' [= <- <-] r w Hr.
  eapply insert_fresh_lookup; [apply new_fresh|exact Hr].
Qed.

Lemma preserves_bind {A B} (m : Py (F := F) (E := E) A) (k : A → Py B) :
  preserves m → (∀ a, preserves (k a)) → preserves (bind m k).
Proof.
  intros Hm Hk h b h' Hrun r v Hr. unfold bind in Hrun.
  destruct (m h) as [[[a|e] h1]|] eqn:Em; [| |discriminate].
  - eapply Hk; [exact Hrun|]. eapply Hm; [exact Em|exact Hr].
  - injection Hrun as <- <-. eapply Hm; [exact Em|exact Hr].
Qed.

(** Item assignment is the operation that does not preserve the store. *)
Lemma assign_overwrites r v w h :
  h !! r = Some v →
  ∃ h', assign (E := E) r w h = Some (Return tt, h') ∧ h' !! r = Some w.
Proof.
  intros Hr. unfold assign. rewrite Hr. eexists; split; [reflexivity|].
  apply lookup_insert_eq.
Qed.

End store.

Create HintDb store discriminated.
#[global] Hint Resolve preserves_ret preserves_raise preserves_load preserves_new
  : store.

End StoreProps.

(** ** feature_engineering/forecasts.py *)

Module ForecastsProps.
Import Python Store StoreProps Forecasts.

Implicit Types (d : DataFrame) (df : nat) (r : Forecast) (h : gmap nat DataFrame).

#[global] Instance causal_dec r : Decision (causal r).
Proof. unfold causal. destruct (datetime r), (model_timestamp r); apply _. Defined.

Lemma gt_causal r : gt (datetime r) (model_timestamp r) = true ↔ causal r.
Proof.
  unfold gt, causal. destruct (datetime r), (model_timestamp r);
    rewrite ?bool_decide_eq_true; intuition discriminate.
Qed.

Lemma getitem_mask_map (f : Z * Forecast → bool) d :
  getitem_mask d (map f d) = filter (λ p, f p = true) d.
Proof.
  induction d as [|p d IH]; [reflexivity|].
  rewrite filter_cons. cbn [map getitem_mask].
  destruct (f p) eqn:E; rewrite IH.
  - now rewrite decide_True.
  - now rewrite decide_False.
Qed.

Lemma zip_with_getitem_col {A B C} (op : A → B → C) (f : Forecast → A)
    (g : Forecast → B) d :
  zip_with op (getitem_col f d) (getitem_col g d)
  = map (λ p, op (f p.2) (g p.2)) d.
Proof. induction d as [|p d IH]; [reflexivity|]. simpl. now rewrite <- IH. Qed.

Lemma causality_mask d :
  getitem_mask d
    (series_gt (getitem_col datetime d) (getitem_col model_timestamp d))
  = filter (λ p, causal p.2) d.
Proof.
  unfold series_gt. rewrite zip_with_getitem_col, getitem_mask_map.
  apply list_filter_iff. intros p. apply gt_causal.
Qed.

Lemma causality_filter_run h df d :
  h !! df = Some d →
  causality_filter df h
  = Some (Return (fresh (dom h)),
          <[fresh (dom h) := filter (λ p, causal p.2) d]> h).
Proof.
  intros Hd. unfold causality_filter, bind. rewrite (load_run _ _ _ Hd).
  now rewrite new_run, causality_mask.
Qed.

Lemma preserves_causality_filter df : preserves (causality_filter df).
Proof.
  apply preserves_bind; [apply preserves_load|]. intros d. apply preserves_new.
Qed.

Lemma preserves_filter_redundant_forecasts df :
  preserves (filter_redundant_forecasts df).
Proof.
  unfold filter_redundant_forecasts.
  repeat (apply preserves_bind; [|intros ?]);
    auto using preserves_causality_filter with store.
Qed.

Lemma preserves_filter_unused_forecast_data df :
  preserves (filter_unused_forecast_data df).
Proof.
  unfold filter_unused_forecast_data.
  repeat (apply preserves_bind; [|intros ?]); auto with store.
Qed.

(** *** drop_duplicates *)

Definition dedup seen d : DataFrame :=
  getitem_mask d (map negb (duplicated seen d)).

Lemma dedup_cons seen p d :
  dedup seen (p :: d)
  = if decide (subset p.2 ∈ seen) then dedup seen d
    else p :: dedup (subset p.2 :: seen) d.
Proof. unfold dedup. cbn [duplicated]. now destruct (decide _). Qed.

Lemma dedup_keys_fresh seen d p :
  p ∈ dedup seen d → subset p.2 ∉ seen.
Proof.
  revert seen. induction d as [|q d IH]; intros seen; [now intros ?%elem_of_nil|].
  rewrite dedup_cons. destruct (decide _) as [Hin|Hout].
  - apply IH.
  - intros [->|Hp]%elem_of_cons; [exact Hout|].
    apply IH in Hp. intros Hs. apply Hp. now right.
Qed.

Lemma dedup_NoDup seen d : NoDup (map (λ p, subset p.2) (dedup seen d)).
Proof.
  revert seen. induction d as [|q d IH]; intros seen; [constructor|].
  rewrite dedup_cons. destruct (decide _) as [Hin|Hout]; [apply IH|].
  cbn [map]. constructor; [|apply IH].
  intros (p & Hk & Hp)%list_elem_of_fmap.
  apply dedup_keys_fresh in Hp. apply Hp. rewrite <- Hk. now left.
Qed.

Lemma dedup_sublist seen d : sublist (dedup seen d) d.
Proof.
  revert seen. induction d as [|q d IH]; intros seen; [constructor|].
  rewrite dedup_cons. destruct (decide _).
  - apply sublist_cons, IH.
  - apply sublist_skip, IH.
Qed.

Lemma dedup_covers seen d p :
  p ∈ d → subset p.2 ∈ seen ∨ subset p.2 ∈ map (λ q, subset q.2) (dedup seen d).
Proof.
  revert seen. induction d as [|q d IH]; intros seen; [now intros ?%elem_of_nil|].
  rewrite dedup_cons. intros [->|Hp]%elem_of_cons.
  - destruct (decide _) as [Hin|Hout]; [now left|]. right. cbn [map]. now left.
  - destruct (decide _) as [Hin|Hout]; [now apply IH|].
    destruct (IH (subset q.2 :: seen) Hp) as [[->|Hs]%elem_of_cons|Hr].
    + right. cbn [map]. now left.
    + now left.
    + right. cbn [map]. now right.
Qed.

(** *** reset_index *)

Lemma reset_index_rows d : map snd (reset_index d) = map snd d.
Proof.
  unfold reset_index. change (map snd ?l) with (snd <$> l).
  rewrite fmap_imap, <- imap_const. apply imap_ext. reflexivity.
Qed.

Lemma reset_index_labels d :
  map fst (reset_index d) = map Z.of_nat (seq 0 (length d)).
Proof.
  unfold reset_index. change (map ?f ?l) with (f <$> l).
  rewrite fmap_imap, <- (imap_seq_0 d Z.of_nat). now apply imap_ext.
Qed.

Lemma elem_of_reset_index d p :
  p ∈ reset_index d → ∃ q, q ∈ d ∧ q.2 = p.2.
Proof.
  intros (i & q & -> & Hq)%elem_of_lookup_imap.
  exists q. split; [eapply list_elem_of_lookup_2; exact Hq|reflexivity].
Qed.

(** *** What the two filters return *)

Lemma filter_redundant_forecasts_run h df d :
  h !! df = Some d →
  ∃ out h',
    filter_redundant_forecasts df h = Some (Return out, h')
    ∧ h' !! out
      = Some (reset_index (drop_duplicates (filter (λ p, causal p.2) d)))
    ∧ h !! out = None.
Proof.
  intros Hd. unfold filter_redundant_forecasts.
  unfold bind at 1. rewrite (causality_filter_run _ _ _ Hd).
  unfold bind at 1, load at 1. rewrite lookup_insert_eq.
  unfold bind at 1. rewrite new_run.
  unfold bind, load. rewrite lookup_insert_eq, new_run.
  match goal with |- context [Some (Return (fresh (dom ?m)), _)] => set (h2 := m) end.
  do 2 eexists. split; [reflexivity|]. split; [apply lookup_insert_eq|].
  destruct (h !! fresh (dom h2)) as [v|] eqn:E; [|reflexivity].
  exfalso. assert (h2 !! fresh (dom h2) = Some v) as Hv.
  { subst h2. do 2 (eapply insert_fresh_lookup; [now apply new_fresh|]).
    exact E. }
  now rewrite new_fresh in Hv.
Qed.

Lemma in_drop_duplicates d p : p ∈ drop_duplicates d → p ∈ d.
Proof. intros Hp. eapply elem_of_sublist; [exact Hp|apply (dedup_sublist [] d)]. Qed.

Lemma exclusion_mask d :
  getitem_mask d
    (series_and
       (series_and (notna (getitem_col forecast_temperature d))
                   (series_ne (getitem_col city d) "Houston"))
       (series_ne (getitem_col model_name d) "best_match"))
  = filter (λ p, is_Some (forecast_temperature p.2)
                 ∧ city p.2 ≠ "Houston"%string
                 ∧ model_name p.2 ≠ "best_match"%string) d.
Proof.
  set (f := λ p : Z * Forecast,
    match forecast_temperature p.2 with Some _ => true | None => false end
    && negb (bool_decide (city p.2 = "Houston"%string))
    && negb (bool_decide (model_name p.2 = "best_match"%string))).
  replace (series_and _ _) with (map f d).
  - rewrite getitem_mask_map. apply list_filter_iff. intros p. unfold f.
    rewrite !andb_true_iff, !negb_true_iff, !bool_decide_eq_false.
    destruct (forecast_temperature p.2) as [t|].
    + intuition eauto.
    + split; [intuition discriminate|]. intros [[t Ht] _]. discriminate.
  - unfold series_and, series_ne, notna, getitem_col.
    induction d as [|q d IH]; [reflexivity|]. cbn. now rewrite IH.
Qed.

Lemma filter_unused_forecast_data_run h df d :
  h !! df = Some d →
  ∃ out h',
    filter_unused_forecast_data df h = Some (Return out, h')
    ∧ h' !! out
      = Some (reset_index
                (filter (λ p, is_Some (forecast_temperature p.2)
                              ∧ city p.2 ≠ "Houston"%string
                              ∧ model_name p.2 ≠ "best_match"%string) d))
    ∧ h !! out = None.
Proof.
  intros Hd. unfold filter_unused_forecast_data.
  unfold bind at 1. rewrite (load_run _ _ _ Hd). cbn zeta.
  rewrite exclusion_mask. unfold bind at 1. rewrite new_run.
  unfold bind, load. rewrite lookup_insert_eq, new_run.
  do 2 eexists. split; [reflexivity|]. split; [apply lookup_insert_eq|].
  apply fresh_after. intros r v Hr.
  eapply insert_fresh_lookup; [apply new_fresh|exact Hr].
Qed.

(** *** The causality pass *)

Definition chicago_run (valid issue : Z) (temp : Q) : Forecast :=
  mkForecast (Some valid) (Some (Q2Qc temp)) "Chicago" (Some issue)
             "gfs_global" 7 "2025-09-14" (Some issue).

(** Three rows: a forecast for a later hour, one for the hour of its own
    run, and one for an hour already past. *)
Definition three_hours : DataFrame :=
  [(4, chicago_run 7200 3600 (143 # 2));
   (5, chicago_run 3600 3600 (141 # 2));
   (9, chicago_run 1800 3600 (70 # 1))].

Definition three_hours_store : gmap nat DataFrame := {[0%nat := three_hours]}.

(** C1. The causality pass of [filter_redundant_forecasts] (its first
    statement) returns, as a new frame, exactly the rows of its input whose
    [datetime] (valid time) is strictly later than their [model_timestamp]
    (issue time), in the order of the input; a row whose valid time is not
    later, or is missing, is dropped.  Every row [filter_redundant_forecasts]
    itself returns is a row of the input that satisfies the same inequality. *)
Theorem causality_filter_retains_causal h df d :
  h !! df = Some d →
  (∃ out, causality_filter df h
          = Some (Return out, <[out := filter (λ p, causal p.2) d]> h))
  ∧ (∀ p, p ∈ filter (λ p, causal p.2) d ↔ p ∈ d ∧ causal p.2)
  ∧ (∃ out h' res,
       filter_redundant_forecasts df h = Some (Return out, h')
       ∧ h' !! out = Some res
       ∧ Forall (λ p, causal p.2) res
       ∧ ∀ p, p ∈ res → ∃ q, q ∈ d ∧ q.2 = p.2).
Proof.
  intros Hd. split; [|split].
  - eexists. now apply causality_filter_run.
  - intros p. rewrite list_elem_of_filter. tauto.
  - destruct (filter_redundant_forecasts_run h df d Hd) as (out & h' & Hrun & Hout & _).
    exists out, h', (reset_index (drop_duplicates (filter (λ p, causal p.2) d))).
    split; [exact Hrun|]. split; [exact Hout|].
    assert (∀ p, p ∈ reset_index (drop_duplicates (filter (λ p, causal p.2) d)) →
                 ∃ q, (q ∈ d ∧ causal q.2) ∧ q.2 = p.2) as Hrows.
    { intros p (q & Hq & Heq)%elem_of_reset_index. exists q. split; [|exact Heq].
      apply and_comm, (list_elem_of_filter (λ p, causal p.2)).
      now apply in_drop_duplicates. }
    split.
    + apply Forall_forall. intros p (q & [_ Hc] & Heq)%Hrows. now rewrite <- Heq.
    + intros p (q & [Hq _] & Heq)%Hrows. eauto.
Qed.

Lemma causality_filter_retains_causal_witness :
  three_hours_store !! 0%nat = Some three_hours
  ∧ (∃ out, causality_filter 0 three_hours_store
            = Some (Return out, <[out := filter (λ p, causal p.2) three_hours]>
                           three_hours_store))
  ∧ (∀ p, p ∈ filter (λ p, causal p.2) three_hours
          ↔ p ∈ three_hours ∧ causal p.2)
  ∧ (∃ out h' res,
       filter_redundant_forecasts 0 three_hours_store = Some (Return out, h')
       ∧ h' !! out = Some res
       ∧ Forall (λ p, causal p.2) res
       ∧ ∀ p, p ∈ res → ∃ q, q ∈ three_hours ∧ q.2 = p.2).
Proof.
  split; [reflexivity|].
  apply (causality_filter_retains_causal three_hours_store 0%nat three_hours).
  reflexivity.
Defined.

Example causality_filter_three_hours :
  filter (λ p, causal p.2) three_hours = [(4, chicago_run 7200 3600 (143 # 2))].
Proof. reflexivity. Qed.

(** *** The duplicate collapse *)

(** The four columns the data model names as the key of a staged batch:
    location, model run, valid time and issue time. *)
Definition batch_key (r : Forecast) : string * Z * option Z * option Z :=
  (city r, model_id r, datetime r, model_timestamp r).

(** Two forecasts of one model run for one hour that differ in the
    temperature alone. *)
Definition two_temperatures : DataFrame :=
  [(0, chicago_run 7200 3600 (143 # 2));
   (1, chicago_run 7200 3600 (145 # 2))].

Definition two_temperatures_store : gmap nat DataFrame :=
  {[0%nat := two_temperatures]}.

Lemma subset_rows d :
  map (λ p, subset p.2) (reset_index d) = map (λ p, subset p.2) d.
Proof.
  rewrite <- !(map_map snd subset). now rewrite reset_index_rows.
Qed.

(** C2, as stated, fails: both rows of [two_temperatures] come back, and
    they agree on city, model (name and id), valid time and issue time. *)
Lemma filter_redundant_forecasts_keeps_both_temperatures :
  ∃ out h' res,
    filter_redundant_forecasts 0 two_temperatures_store
      = Some (Return out, h')
    ∧ h' !! out = Some res
    ∧ res = two_temperatures
    ∧ ¬ NoDup (map (λ p, batch_key p.2) res).
Proof.
  destruct (filter_redundant_forecasts_run two_temperatures_store 0%nat
              two_temperatures eq_refl) as (out & h' & Hrun & Hout & _).
  exists out, h', two_temperatures. split; [exact Hrun|].
  split; [exact Hout|]. split; [reflexivity|].
  intros Hnd. apply NoDup_cons in Hnd as [Hnotin _]. apply Hnotin. now left.
Qed.

(** C2, amended. After the filter and deduplication pass no two rows of the
    result agree on all seven columns handed to [drop_duplicates]
    (datetime, forecast_temperature, city, model_timestamp, model_name,
    model_id, date), and every such tuple of a causal input row is still
    there. *)
Theorem filter_redundant_forecasts_unique_on_subset h df d :
  h !! df = Some d →
  ∃ out h' res,
    filter_redundant_forecasts df h = Some (Return out, h')
    ∧ h' !! out = Some res
    ∧ NoDup (map (λ p, subset p.2) res)
    ∧ ∀ p, p ∈ d → causal p.2 → subset p.2 ∈ map (λ q, subset q.2) res.
Proof.
  intros Hd.
  destruct (filter_redundant_forecasts_run h df d Hd) as (out & h' & Hrun & Hout & _).
  exists out, h', (reset_index (drop_duplicates (filter (λ p, causal p.2) d))).
  split; [exact Hrun|]. split; [exact Hout|]. rewrite subset_rows. split.
  - apply dedup_NoDup.
  - intros p Hp Hc.
    destruct (dedup_covers [] (filter (λ p, causal p.2) d) p) as [Hin|Hin].
    + apply list_elem_of_filter. now split.
    + now apply elem_of_nil in Hin.
    + exact Hin.
Qed.

Lemma filter_redundant_forecasts_unique_on_subset_witness :
  two_temperatures_store !! 0%nat = Some two_temperatures
  ∧ ∃ out h' res,
      filter_redundant_forecasts 0 two_temperatures_store
      = Some (Return out, h')
      ∧ h' !! out = Some res
      ∧ NoDup (map (λ p, subset p.2) res)
      ∧ ∀ p, p ∈ two_temperatures → causal p.2 →
             subset p.2 ∈ map (λ q, subset q.2) res.
Proof.
  split; [reflexivity|].
  apply (filter_redundant_forecasts_unique_on_subset
           two_temperatures_store 0%nat two_temperatures).
  reflexivity.
Defined.

(** The row kept for a tuple is the first one of the input that carries it:
    a later row that repeats all seven columns is dropped even when it
    differs elsewhere. *)
Example drop_duplicates_keeps_first :
  drop_duplicates
    [(0, chicago_run 7200 3600 (143 # 2));
     (1, mkForecast (Some 7200) (Some (Q2Qc (143 # 2))) "Chicago" (Some 3600)
                    "gfs_global" 7 "2025-09-14" (Some 9999));
     (2, chicago_run 10800 3600 (143 # 2))]
  = [(0, chicago_run 7200 3600 (143 # 2));
     (2, chicago_run 10800 3600 (143 # 2))].
Proof. reflexivity. Qed.

End ForecastsProps.

(** ** data_collection/utilities.py *)

Module UtilitiesProps.
Import Python Store StoreProps Utilities.

Implicit Types (d : DataFrame) (df : nat) (h : gmap nat DataFrame)
  (c : cell) (s : list cell) (zone : tzinfo).

(** *** Conversion to UTC *)

(** The cell [to_utc] returns. *)
Definition utc_cell c : cell :=
  match c with
  | NaT => NaT
  | Naive wall => Aware wall 0
  | Aware wall offset => Aware (wall - offset) 0
  end.

Lemma to_utc_returns c : to_utc c = Return (utc_cell c).
Proof.
  destruct c as [|wall|wall offset]; unfold to_utc, instant; cbn;
    unfold instant; try reflexivity; do 2 f_equal; lia.
Qed.

Lemma dt_tz_convert_utc s :
  dt_tz_convert UTC (map to_datetime_utc s) = Return (map utc_cell s).
Proof.
  induction s as [|c s IH]; [reflexivity|]. cbn [map dt_tz_convert].
  fold (to_utc c). now rewrite to_utc_returns, IH.
Qed.

Lemma to_original_zone_utc_cell zone c :
  in_zone zone c → to_original_zone zone (utc_cell c) = Return c.
Proof.
  destruct c as [|wall|wall offset]; cbn; [reflexivity|intros []|].
  unfold instant. intros Hz. replace (wall - offset - 0) with (wall - offset) by lia.
  rewrite Hz. do 2 f_equal. lia.
Qed.

Lemma convert_datetime_to_utc_run h df d col drop_col :
  h !! df = Some d →
  convert_datetime_to_utc df col drop_col h =
  let r1 := fresh (dom h) in
  match columns d !! col with
  | None => Some (Raise (KeyError col), <[r1 := d]> h)
  | Some s =>
      let d1 := mkDataFrame (index d)
                  (<["datetime_utc"%string := map utc_cell s]> (columns d)) in
      let h1 := <[r1 := d1]> (<[r1 := d]> h) in
      if drop_col
      then Some (Return (fresh (dom h1)),
                 <[fresh (dom h1) := mkDataFrame (index d) (delete col (columns d1))]> h1)
      else Some (Return r1, h1)
  end.
Proof.
  intros Hd. unfold convert_datetime_to_utc, copy.
  unfold bind at 1. unfold bind at 1. rewrite (load_run _ _ _ Hd), new_run.
  unfold bind at 1, getitem at 1. unfold bind at 1, load at 1.
  rewrite lookup_insert_eq. cbn zeta.
  destruct (columns d !! col) as [s|] eqn:Ecol; [|reflexivity].
  unfold ret at 1. unfold bind at 1. rewrite dt_tz_convert_utc. cbn [lift].
  unfold ret at 1. unfold bind at 1, setitem at 1. unfold bind at 1, load at 1.
  rewrite lookup_insert_eq. unfold assign. rewrite lookup_insert_eq.
  destruct drop_col; [|reflexivity].
  unfold drop_columns, bind, load. rewrite lookup_insert_eq. cbn [columns index].
  destruct (decide (col = "datetime_utc"%string)) as [->|Hne].
  - now rewrite lookup_insert_eq.
  - rewrite lookup_insert_ne by congruence. now rewrite Ecol.
Qed.

(** Item assignment changes the frame it is applied to: it is the copy taken
    first that keeps [convert_datetime_to_utc] off its argument. *)
Lemma setitem_changes_the_frame h df d col s :
  h !! df = Some d →
  ∃ h', setitem df col s h = Some (Return tt, h')
        ∧ h' !! df = Some (mkDataFrame (index d) (<[col := s]> (columns d))).
Proof.
  intros Hd. unfold setitem, bind. rewrite (load_run _ _ _ Hd).
  unfold assign. rewrite Hd. eexists. split; [reflexivity|].
  apply lookup_insert_eq.
Qed.

Lemma utc_cells_round_trip zone s :
  Forall (in_zone zone) s →
  Forall2 (λ c c', to_utc c = Return c' ∧ to_original_zone zone c' = Return c)
          s (map utc_cell s).
Proof.
  induction 1 as [|c s Hc _ IH]; cbn [map]; constructor; [|exact IH].
  split; [apply to_utc_returns|now apply to_original_zone_utc_cell].
Qed.

(** US Central time around the end of daylight saving time in 2025 (seconds):
    five hours behind UTC before 2025-11-02 07:00 UTC, six hours after. *)
Definition central : tzinfo :=
  {| tzname := "US/Central";
     utcoffset := λ i, if bool_decide (i < 1762066800) then -18000 else -21600 |}.

(** 2025-09-14 00:00:00-05:00, a missing value and 2025-11-02 01:30:00-06:00
    (the second 01:30 of that night). *)
Definition autumn_frame : DataFrame :=
  mkDataFrame [0; 1; 2]
    {[ "datetime"%string := [Aware 1757808000 (-18000); NaT; Aware 1762047000 (-21600)] ]}.

Definition autumn_store : gmap nat DataFrame := {[0%nat := autumn_frame]}.

(** C7. [convert_datetime_to_utc] writes, for every cell of the column it is
    given, that cell converted to UTC into the column [datetime_utc] of the
    frame it returns; converting such a cell back to the zone the original
    reading was taken in gives the original reading again, wall clock and
    offset. *)
Theorem utc_round_trip zone h df d col drop_col s :
  h !! df = Some d →
  columns d !! col = Some s →
  Forall (in_zone zone) s →
  (drop_col = true → col ≠ "datetime_utc"%string) →
  ∃ out h' d' u,
    convert_datetime_to_utc df col drop_col h = Some (Return out, h')
    ∧ h' !! out = Some d'
    ∧ columns d' !! "datetime_utc"%string = Some u
    ∧ Forall2 (λ c c', to_utc c = Return c' ∧ to_original_zone zone c' = Return c)
              s u.
Proof.
  intros Hd Hcol Hzone Hdrop.
  rewrite (convert_datetime_to_utc_run _ _ _ _ _ Hd). cbn zeta. rewrite Hcol.
  destruct drop_col.
  - do 4 eexists. split; [reflexivity|]. split; [apply lookup_insert_eq|].
    cbn [columns]. split; [|now apply utc_cells_round_trip].
    rewrite lookup_delete_ne by (now apply Hdrop). apply lookup_insert_eq.
  - do 4 eexists. split; [reflexivity|]. split; [apply lookup_insert_eq|].
    cbn [columns]. split; [apply lookup_insert_eq|now apply utc_cells_round_trip].
Qed.

Lemma utc_round_trip_witness :
  ∃ out h' d' u,
    convert_datetime_to_utc 0 "datetime" false autumn_store = Some (Return out, h')
    ∧ h' !! out = Some d'
    ∧ columns d' !! "datetime_utc"%string = Some u
    ∧ Forall2 (λ c c', to_utc c = Return c' ∧ to_original_zone central c' = Return c)
              [Aware 1757808000 (-18000); NaT; Aware 1762047000 (-21600)] u.
Proof.
  apply (utc_round_trip central autumn_store 0%nat autumn_frame "datetime" false
           [Aware 1757808000 (-18000); NaT; Aware 1762047000 (-21600)]).
  - reflexivity.
  - reflexivity.
  - repeat constructor.
  - discriminate.
Defined.

Example to_utc_central :
  to_utc (Aware 1757808000 (-18000)) = Return (Aware 1757826000 0).
Proof. reflexivity. Qed.

(** *** The staging writer *)

Example save_path_negative_offset :
  save "rows"%string "data/staging/openmeteo_forecasts" "multi_model_forecasts"
       (Some "2025-11-03T22:26:40.645330-06:00"%string) ∅
  = {[ "data/staging/openmeteo_forecasts/multi_model_forecasts--2025-11-03T22_26_40.645330_06_00.parquet"%string
       := "rows"%string ]}.
Proof. reflexivity. Qed.

Example save_path_positive_offset :
  save "rows"%string "data" "obs" (Some "2025-11-03T22:26:40+05:30"%string) ∅
  = {[ "data/obs--2025-11-03T22_26_40_plus_05_30.parquet"%string := "rows"%string ]}.
Proof. reflexivity. Qed.

Example save_path_no_timestamp :
  save "rows"%string "data" "obs" None ∅
  = {[ "data/obs.parquet"%string := "rows"%string ]}.
Proof. reflexivity. Qed.

(** C4, as stated, fails: a second write under the key of a first one
    replaces what the first one stored. *)
Lemma save_twice_keeps_the_second :
  save "second write"%string "data/staging/nws_observations" "nws_observations"
       (Some "2025-11-03T22:26:40-06:00"%string)
    (save "first write"%string "data/staging/nws_observations" "nws_observations"
          (Some "2025-11-03T22:26:40-06:00"%string) ∅)
  = {[ "data/staging/nws_observations/nws_observations--2025-11-03T22_26_40_06_00.parquet"%string
       := "second write"%string ]}
  ∧ save "second write"%string "data/staging/nws_observations" "nws_observations"
         (Some "2025-11-03T22:26:40-06:00"%string)
      (save "first write"%string "data/staging/nws_observations" "nws_observations"
            (Some "2025-11-03T22:26:40-06:00"%string) ∅)
    !! "data/staging/nws_observations/nws_observations--2025-11-03T22_26_40_06_00.parquet"%string
    ≠ Some "first write"%string.
Proof. split; [reflexivity|]. vm_compute. discriminate. Qed.

(** C4, amended. Writing the same (path, file name, timestamp) key twice
    leaves the files a single write of the second frame leaves: one file for
    the key, holding the content of the last write, next to the files that
    were there before. *)
Theorem save_twice_last_write_wins {Frame : Type} (df1 df2 : Frame)
    (path file_name : string) (current_timestamp : option string)
    (fs : gmap string Frame) :
  save df2 path file_name current_timestamp
    (save df1 path file_name current_timestamp fs)
  = save df2 path file_name current_timestamp fs
  ∧ dom (save df2 path file_name current_timestamp
           (save df1 path file_name current_timestamp fs))
    = dom (save df1 path file_name current_timestamp fs)
  ∧ ∃ full_path,
      save df1 path file_name current_timestamp fs = <[full_path := df1]> fs
      ∧ save df2 path file_name current_timestamp
          (save df1 path file_name current_timestamp fs) !! full_path
        = Some df2.
Proof.
  unfold save, to_parquet. split; [apply insert_insert_eq|]. split.
  - now rewrite insert_insert_eq, !dom_insert_L.
  - eexists. split; [reflexivity|]. apply lookup_insert_eq.
Qed.

End UtilitiesProps.

(** ** data_collection/accuweather.py: the HTTP helper *)

Module AccuweatherGetProps.
Import Python Accuweather.

Section get.
Context {Json : Type}.
Variable network : nat → string → gmap string string → reply Json.

Implicit Types (faults : list transient) (w : World) (url : string)
  (params : gmap string string) (attempt retries : Z).

(** The delay slept after a failed attempt. *)
Definition delay attempt : Qc := base_delay * Q2Qc (inject_Z attempt).

(** The world after [n] requests of one kind, with the delays slept after the
    attempts [first], [first + 1], ..., [first + k - 1]. *)
Definition after_attempts w url params (n : nat) (first k : Z) : World :=
  mkWorld (requests w ++ replicate n (url, params))
          (slept w ++ map delay (seqZ first k)).

(** The exception in [last_exc] once the attempts in [faults] have failed. *)
Definition last_fault faults (last_exc : option transient) : option transient :=
  match last faults with
  | Some exc => Some exc
  | None => last_exc
  end.

Lemma last_fault_cons exc faults last_exc :
  last_fault (exc :: faults) last_exc = last_fault faults (Some exc).
Proof.
  unfold last_fault. destruct faults as [|exc' faults]; [reflexivity|].
  rewrite last_cons_cons. destruct (last (exc' :: faults)) eqn:E; [reflexivity|].
  now apply last_None in E.
Qed.

(** Failed attempts that are not the last one are slept over and retried. *)
Lemma _get_loop_retries faults : ∀ attempt n retries url params last_exc w,
  (∀ i exc, faults !! i = Some exc →
     network (length (requests w) + i)%nat url params = Fails exc) →
  Z.of_nat (length faults) < n →
  retries = attempt + n - 1 →
  _get_loop network (seqZ attempt n) retries url params last_exc w
  = _get_loop network
      (seqZ (attempt + Z.of_nat (length faults)) (n - Z.of_nat (length faults)))
      retries url params (last_fault faults last_exc)
      (after_attempts w url params (length faults) attempt (Z.of_nat (length faults))).
Proof.
  induction faults as [|exc faults IH]; intros attempt n retries url params last_exc w Hnet Hlen Hret.
  - cbn [length Z.of_nat]. rewrite Z.add_0_r, Z.sub_0_r.
    unfold after_attempts, last_fault. cbn. rewrite !app_nil_r. now destruct w.
  - cbn [length] in *. rewrite (seqZ_cons attempt n) by lia.
    cbn [_get_loop]. unfold session_get.
    pose proof (Hnet 0%nat exc eq_refl) as Hfirst.
    rewrite Nat.add_0_r in Hfirst. rewrite Hfirst.
    rewrite bool_decide_eq_false_2 by lia.
    rewrite (IH (Z.succ attempt) (Z.pred n) retries url params (Some exc)).
    + rewrite last_fault_cons. f_equal; [f_equal; lia|].
      unfold after_attempts, sleep. cbn [requests slept].
      rewrite <- !app_assoc. f_equal.
      rewrite (seqZ_cons attempt) by lia. cbn [map app]. do 4 f_equal. lia.
    + intros i exc' Hi. cbn [sleep requests]. rewrite length_app. cbn [length].
      rewrite <- Nat.add_assoc. apply (Hnet (S i)). exact Hi.
    + lia.
    + lia.
Qed.

Definition url_of (path : string) : string := ACCU_BASE +:+ path.

(** Every request carries the credential. *)
Definition with_key (self : AccuWeatherClient) params : gmap string string :=
  <["apikey"%string := api_key self]> params.

Lemma after_attempts_request w url params (n : nat) first k :
  mkWorld (requests (after_attempts w url params n first k) ++ [(url, params)])
          (slept (after_attempts w url params n first k))
  = after_attempts w url params (S n) first k.
Proof.
  unfold after_attempts. cbn [requests slept]. f_equal.
  rewrite <- app_assoc. f_equal.
  change [(url, params)] with (replicate 1 (url, params)).
  rewrite <- replicate_add. f_equal. lia.
Qed.

Lemma after_attempts_length w url params (n : nat) first k :
  length (requests (after_attempts w url params n first k))
  = (length (requests w) + n)%nat.
Proof. unfold after_attempts. cbn. now rewrite length_app, length_replicate. Qed.

(** The attempt that follows the failed ones, when there is one left. *)
Lemma _get_after_faults self path params retries w faults :
  (∀ i exc, faults !! i = Some exc →
     network (length (requests w) + i)%nat (url_of path) (with_key self params)
     = Fails exc) →
  Z.of_nat (length faults) < retries →
  _get network self path params retries w
  = _get_loop network
      (1 + Z.of_nat (length faults)
         :: seqZ (Z.succ (1 + Z.of_nat (length faults)))
                 (Z.pred (retries - Z.of_nat (length faults))))
      retries (url_of path) (with_key self params) (last_fault faults None)
      (after_attempts w (url_of path) (with_key self params) (length faults) 1
                      (Z.of_nat (length faults))).
Proof.
  intros Hnet Hlen. unfold _get, attempts_of.
  fold (url_of path). fold (with_key self params).
  rewrite (_get_loop_retries faults 1 retries retries) by (auto; lia).
  now rewrite seqZ_cons by lia.
Qed.

(** C3. With a retry budget [retries] and the first attempts failing on a
    timeout or a connection error ([faults], one per failed attempt):
    - if an attempt is left and it is answered with status 200, [_get]
      returns the decoded answer, having slept [base_delay * attempt] after
      each failed attempt (0.75 s after the first, 1.5 s after the second,
      ...);
    - if an attempt is left and it is answered with another status, or
      fails with another exception, [_get] raises at once: the request that
      met the error is the last one sent;
    - if every one of the [retries] attempts fails, [_get] raises the network
      error that carries the last fault, exactly [retries] requests having
      been sent, with no delay after the last one. *)
Theorem _get_retry_policy self path params retries w faults :
  (∀ i exc, faults !! i = Some exc →
     network (length (requests w) + i)%nat (url_of path) (with_key self params)
     = Fails exc) →
  (Z.of_nat (length faults) < retries →
     (∀ text data,
        network (length (requests w) + length faults)%nat
                (url_of path) (with_key self params)
        = Response 200 text (Some data) →
        _get network self path params retries w
        = (Return data,
           after_attempts w (url_of path) (with_key self params)
             (S (length faults)) 1 (Z.of_nat (length faults))))
     ∧ (∀ status_code text json,
          status_code ≠ 200 →
          network (length (requests w) + length faults)%nat
                  (url_of path) (with_key self params)
          = Response status_code text json →
          _get network self path params retries w
          = (Raise (ApiError status_code (url_of path) (with_key self params)
                             (substring 0 500 text)),
             after_attempts w (url_of path) (with_key self params)
               (S (length faults)) 1 (Z.of_nat (length faults))))
     ∧ (∀ exc,
          network (length (requests w) + length faults)%nat
                  (url_of path) (with_key self params)
          = FailsOtherwise exc →
          _get network self path params retries w
          = (Raise (Uncaught exc),
             after_attempts w (url_of path) (with_key self params)
               (S (length faults)) 1 (Z.of_nat (length faults)))))
  ∧ (Z.of_nat (length faults) = Z.max 0 retries →
     _get network self path params retries w
     = (Raise (NetworkError (url_of path) (last faults)),
        after_attempts w (url_of path) (with_key self params)
          (length faults) 1 (Z.of_nat (length faults) - 1))).
Proof.
  intros Hnet. split.
  - intros Hlen. rewrite (_get_after_faults _ _ _ _ _ _ Hnet Hlen).
    cbn [_get_loop]. unfold session_get. rewrite after_attempts_length.
    rewrite after_attempts_request. repeat split.
    + intros text data ->. now rewrite bool_decide_eq_true_2.
    + intros status_code text json Hcode ->. now rewrite bool_decide_eq_false_2.
    + now intros exc ->.
  - intros Hall. destruct faults as [|exc front _] using rev_ind.
    + cbn in Hall. unfold _get, attempts_of. rewrite seqZ_nil by lia.
      cbn [_get_loop]. unfold after_attempts. cbn. rewrite !app_nil_r.
      now destruct w.
    + rewrite length_app in Hall. cbn [length] in Hall.
      rewrite (_get_after_faults self path params retries w front).
      * cbn [_get_loop]. unfold session_get. rewrite after_attempts_length.
        rewrite (Hnet (length front) exc) by apply list_lookup_middle, eq_refl.
        rewrite bool_decide_eq_true_2 by lia.
        rewrite after_attempts_request, last_snoc, length_app. cbn [length].
        do 3 f_equal; lia.
      * intros i exc' Hi. apply Hnet. now apply lookup_app_l_Some.
      * lia.
Qed.

End get.

(** Two timeouts, then an answer. *)
Definition flaky (n : nat) (url : string) (params : gmap string string)
  : reply string :=
  match n with
  | 0%nat | 1%nat => Fails Timeout
  | _ => Response 200 "{}" (Some "{}"%string)
  end.

Definition chicago_search : gmap string string :=
  {[ "q"%string := "41.786800,-87.752200"%string ]}.

Lemma _get_retry_policy_witness :
  _get flaky {| api_key := "k" |} "/locations/v1/cities/geoposition/search"
       chicago_search 3 (mkWorld [] [])
  = (Return "{}"%string,
     after_attempts (mkWorld [] [])
       (url_of "/locations/v1/cities/geoposition/search")
       (with_key {| api_key := "k" |} chicago_search) 3 1 2).
Proof.
  refine (proj1 (proj1 (_get_retry_policy flaky {| api_key := "k" |}
           "/locations/v1/cities/geoposition/search" chicago_search 3
           (mkWorld [] []) [Timeout; Timeout] _) _) "{}"%string "{}"%string _).
  - intros [|[|i]] exc; cbn; intros [= <-] || intros [=]; reflexivity.
  - cbn. lia.
  - reflexivity.
Defined.

Lemma delay_1 : delay 1 = Q2Qc (3 # 4).
Proof. now apply Qc_is_canon. Qed.

Lemma delay_2 : delay 2 = Q2Qc (3 # 2).
Proof. now apply Qc_is_canon. Qed.

Example _get_sleeps_three_quarters_then_one_and_a_half :
  _get flaky {| api_key := "k" |} "/locations/v1/cities/geoposition/search"
       chicago_search 3 (mkWorld [] [])
  = (Return "{}"%string,
     mkWorld
       (replicate 3
          ("https://dataservice.accuweather.com/locations/v1/cities/geoposition/search"%string,
           {[ "q"%string := "41.786800,-87.752200"%string;
              "apikey"%string := "k"%string ]}))
       [Q2Qc (3 # 4); Q2Qc (3 # 2)]).
Proof.
  rewrite <- delay_1, <- delay_2. vm_compute. reflexivity.
Qed.

End AccuweatherGetProps.
(** ** The passes leave their input alone *)

Module PurityProps.
Import Python Store StoreProps.

(** C9. The causality filter, the duplicate collapse (both inside
    [filter_redundant_forecasts]), the exclusion filter
    ([filter_unused_forecast_data]) and the timestamp normalisation
    ([convert_datetime_to_utc]) each return a frame that is a new object, and
    leave the frame they are given, like every other object that existed
    before the call, exactly as it was; [convert_datetime_to_utc] does so
    also when it raises. *)
Theorem filtering_passes_leave_input_unchanged :
  (∀ h df d, h !! df = Some d →
     ∃ out h', Forecasts.causality_filter df h = Some (Return out, h')
               ∧ h !! out = None ∧ h' !! df = Some d ∧ unchanged h h')
  ∧ (∀ h df d, h !! df = Some d →
       ∃ out h', Forecasts.filter_redundant_forecasts df h = Some (Return out, h')
                 ∧ h !! out = None ∧ h' !! df = Some d ∧ unchanged h h')
  ∧ (∀ h df d, h !! df = Some d →
       ∃ out h', Forecasts.filter_unused_forecast_data df h = Some (Return out, h')
                 ∧ h !! out = None ∧ h' !! df = Some d ∧ unchanged h h')
  ∧ (∀ h df d col drop_col, h !! df = Some d →
       ∃ res h', Utilities.convert_datetime_to_utc df col drop_col h = Some (res, h')
                 ∧ (∀ out, res = Return out → h !! out = None)
                 ∧ h' !! df = Some d ∧ unchanged h h').
Proof.
  split; [|split; [|split]].
  - intros h df d Hd. do 2 eexists.
    split; [apply (ForecastsProps.causality_filter_run _ _ _ Hd)|].
    assert (unchanged h (<[fresh (dom h) := filter (λ p, Forecasts.causal p.2) d]> h)) as Hun.
    { intros r v Hr. eapply insert_fresh_lookup; [apply new_fresh|exact Hr]. }
    split; [apply new_fresh|]. split; [now apply Hun|exact Hun].
  - intros h df d Hd.
    destruct (ForecastsProps.filter_redundant_forecasts_run h df d Hd)
      as (out & h' & Hrun & _ & Hfresh).
    exists out, h'. split; [exact Hrun|]. split; [exact Hfresh|].
    pose proof (ForecastsProps.preserves_filter_redundant_forecasts df _ _ _ Hrun) as Hun.
    split; [now apply Hun|exact Hun].
  - intros h df d Hd.
    destruct (ForecastsProps.filter_unused_forecast_data_run h df d Hd)
      as (out & h' & Hrun & _ & Hfresh).
    exists out, h'. split; [exact Hrun|]. split; [exact Hfresh|].
    pose proof (ForecastsProps.preserves_filter_unused_forecast_data df _ _ _ Hrun) as Hun.
    split; [now apply Hun|exact Hun].
  - intros h df d col drop_col Hd.
    rewrite (UtilitiesProps.convert_datetime_to_utc_run _ _ _ _ _ Hd). cbn zeta.
    pose proof (unchanged_new h d) as Hcopy.
    destruct (Utilities.columns d !! col) as [s|].
    + rewrite insert_insert_eq.
      set (d1 := Utilities.mkDataFrame _ _).
      pose proof (unchanged_new h d1) as Hset.
      destruct drop_col.
      * set (h1 := <[fresh (dom h) := d1]> h) in *.
        do 2 eexists. split; [reflexivity|].
        match goal with |- context [<[fresh (dom h1) := ?v]> h1] =>
          pose proof (unchanged_trans _ _ _ Hset (unchanged_new h1 v)) as Hun
        end.
        split; [|split; [apply Hun, Hd|apply Hun]].
        intros out [= <-]. now apply fresh_after.
      * do 2 eexists. split; [reflexivity|].
        split; [|split; [apply Hset, Hd|apply Hset]].
        intros out [= <-]. apply new_fresh.
    + do 2 eexists. split; [reflexivity|].
      split; [discriminate|split; [apply Hcopy, Hd|apply Hcopy]].
Qed.

Lemma filtering_passes_leave_input_unchanged_witness :
  ∃ out h',
    Forecasts.filter_redundant_forecasts 0 ForecastsProps.two_temperatures_store
    = Some (Return out, h')
    ∧ ForecastsProps.two_temperatures_store !! out = None
    ∧ h' !! 0%nat = Some ForecastsProps.two_temperatures
    ∧ unchanged ForecastsProps.two_temperatures_store h'.
Proof.
  apply (proj1 (proj2 filtering_passes_leave_input_unchanged)
           ForecastsProps.two_temperatures_store 0%nat
           ForecastsProps.two_temperatures).
  reflexivity.
Defined.

End PurityProps.

(** ** The calendar *)

Module DatetimeProps.
Import Python Datetime.

(** The year before [year] as whole 400-year, 100-year and 4-year cycles and
    years left over. *)
Lemma days_before_year_cycles year :
  let y := year - 1 in
  _days_before_year year
  = 146097 * (y / 400) + 36524 * (y mod 400 / 100)
    + 1461 * (y mod 100 / 4) + 365 * (y mod 4).
Proof.
  unfold _days_before_year. cbv zeta. Z.div_mod_to_equations. lia.
Qed.

Lemma is_leap_cycles year :
  _is_leap year
  = bool_decide ((year - 1) mod 4 = 3)
    && (negb (bool_decide ((year - 1) mod 100 / 4 = 24))
        || bool_decide ((year - 1) mod 400 / 100 = 3)).
Proof.
  unfold _is_leap.
  repeat case_bool_decide; cbn; try reflexivity; exfalso;
    Z.div_mod_to_equations; lia.
Qed.

(** The last step of [_ord2ymd]: month and day from the day of the year
    (counted from 0) and whether the year is a leap year. *)
Definition month_and_day (leapyear : bool) (n : Z) : Z * Z :=
  let month := Z.shiftr (n + 50) 5 in
  let preceding :=
    _DAYS_BEFORE_MONTH !!! Z.to_nat month
    + (if bool_decide (2 < month) && leapyear then 1 else 0) in
  if bool_decide (n < preceding) then
    let month := month - 1 in
    let preceding :=
      preceding
      - (_DAYS_IN_MONTH !!! Z.to_nat month
         + (if bool_decide (month = 2) && leapyear then 1 else 0)) in
    (month, n - preceding + 1)
  else (month, n - preceding + 1).

Lemma _ord2ymd_steps n :
  _ord2ymd n =
  let n0 := n - 1 in
  let n400 := n0 / _DI400Y in
  let r400 := n0 mod _DI400Y in
  let n100 := r400 / _DI100Y in
  let r100 := r400 mod _DI100Y in
  let n4 := r100 / _DI4Y in
  let r4 := r100 mod _DI4Y in
  let n1 := r4 / 365 in
  let r1 := r4 mod 365 in
  let year := n400 * 400 + 1 + n100 * 100 + n4 * 4 + n1 in
  if bool_decide (n1 = 4) || bool_decide (n100 = 4) then (year - 1, 12, 31)
  else
    let leapyear :=
      bool_decide (n1 = 3)
      && (negb (bool_decide (n4 = 24)) || bool_decide (n100 = 3)) in
    (year, (month_and_day leapyear r1).1, (month_and_day leapyear r1).2).
Proof.
  unfold _ord2ymd, month_and_day. cbv zeta.
  destruct (_ || _); [reflexivity|]. now destruct (bool_decide (_ < _)).
Qed.

Ltac month_cases m :=
  let H := fresh in
  assert (m = 1 ∨ m = 2 ∨ m = 3 ∨ m = 4 ∨ m = 5 ∨ m = 6 ∨ m = 7 ∨ m = 8
          ∨ m = 9 ∨ m = 10 ∨ m = 11 ∨ m = 12) as H by lia;
  repeat destruct H as [H|H]; subst m.

(** Table lookups at a known index are replaced by their value. *)
Ltac known_lookups :=
  repeat match goal with
  | |- context [?table !!! Z.to_nat ?i] =>
      let closed := eval vm_compute in (Nat.eqb (Z.to_nat i) (Z.to_nat i)) in
      lazymatch closed with
      | true =>
          let v := eval vm_compute in (table !!! Z.to_nat i) in
          change (table !!! Z.to_nat i) with v
      end
  end.

Lemma month_and_day_from (leapyear : bool) month day before length_of_month :
  1 ≤ month ≤ 12 →
  before = _DAYS_BEFORE_MONTH !!! Z.to_nat month
           + (if bool_decide (2 < month) && leapyear then 1 else 0) →
  length_of_month = (if bool_decide (month = 2) && leapyear then 29
                     else _DAYS_IN_MONTH !!! Z.to_nat month) →
  1 ≤ day ≤ length_of_month →
  month_and_day leapyear (before + day - 1) = (month, day).
Proof.
  intros Hm Hbefore Hlen Hd. unfold month_and_day. cbv zeta.
  rewrite Z.shiftr_div_pow2 by lia. change (2 ^ 5) with 32.
  month_cases month; destruct leapyear;
    vm_compute in Hbefore, Hlen; subst before length_of_month;
    match goal with
    | |- context [(?k + 50) / 32] =>
        let q := fresh "q" in
        let Hq := fresh "Hq" in
        remember ((k + 50) / 32) as q eqn:Hq;
        let H := fresh in
        assert (q = 1 ∨ q = 2 ∨ q = 3 ∨ q = 4 ∨ q = 5 ∨ q = 6 ∨ q = 7 ∨ q = 8
                ∨ q = 9 ∨ q = 10 ∨ q = 11 ∨ q = 12 ∨ q = 13) as H
          by (subst q; Z.div_mod_to_equations; lia);
        repeat destruct H as [H|H]; rewrite H in Hq |- *;
        try (exfalso; Z.div_mod_to_equations; lia);
        known_lookups; repeat case_bool_decide; cbn [andb] in *;
        try (f_equal; lia); try (exfalso; lia)
    end.
Qed.

Lemma div_mod_known n b q r :
  0 ≤ r < b → n = b * q + r → n / b = q ∧ n mod b = r.
Proof.
  intros Hr ->. split.
  - symmetry. apply (Z.div_unique _ _ q r); [now left|reflexivity].
  - symmetry. apply (Z.mod_unique _ _ q r); [now left|reflexivity].
Qed.

Ltac known_div_mod n b q r :=
  let Hq := fresh "Hq" in
  let Hr := fresh "Hr" in
  destruct (div_mod_known n b q r) as [Hq Hr];
  [unfold _DI400Y, _DI100Y, _DI4Y; lia
  |unfold _DI400Y, _DI100Y, _DI4Y; lia
  |rewrite ?Hq, ?Hr; clear Hq Hr].

(** [_ord2ymd] on a day that is not the 366th of its year. *)
Lemma _ord2ymd_cycles a b c e k :
  0 ≤ a → 0 ≤ b ≤ 3 → 0 ≤ c ≤ 24 → 0 ≤ e ≤ 3 → 0 ≤ k < 365 →
  _ord2ymd (146097 * a + 36524 * b + 1461 * c + 365 * e + k + 1)
  = let leapyear :=
      bool_decide (e = 3)
      && (negb (bool_decide (c = 24)) || bool_decide (b = 3)) in
    (400 * a + 100 * b + 4 * c + e + 1,
     (month_and_day leapyear k).1, (month_and_day leapyear k).2).
Proof.
  intros Ha Hb Hc He Hk. rewrite _ord2ymd_steps. cbv zeta.
  replace (146097 * a + 36524 * b + 1461 * c + 365 * e + k + 1 - 1)
    with (146097 * a + 36524 * b + 1461 * c + 365 * e + k) by lia.
  known_div_mod (146097 * a + 36524 * b + 1461 * c + 365 * e + k) _DI400Y
                a (36524 * b + 1461 * c + 365 * e + k).
  known_div_mod (36524 * b + 1461 * c + 365 * e + k) _DI100Y
                b (1461 * c + 365 * e + k).
  known_div_mod (1461 * c + 365 * e + k) _DI4Y c (365 * e + k).
  known_div_mod (365 * e + k) 365 e k.
  rewrite (bool_decide_eq_false_2 (e = 4)) by lia.
  rewrite (bool_decide_eq_false_2 (b = 4)) by lia.
  cbn [orb]. f_equal. f_equal. lia.
Qed.

(** [_ord2ymd] on the 366th day of a leap year. *)
Lemma _ord2ymd_cycles_last a b c :
  0 ≤ a → 0 ≤ b ≤ 3 → 0 ≤ c ≤ 24 → (c ≠ 24 ∨ b = 3) →
  _ord2ymd (146097 * a + 36524 * b + 1461 * c + 365 * 3 + 365 + 1)
  = (400 * a + 100 * b + 4 * c + 3 + 1, 12, 31).
Proof.
  intros Ha Hb Hc Hleap. rewrite _ord2ymd_steps. cbv zeta.
  replace (146097 * a + 36524 * b + 1461 * c + 365 * 3 + 365 + 1 - 1)
    with (146097 * a + 36524 * b + 1461 * c + 1460) by lia.
  known_div_mod (146097 * a + 36524 * b + 1461 * c + 1460) _DI400Y
                a (36524 * b + 1461 * c + 1460).
  destruct (decide (c = 24)) as [->|Hc24].
  - assert (b = 3) as -> by lia.
    change (36524 * 3 + 1461 * 24 + 1460) with 146096.
    match goal with
    | |- context [if ?cond then _ else _] =>
        let v := eval vm_compute in cond in change cond with v
    end.
    cbv iota. unfold _DI100Y, _DI4Y. f_equal. f_equal.
    Z.div_mod_to_equations. lia.
  - known_div_mod (36524 * b + 1461 * c + 1460) _DI100Y b (1461 * c + 1460).
    known_div_mod (1461 * c + 1460) _DI4Y c 1460.
    change (1460 / 365) with 4. rewrite (bool_decide_eq_true_2 (4 = 4)) by lia.
    cbn [orb]. f_equal. f_equal. lia.
Qed.

(** The day of the year of a valid date, counted from 0, is below 365, or
    the date is December 31 of a leap year. *)
Lemma day_of_year_bound (leapyear : bool) month day :
  1 ≤ month ≤ 12 →
  1 ≤ day ≤ (if bool_decide (month = 2) && leapyear then 29
             else _DAYS_IN_MONTH !!! Z.to_nat month) →
  let before := _DAYS_BEFORE_MONTH !!! Z.to_nat month
                + (if bool_decide (2 < month) && leapyear then 1 else 0) in
  0 ≤ before + day - 1
  ∧ (before + day - 1 < 365
     ∨ (before + day - 1 = 365 ∧ leapyear = true ∧ month = 12 ∧ day = 31)).
Proof.
  intros Hm Hd before. subst before.
  month_cases month; destruct leapyear;
    repeat match goal with
    | H : context [if ?cond then ?x else ?y] |- _ =>
        let v := eval vm_compute in (if cond then x else y) in
        change (if cond then x else y) with v in H
    | |- context [if ?cond then ?x else ?y] =>
        let v := eval vm_compute in (if cond then x else y) in
        change (if cond then x else y) with v
    end;
    known_lookups; lia.
Qed.

Theorem fromordinal_toordinal d : valid d → fromordinal (toordinal d) = d.
Proof.
  destruct d as [y m dd]. unfold valid, MINYEAR, MAXYEAR. cbn [year month day].
  intros (Hy & Hm & Hd).
  unfold fromordinal, toordinal, _ymd2ord. cbn [year month day].
  pose proof (days_before_year_cycles y) as Hdby. cbv zeta in Hdby.
  pose proof (is_leap_cycles y) as Hleap.
  assert (y = 400 * ((y - 1) / 400) + 100 * ((y - 1) mod 400 / 100)
              + 4 * ((y - 1) mod 100 / 4) + (y - 1) mod 4 + 1
          ∧ 0 ≤ (y - 1) / 400 ∧ 0 ≤ (y - 1) mod 400 / 100 ≤ 3
          ∧ 0 ≤ (y - 1) mod 100 / 4 ≤ 24 ∧ 0 ≤ (y - 1) mod 4 ≤ 3)
    as (Hy1 & Ha & Hb & Hc & He) by (Z.div_mod_to_equations; lia).
  revert Hdby Hleap Hy1 Ha Hb Hc He.
  generalize ((y - 1) / 400) ((y - 1) mod 400 / 100) ((y - 1) mod 100 / 4)
             ((y - 1) mod 4).
  intros a b c e Hdby Hleap Hy1 Ha Hb Hc He.
  unfold _days_in_month in Hd. unfold _days_before_month. rewrite Hdby.
  pose proof (day_of_year_bound (_is_leap y) m dd Hm Hd) as Hbound.
  cbv zeta in Hbound. destruct Hbound as [Hk0 [Hk|(Hk & HL & -> & ->)]].
  - match goal with
    | |- context [_ord2ymd ?n] =>
        replace n with
          (146097 * a + 36524 * b + 1461 * c + 365 * e
           + (_DAYS_BEFORE_MONTH !!! Z.to_nat m
              + (if bool_decide (2 < m) && _is_leap y then 1 else 0) + dd - 1) + 1)
          by lia
    end.
    rewrite _ord2ymd_cycles by (assumption || (split; assumption)). cbv zeta.
    rewrite <- Hleap.
    rewrite (month_and_day_from (_is_leap y) m dd _ _ Hm eq_refl eq_refl Hd).
    cbn [fst snd]. f_equal. lia.
  - rewrite Hleap in HL. apply andb_true_iff in HL as [He3 Hcb].
    apply bool_decide_eq_true in He3. subst e.
    match goal with
    | |- context [_ord2ymd ?n] =>
        replace n with
          (146097 * a + 36524 * b + 1461 * c + 365 * 3 + 365 + 1) by lia
    end.
    rewrite _ord2ymd_cycles_last; [f_equal; lia|assumption..|].
    apply orb_true_iff in Hcb as [Hc24|Hb3].
    + left. now apply negb_true_iff, bool_decide_eq_false in Hc24.
    + right. now apply bool_decide_eq_true in Hb3.
Qed.

(** *** The day after

    The calendar's own successor: the next day of the month, else the first
    of the next month, else the first of January of the next year. *)
Definition next_day (d : date) : date :=
  if bool_decide (day d < _days_in_month (year d) (month d))
  then mkDate (year d) (month d) (day d + 1)
  else if bool_decide (month d < 12) then mkDate (year d) (month d + 1) 1
  else mkDate (year d + 1) 1 1.

(** [n] consecutive days from [d] on. *)
Fixpoint days_from (n : nat) (d : date) : list date :=
  match n with
  | O => []
  | S n' => d :: days_from n' (next_day d)
  end.

Lemma days_before_year_succ y :
  _days_before_year (y + 1)
  = _days_before_year y + 365 + (if _is_leap y then 1 else 0).
Proof.
  unfold _days_before_year, _is_leap. cbv zeta.
  repeat case_bool_decide; cbn [andb orb negb]; Z.div_mod_to_equations; lia.
Qed.

Lemma days_before_month_succ (leapyear : bool) m :
  1 ≤ m < 12 →
  _DAYS_BEFORE_MONTH !!! Z.to_nat (m + 1)
  + (if bool_decide (2 < m + 1) && leapyear then 1 else 0)
  = _DAYS_BEFORE_MONTH !!! Z.to_nat m
    + (if bool_decide (2 < m) && leapyear then 1 else 0)
    + (if bool_decide (m = 2) && leapyear then 29
       else _DAYS_IN_MONTH !!! Z.to_nat m).
Proof.
  intros Hm.
  assert (m = 1 ∨ m = 2 ∨ m = 3 ∨ m = 4 ∨ m = 5 ∨ m = 6 ∨ m = 7 ∨ m = 8
          ∨ m = 9 ∨ m = 10 ∨ m = 11) as H by lia.
  repeat destruct H as [H|H]; subst m; destruct leapyear; vm_compute; reflexivity.
Qed.

Lemma valid_month_length y m : 1 ≤ m ≤ 12 → 28 ≤ _days_in_month y m ≤ 31.
Proof.
  intros Hm. unfold _days_in_month.
  month_cases m; destruct (_is_leap y); vm_compute; split; discriminate.
Qed.

Lemma december y :
  _days_before_month y 12 + _days_in_month y 12
  = 365 + (if _is_leap y then 1 else 0).
Proof.
  unfold _days_before_month, _days_in_month.
  destruct (_is_leap y); vm_compute; reflexivity.
Qed.

(** The successor is the date of the next ordinal. *)
Lemma toordinal_next_day d :
  valid d → (year d < MAXYEAR ∨ month d < 12 ∨ day d < 31) →
  valid (next_day d) ∧ toordinal (next_day d) = toordinal d + 1.
Proof.
  destruct d as [y m dd]. unfold valid, next_day, toordinal, _ymd2ord, MINYEAR, MAXYEAR.
  cbn [year month day]. intros (Hy & Hm & Hd) Hmax.
  pose proof (valid_month_length y m Hm) as Hlen.
  case_bool_decide as Hday; [|case_bool_decide as Hmonth]; cbn [year month day].
  - split; [lia|lia].
  - pose proof (valid_month_length y (m + 1)) as Hlen'. split; [lia|].
    unfold _days_before_month.
    rewrite (days_before_month_succ (_is_leap y) m) by lia.
    unfold _days_in_month in Hday, Hd. lia.
  - assert (m = 12) as -> by lia.
    pose proof (valid_month_length (y + 1) 1) as Hlen'.
    pose proof (december y) as Hdec.
    assert (_days_in_month y 12 = 31) as H31
      by (unfold _days_in_month; now destruct (_is_leap y)).
    split; [lia|].
    rewrite days_before_year_succ.
    change (_days_before_month (y + 1) 1) with
      (_DAYS_BEFORE_MONTH !!! Z.to_nat 1
       + (if bool_decide (2 < 1) && _is_leap (y + 1) then 1 else 0)).
    rewrite (bool_decide_eq_false_2 (2 < 1)) by lia. cbn [andb].
    change (_DAYS_BEFORE_MONTH !!! Z.to_nat 1) with 0. lia.
Qed.

(** *** Ordinals of valid dates *)

Lemma day_of_year_range y m dd :
  valid (mkDate y m dd) →
  1 ≤ _days_before_month y m + dd ≤ 365 + (if _is_leap y then 1 else 0).
Proof.
  unfold valid. cbn [year month day]. intros (_ & Hm & Hd).
  unfold _days_in_month in Hd. unfold _days_before_month.
  pose proof (day_of_year_bound (_is_leap y) m dd Hm Hd) as Hbound.
  cbv zeta in Hbound. destruct Hbound as [H0 [Hlt|(Heq & HL & _)]].
  - destruct (_is_leap y); lia.
  - rewrite HL in *. lia.
Qed.

Lemma days_before_year_mono y y' :
  1 ≤ y ≤ y' → _days_before_year y ≤ _days_before_year y'.
Proof.
  intros Hy. unfold _days_before_year. cbv zeta. Z.div_mod_to_equations. lia.
Qed.

Lemma toordinal_range d : valid d → 1 ≤ toordinal d ≤ _MAXORDINAL.
Proof.
  destruct d as [y m dd]. intros Hv. pose proof (day_of_year_range y m dd Hv) as Hdoy.
  destruct Hv as (Hy & _). unfold MINYEAR, MAXYEAR in Hy. cbn [year] in Hy.
  unfold toordinal, _ymd2ord. cbn [year month day].
  pose proof (days_before_year_mono 1 y) as Hlow.
  pose proof (days_before_year_mono (y + 1) 10000) as Hhigh.
  rewrite days_before_year_succ in Hhigh.
  change (_days_before_year 1) with 0 in Hlow.
  change (_days_before_year 10000) with 3652059 in Hhigh.
  unfold _MAXORDINAL. lia.
Qed.

Lemma days_before_month_mono (leapyear : bool) m m' :
  1 ≤ m → m < m' → m' ≤ 12 →
  _DAYS_BEFORE_MONTH !!! Z.to_nat m
  + (if bool_decide (2 < m) && leapyear then 1 else 0)
  + (if bool_decide (m = 2) && leapyear then 29
     else _DAYS_IN_MONTH !!! Z.to_nat m)
  ≤ _DAYS_BEFORE_MONTH !!! Z.to_nat m'
    + (if bool_decide (2 < m') && leapyear then 1 else 0).
Proof.
  intros Hm Hlt Hm'.
  assert (∃ k : nat, m' = m + 1 + Z.of_nat k) as [k ->]
    by (exists (Z.to_nat (m' - m - 1)); lia).
  clear Hlt. induction k as [|k IH].
  - rewrite Z.add_0_r. rewrite days_before_month_succ by lia. lia.
  - etransitivity; [apply IH; lia|].
    replace (m + 1 + Z.of_nat (S k)) with (m + 1 + Z.of_nat k + 1) by lia.
    rewrite (days_before_month_succ leapyear (m + 1 + Z.of_nat k)) by lia.
    assert (0 ≤ (if bool_decide (m + 1 + Z.of_nat k = 2) && leapyear then 29
                 else _DAYS_IN_MONTH !!! Z.to_nat (m + 1 + Z.of_nat k))); [|lia].
    pose proof (valid_month_length (if leapyear then 4 else 1) (m + 1 + Z.of_nat k)) as Hlen.
    unfold _days_in_month in Hlen. destruct leapyear;
      [change (_is_leap 4) with true in Hlen|change (_is_leap 1) with false in Hlen];
      lia.
Qed.

(** The order of dates is the order of their ordinals. *)
Lemma toordinal_lt a b :
  valid a → valid b → date_lt a b → toordinal a < toordinal b.
Proof.
  destruct a as [ya ma da], b as [yb mb db]. intros Ha Hb.
  pose proof (day_of_year_range _ _ _ Ha) as Hdoya.
  pose proof (day_of_year_range _ _ _ Hb) as Hdoyb.
  destruct Ha as (Hya & Hma & Hda), Hb as (Hyb & Hmb & Hdb).
  unfold MINYEAR, MAXYEAR, date_lt, toordinal, _ymd2ord in *.
  cbn [year month day] in *.
  intros [Hy|[-> [Hm|[-> Hd]]]].
  - pose proof (days_before_year_mono (ya + 1) yb) as Hmono.
    rewrite days_before_year_succ in Hmono. lia.
  - unfold _days_in_month in Hda. unfold _days_before_month.
    pose proof (days_before_month_mono (_is_leap yb) ma mb) as Hmono. lia.
  - lia.
Qed.

Lemma toordinal_le a b :
  valid a → valid b → ¬ date_lt b a → toordinal a ≤ toordinal b.
Proof.
  intros Ha Hb Hnlt.
  destruct (decide (date_lt a b)) as [Hlt|Hnlt'].
  - apply Z.lt_le_incl. now apply toordinal_lt.
  - assert (a = b) as ->; [|lia].
    destruct a as [ya ma da], b as [yb mb db]. unfold date_lt in *.
    cbn [year month day] in *. f_equal; lia.
Qed.

Lemma last_day_ordinal d :
  valid d → ¬ (year d < MAXYEAR ∨ month d < 12 ∨ day d < 31) →
  toordinal d = _MAXORDINAL.
Proof.
  destruct d as [y m dd]. intros (Hy & Hm & Hd) Hlast.
  unfold MINYEAR, MAXYEAR in *. cbn [year month day] in *.
  pose proof (valid_month_length y m Hm).
  assert (y = 9999) as -> by lia. assert (m = 12) as -> by lia.
  assert (dd = 31) as -> by lia. reflexivity.
Qed.

(** The days that follow [d] are the dates of the ordinals that follow its
    own. *)
Lemma days_from_ordinals n : ∀ d,
  valid d → toordinal d + Z.of_nat n - 1 ≤ _MAXORDINAL →
  days_from n d
  = map (λ i, fromordinal (toordinal d + i)) (seqZ 0 (Z.of_nat n)).
Proof.
  induction n as [|n IH]; intros d Hv Hmax; [reflexivity|].
  cbn [days_from]. rewrite seqZ_cons by lia. cbn [map].
  rewrite Z.add_0_r, fromordinal_toordinal by exact Hv. f_equal.
  destruct n as [|n]; [reflexivity|].
  destruct (toordinal_next_day d Hv) as [Hv' Hord].
  { destruct (decide (year d < MAXYEAR ∨ month d < 12 ∨ day d < 31)) as [|Hlast];
      [assumption|].
    apply (last_day_ordinal d Hv) in Hlast. lia. }
  rewrite IH by (assumption || lia). rewrite Hord.
  replace (Z.pred (Z.of_nat (S (S n)))) with (Z.of_nat (S n)) by lia.
  rewrite <- (fmap_add_seqZ 1 0). change (map ?f (?g <$> ?l)) with (map f (map g l)).
  rewrite map_map. apply map_ext. intros i. f_equal. lia.
Qed.

(** Every ordinal from that of a valid date up to the last one is the
    ordinal of the valid date [fromordinal] returns for it. *)
Lemma toordinal_fromordinal_add k : ∀ d,
  valid d → toordinal d + Z.of_nat k ≤ _MAXORDINAL →
  valid (fromordinal (toordinal d + Z.of_nat k))
  ∧ toordinal (fromordinal (toordinal d + Z.of_nat k)) = toordinal d + Z.of_nat k.
Proof.
  induction k as [|k IH]; intros d Hv Hmax.
  - rewrite Z.add_0_r, fromordinal_toordinal by exact Hv. now split.
  - destruct (IH d Hv) as [Hv' Hord]; [lia|].
    destruct (toordinal_next_day _ Hv') as [Hv'' Hord'].
    { destruct (decide (year (fromordinal (toordinal d + Z.of_nat k)) < MAXYEAR
                        ∨ month (fromordinal (toordinal d + Z.of_nat k)) < 12
                        ∨ day (fromordinal (toordinal d + Z.of_nat k)) < 31))
        as [|Hlast]; [assumption|].
      apply (last_day_ordinal _ Hv') in Hlast. lia. }
    replace (toordinal d + Z.of_nat (S k))
      with (toordinal (next_day (fromordinal (toordinal d + Z.of_nat k)))) by lia.
    rewrite fromordinal_toordinal by exact Hv''. split; [exact Hv''|lia].
Qed.

Lemma date_lt_of_ordinals a b :
  valid a → valid b → toordinal a < toordinal b → date_lt a b.
Proof.
  intros Ha Hb Hlt. destruct (decide (date_lt a b)) as [|Hn]; [assumption|].
  pose proof (toordinal_le b a Hb Ha Hn). lia.
Qed.

Lemma days_from_lookup n d (i : nat) :
  valid d → toordinal d + Z.of_nat n - 1 ≤ _MAXORDINAL → (i < n)%nat →
  days_from n d !! i = Some (fromordinal (toordinal d + Z.of_nat i)).
Proof.
  intros Hv Hmax Hi. rewrite days_from_ordinals by assumption.
  change (map ?f ?l) with (f <$> l). rewrite list_lookup_fmap.
  rewrite lookup_seqZ_lt by lia. reflexivity.
Qed.

Lemma length_days_from n d : length (days_from n d) = n.
Proof. revert d. induction n as [|n IH]; intros d; cbn; [reflexivity|now rewrite IH]. Qed.

(** Consecutive days come in ascending order. *)
Lemma days_from_ascending n d (i j : nat) a b :
  valid d → toordinal d + Z.of_nat n - 1 ≤ _MAXORDINAL →
  (i < j)%nat → days_from n d !! i = Some a → days_from n d !! j = Some b →
  date_lt a b.
Proof.
  intros Hv Hmax Hij Ha Hb.
  pose proof (lookup_lt_Some _ _ _ Hb) as Hj. rewrite length_days_from in Hj.
  rewrite days_from_lookup in Ha, Hb by (assumption || lia).
  destruct (toordinal_fromordinal_add i d Hv) as [Hvi Hoi]; [lia|].
  destruct (toordinal_fromordinal_add j d Hv) as [Hvj Hoj]; [lia|].
  revert Ha Hb Hvi Hoi Hvj Hoj.
  generalize (fromordinal (toordinal d + Z.of_nat i))
             (fromordinal (toordinal d + Z.of_nat j)).
  intros a' b' [= ->] [= ->] Hvi Hoi Hvj Hoj.
  apply date_lt_of_ordinals; [assumption..|lia].
Qed.

End DatetimeProps.
(** ** data_collection/file_search.py *)

Module FileSearchProps.
Import Python Datetime DatetimeProps FileSearch.

Lemma mapM_returns {A B} (f : A → result exception B) (g : A → B) (l : list A) :
  (∀ x, x ∈ l → f x = Return (g x)) → mapM f l = Return (map g l).
Proof.
  induction l as [|x l IH]; intros Hf; [reflexivity|].
  cbn [mapM map]. rewrite Hf by (now left).
  cbn [mbind result_bind]. rewrite IH; [reflexivity|].
  intros y Hy. apply Hf. now right.
Qed.

Lemma new_date_valid y m dd d : new_date y m dd = Return d → valid d.
Proof.
  unfold new_date. destruct (decide _) as [Hv|]; [|discriminate].
  now intros [= <-].
Qed.

Lemma strptime_valid s fmt d : strptime s fmt = Return d → valid d.
Proof.
  unfold strptime. destruct (match_format _ _ _) as [|[f rest] _]; [discriminate|].
  case_bool_decide; [|discriminate]. apply new_date_valid.
Qed.

Lemma _parse_date_returns date_str date_format d :
  _parse_date date_str date_format = Return d →
  valid d ∧ is_Some (dict_get _DATE_FORMAT_MAP date_format).
Proof.
  unfold _parse_date. destruct (dict_get _ _) as [fmt|]; [|discriminate].
  destruct (strptime _ fmt) as [d'|] eqn:E; [|discriminate].
  intros [= <-]. split; [now apply strptime_valid in E|eauto].
Qed.

(** The end of the range: today when no end date is given. *)
Definition parsed_end (today : date) (end_date end_date_format : option string)
    (start_date_format : string) : result exception date :=
  match end_date with
  | None => Return today
  | Some end_date =>
      _parse_date end_date (or_else end_date_format start_date_format)
  end.

Lemma parsed_end_valid today end_date end_date_format start_date_format d :
  valid today →
  parsed_end today end_date end_date_format start_date_format = Return d →
  valid d.
Proof.
  intros Ht. destruct end_date as [e|]; cbn.
  - intros H. now apply _parse_date_returns in H as [? _].
  - now intros [= <-].
Qed.

Lemma enumerate_date_range_unfold today start_date start_date_format
    end_date end_date_format start end_ :
  _parse_date start_date start_date_format = Return start →
  parsed_end today end_date end_date_format start_date_format = Return end_ →
  enumerate_date_range today start_date start_date_format end_date end_date_format
  = if decide (date_lt end_ start) then Return []
    else mapM (λ i, d ← add_days start i; _format_date d start_date_format)
              (seqZ 0 (days_between end_ start + 1)).
Proof.
  intros Hstart Hend. unfold enumerate_date_range. rewrite Hstart.
  cbn [mbind result_bind].
  change (match end_date with
          | Some e => _parse_date e (or_else end_date_format start_date_format)
          | None => Return today
          end) with (parsed_end today end_date end_date_format start_date_format).
  now rewrite Hend.
Qed.

Lemma add_days_returns start i :
  0 < toordinal start + i ≤ _MAXORDINAL →
  add_days start i = Return (fromordinal (toordinal start + i)).
Proof. intros Hi. unfold add_days. cbv zeta. now rewrite bool_decide_eq_true_2. Qed.

(** C8. For the dates 2025-01-01 and 2025-01-03 in the format YYYY-MM-DD
    [enumerate_date_range] returns the three days from the first to the
    second.  In general, with [start] the parsed start date and [end_] the
    parsed end date (today's date when none is given): if [end_] is before
    [start] the result is the empty list; otherwise it is one string per
    calendar day, the days being consecutive ([days_from]: each the day after
    the one before), the first [start], the last [end_], in ascending order,
    each string the day formatted in the start date's format. *)
Theorem enumerate_date_range_is_inclusive :
  (∀ today,
     enumerate_date_range today "2025-01-01" "YYYY-MM-DD"
                          (Some "2025-01-03"%string) None
     = Return ["2025-01-01"%string; "2025-01-02"%string; "2025-01-03"%string])
  ∧ (∀ today start_date start_date_format end_date end_date_format start end_,
       valid today →
       _parse_date start_date start_date_format = Return start →
       parsed_end today end_date end_date_format start_date_format = Return end_ →
       (date_lt end_ start →
          enumerate_date_range today start_date start_date_format
                               end_date end_date_format = Return [])
       ∧ (¬ date_lt end_ start →
            ∃ n out,
              enumerate_date_range today start_date start_date_format
                                   end_date end_date_format = Return out
              ∧ Z.of_nat n = days_between end_ start + 1
              ∧ Forall2 (λ d s, _format_date d start_date_format = Return s)
                        (days_from n start) out
              ∧ head (days_from n start) = Some start
              ∧ last (days_from n start) = Some end_
              ∧ ∀ (i j : nat) a b,
                  (i < j)%nat → days_from n start !! i = Some a →
                  days_from n start !! j = Some b → date_lt a b)).
Proof.
  split; [reflexivity|].
  intros today start_date start_date_format end_date end_date_format start end_
         Htoday Hstart Hend.
  rewrite (enumerate_date_range_unfold _ _ _ _ _ _ _ Hstart Hend).
  destruct (_parse_date_returns _ _ _ Hstart) as [Hvs [fmt Hfmt]].
  pose proof (parsed_end_valid _ _ _ _ _ Htoday Hend) as Hve.
  split; intros Horder.
  - now rewrite decide_True.
  - rewrite decide_False by exact Horder.
    pose proof (toordinal_le _ _ Hvs Hve Horder) as Hle.
    pose proof (toordinal_range _ Hvs) as Hrs.
    pose proof (toordinal_range _ Hve) as Hre.
    unfold days_between in *.
    set (n := Z.to_nat (toordinal end_ - toordinal start + 1)).
    assert (Z.of_nat n = toordinal end_ - toordinal start + 1) as Hn by lia.
    set (render := λ d : date,
           if bool_decide (start_date_format = "YYMMMDD"%string)
           then upper (strftime d fmt) else strftime d fmt).
    exists n, (map render (days_from n start)).
    assert (∀ d, _format_date d start_date_format = Return (render d)) as Hrender.
    { intros d. unfold _format_date. now rewrite Hfmt. }
    split; [|split; [exact Hn|split; [|split; [|split]]]].
    + rewrite days_from_ordinals by (assumption || lia).
      rewrite map_map, <- Hn. apply mapM_returns.
      intros i Hi. apply elem_of_seqZ in Hi.
      rewrite add_days_returns by lia. cbn [mbind result_bind]. apply Hrender.
    + apply Forall2_fmap_r, Forall_Forall2_diag, Forall_forall.
      intros d _. apply Hrender.
    + destruct n; [lia|reflexivity].
    + rewrite last_lookup, length_days_from.
      destruct n as [|n']; [lia|]. cbn [pred].
      rewrite days_from_lookup by (assumption || lia).
      replace (toordinal start + Z.of_nat n') with (toordinal end_) by lia.
      now rewrite fromordinal_toordinal.
    + intros i j a b. apply days_from_ascending; [assumption|lia].
Qed.

Lemma enumerate_date_range_is_inclusive_witness :
  (date_lt (mkDate 2024 3 1) (mkDate 2024 2 28) →
     enumerate_date_range (mkDate 2025 6 1) "2024-02-28" "YYYY-MM-DD"
                          (Some "20240301"%string) (Some "YYYYMMDD"%string)
     = Return [])
  ∧ (¬ date_lt (mkDate 2024 3 1) (mkDate 2024 2 28) →
       ∃ n out,
         enumerate_date_range (mkDate 2025 6 1) "2024-02-28" "YYYY-MM-DD"
                              (Some "20240301"%string) (Some "YYYYMMDD"%string)
         = Return out
         ∧ Z.of_nat n = days_between (mkDate 2024 3 1) (mkDate 2024 2 28) + 1
         ∧ Forall2 (λ d s, _format_date d "YYYY-MM-DD" = Return s)
                   (days_from n (mkDate 2024 2 28)) out
         ∧ head (days_from n (mkDate 2024 2 28)) = Some (mkDate 2024 2 28)
         ∧ last (days_from n (mkDate 2024 2 28)) = Some (mkDate 2024 3 1)
         ∧ ∀ (i j : nat) a b,
             (i < j)%nat → days_from n (mkDate 2024 2 28) !! i = Some a →
             days_from n (mkDate 2024 2 28) !! j = Some b → date_lt a b).
Proof.
  apply (proj2 enumerate_date_range_is_inclusive (mkDate 2025 6 1)
           "2024-02-28"%string "YYYY-MM-DD"%string (Some "20240301"%string)
           (Some "YYYYMMDD"%string) (mkDate 2024 2 28) (mkDate 2024 3 1)).
  - vm_compute. intuition discriminate.
  - reflexivity.
  - reflexivity.
Defined.

Example enumerate_date_range_over_leap_day :
  enumerate_date_range (mkDate 2025 6 1) "2024-02-28" "YYYY-MM-DD"
                       (Some "20240301"%string) (Some "YYYYMMDD"%string)
  = Return ["2024-02-28"%string; "2024-02-29"%string; "2024-03-01"%string].
Proof. reflexivity. Qed.

Example enumerate_date_range_month_names :
  enumerate_date_range (mkDate 2025 6 1) "25DEC30" "YYMMMDD"
                       (Some "26jan02"%string) (Some ""%string)
  = Return ["25DEC30"%string; "25DEC31"%string; "26JAN01"%string; "26JAN02"%string].
Proof. reflexivity. Qed.

Example enumerate_date_range_start_after_end :
  enumerate_date_range (mkDate 2025 6 1) "2025-01-05" "YYYY-MM-DD"
                       (Some "2025-01-03"%string) None
  = Return [].
Proof. reflexivity. Qed.

Example enumerate_date_range_until_today :
  enumerate_date_range (mkDate 2025 1 2) "20241231" "YYYYMMDD" None None
  = Return ["20241231"%string; "20250101"%string; "20250102"%string].
Proof. reflexivity. Qed.

(** *** The file-stem candidates *)

(** The suffixes the docstring promises: the single empty suffix when none
    are given or the iterable is empty. *)
Definition promised_suffixes (suffixes : option (iterable string)) : list string :=
  match suffixes with
  | None => [""%string]
  | Some it => match list_of it with
               | [] => [""%string]
               | _ :: _ => list_of it
               end
  end.

(** All combinations, prefixes varying slowest, then dates, then suffixes. *)
Definition combinations (prefixes dates suffixes : list string) : list string :=
  prefix ← prefixes; d ← dates; suffix ← suffixes; [prefix +:+ d +:+ suffix].

(** What the function does on every input: it agrees with the docstring
    unless [suffixes] is an iterator that yields nothing. *)
Lemma build_file_stem_candidates_cases prefixes dates suffixes :
  (list_of prefixes = [] →
     build_file_stem_candidates prefixes dates suffixes
     = Raise (ValueError "prefixes must contain at least one prefix"))
  ∧ (list_of prefixes ≠ [] → list_of dates = [] →
       build_file_stem_candidates prefixes dates suffixes = Return [])
  ∧ (list_of prefixes ≠ [] → list_of dates ≠ [] →
       build_file_stem_candidates prefixes dates suffixes
       = Return (combinations (list_of prefixes) (list_of dates)
                   (match suffixes with
                    | Some (Iterator []) => []
                    | _ => promised_suffixes suffixes
                    end))).
Proof.
  unfold build_file_stem_candidates, combinations. cbv zeta.
  destruct (list_of prefixes) as [|p ps], (list_of dates) as [|d ds];
    repeat split; try congruence; intros _ _.
  destruct suffixes as [[[|x xs]|[|x xs]]|]; reflexivity.
Qed.

Lemma length_bind_uniform {A B} (f : A → list B) (l : list A) (k : nat) :
  (∀ x, length (f x) = k) → length (l ≫= f) = (length l * k)%nat.
Proof.
  intros Hf. induction l as [|x l IH]; [reflexivity|].
  cbn [mbind list_bind] in *. rewrite length_app, IH, Hf. reflexivity.
Qed.

Lemma combinations_length prefixes dates suffixes :
  length (combinations prefixes dates suffixes)
  = (length prefixes * (length dates * length suffixes))%nat.
Proof.
  unfold combinations. apply length_bind_uniform. intros prefix.
  apply length_bind_uniform. intros d.
  rewrite (length_bind_uniform _ _ 1%nat) by reflexivity. lia.
Qed.

Example build_file_stem_candidates_order :
  build_file_stem_candidates (Container ["a_"%string; "b_"%string])
    (Iterator ["d1"%string; "d2"%string])
    (Some (Container ["_x"%string; "_y"%string]))
  = Return ["a_d1_x"%string; "a_d1_y"%string; "a_d2_x"%string; "a_d2_y"%string;
            "b_d1_x"%string; "b_d1_y"%string; "b_d2_x"%string; "b_d2_y"%string].
Proof. reflexivity. Qed.

Example build_file_stem_candidates_empty_list_of_suffixes :
  build_file_stem_candidates (Container ["nws_"%string])
    (Container ["2025-01-01"%string]) (Some (Container []))
  = Return ["nws_2025-01-01"%string].
Proof. reflexivity. Qed.

(** C10, where the code leaves it: handed an iterator that yields no suffix
    (a generator, [iter([])]), which Python counts as true, the function
    builds no candidate at all, where the docstring and the claim promise
    prefix + date with the empty suffix. *)
Theorem build_file_stem_candidates_empty_iterator :
  build_file_stem_candidates (Container ["nws_"%string])
    (Container ["2025-01-01"%string]) (Some (Iterator []))
  = Return []
  ∧ combinations ["nws_"%string] ["2025-01-01"%string]
      (promised_suffixes (Some (Iterator [])))
    = ["nws_2025-01-01"%string].
Proof. split; reflexivity. Qed.

End FileSearchProps.
(** ** data_collection/openmeteo.py *)

Module OpenmeteoProps.
Import Python Openmeteo.

Implicit Types (responses : list Response) (models : list string)
  (response : Response) (hourly_df : list (Z * Row)).

(** The rows the loop body builds from one response under one model name. *)
Definition hourly_rows (current_timestamp : Z) (city : string)
    (name : string) response : result exception (list (Z * Row)) :=
  forecast_date ← date_range (Hourly_Time response) (Hourly_TimeEnd response)
                             (Hourly_Interval response);
  hourly_dataframe ← new_frame forecast_date (Hourly_Values response);
  Return (add_multi_model_metadata hourly_dataframe city (Current_Time response)
                                   current_timestamp name (Model response)).

(** A response whose hourly series has one value per bucket. *)
Definition well_formed response : Prop :=
  ∃ dates, date_range (Hourly_Time response) (Hourly_TimeEnd response)
                      (Hourly_Interval response) = Return dates
           ∧ length dates = length (Hourly_Values response).

(** Responses and model names taken in step, one of each at a time. *)
Fixpoint in_step (current_timestamp : Z) (city : string) models responses
    hourly_df {struct responses} : result exception (list (Z * Row)) :=
  match responses with
  | [] => Return hourly_df
  | response :: responses' =>
      match models with
      | [] => Raise IndexError
      | name :: models' =>
          rows ← hourly_rows current_timestamp city name response;
          in_step current_timestamp city models' responses' (hourly_df ++ rows)
      end
  end.

Lemma parse_model_at ts responses models city (model : nat) response :
  responses !! model = Some response →
  parse_model ts responses models city model
  = match models !! model with
    | Some name => hourly_rows ts city name response
    | None => Raise IndexError
    end.
Proof.
  intros Hr. unfold parse_model, getitem. rewrite Hr. cbn [mbind result_bind].
  now destruct (models !! model).
Qed.

Lemma parse_loop_in_step ts responses models city (n : nat) : ∀ (k : nat) hourly_df,
  length responses = (k + n)%nat →
  parse_loop ts responses models city (seq k n) hourly_df
  = in_step ts city (drop k models) (drop k responses) hourly_df.
Proof.
  induction n as [|n IH]; intros k hourly_df Hlen.
  - rewrite (drop_ge responses) by lia. reflexivity.
  - destruct (lookup_lt_is_Some_2 responses k) as [response Hr]; [lia|].
    cbn [seq parse_loop]. rewrite (parse_model_at _ _ _ _ _ _ Hr).
    rewrite (drop_S responses response k Hr). cbn [in_step].
    destruct (models !! k) as [name|] eqn:Hm.
    + rewrite (drop_S models name k Hm).
      destruct (hourly_rows ts city name response) as [rows|e]; [|reflexivity].
      cbn [mbind result_bind]. apply IH. lia.
    + rewrite (drop_ge models) by now apply lookup_ge_None. reflexivity.
Qed.

Lemma parse_multi_model_response_in_step ts responses models city :
  parse_multi_model_response ts responses models city
  = hourly_df ← in_step ts city models responses []; Return (hourly_df, ts).
Proof.
  unfold parse_multi_model_response.
  now rewrite (parse_loop_in_step ts responses models city (length responses) 0).
Qed.

Lemma hourly_rows_well_formed ts city name response :
  well_formed response → ∃ rows, hourly_rows ts city name response = Return rows.
Proof.
  intros (dates & Hdates & Hlen). unfold hourly_rows. rewrite Hdates.
  cbn [mbind result_bind]. unfold new_frame. rewrite bool_decide_eq_true_2 by exact Hlen.
  cbn [mbind result_bind]. eauto.
Qed.

(** Every row built from a response carries the name it was built under and
    the identifier of that response. *)
Lemma hourly_rows_tagged ts city name response rows :
  hourly_rows ts city name response = Return rows →
  Forall (λ p, model_name p.2 = name ∧ model_id p.2 = Model response
               ∧ Openmeteo.city p.2 = city
               ∧ model_timestamp p.2 = Current_Time response) rows.
Proof.
  unfold hourly_rows.
  destruct (date_range _ _ _) as [dates|]; [|discriminate]. cbn [mbind result_bind].
  destruct (new_frame _ _) as [frame|]; [|discriminate]. cbn [mbind result_bind].
  intros [= <-]. unfold add_multi_model_metadata. apply Forall_forall.
  intros p (q & -> & _)%list_elem_of_fmap. cbn. auto.
Qed.

Lemma in_step_returns ts city : ∀ responses models hourly_df df,
  in_step ts city models responses hourly_df = Return df →
  (length responses ≤ length models)%nat
  ∧ ∃ frames,
      df = hourly_df ++ mjoin frames
      ∧ length frames = length responses
      ∧ ∀ (i : nat) response, responses !! i = Some response →
          ∃ name rows, models !! i = Some name ∧ frames !! i = Some rows
                       ∧ hourly_rows ts city name response = Return rows.
Proof.
  induction responses as [|response responses IH]; intros models hourly_df df.
  - intros [= <-]. split; [cbn; lia|]. exists []. cbn. rewrite app_nil_r.
    repeat split. intros i r Hi. now rewrite lookup_nil in Hi.
  - destruct models as [|name models]; [discriminate|]. cbn [in_step].
    destruct (hourly_rows ts city name response) as [rows|] eqn:Hrows; [|discriminate].
    cbn [mbind result_bind]. intros Hdf.
    destruct (IH _ _ _ Hdf) as (Hlen & frames & -> & Hframes & Hpair).
    split; [cbn; lia|]. exists (rows :: frames). cbn [mjoin list_join length].
    rewrite app_assoc. repeat split; [congruence|].
    intros [|i] r Hi.
    + injection Hi as <-. exists name, rows. auto.
    + apply Hpair, Hi.
Qed.

Lemma in_step_too_many ts city : ∀ models responses hourly_df,
  (length models < length responses)%nat →
  Forall well_formed (take (length models) responses) →
  in_step ts city models responses hourly_df = Raise IndexError.
Proof.
  induction models as [|name models IH]; intros responses hourly_df Hlen Hwf.
  - destruct responses; [cbn in Hlen; lia|reflexivity].
  - destruct responses as [|response responses]; [cbn in Hlen; lia|].
    cbn [length take] in *. apply Forall_cons in Hwf as [Hwf1 Hwf].
    destruct (hourly_rows_well_formed ts city name response Hwf1) as [rows Hrows].
    cbn [in_step]. rewrite Hrows. cbn [mbind result_bind]. apply IH; [lia|exact Hwf].
Qed.

Lemma in_step_enough ts city : ∀ responses models hourly_df,
  (length responses ≤ length models)%nat →
  Forall well_formed responses →
  ∃ df, in_step ts city models responses hourly_df = Return df.
Proof.
  induction responses as [|response responses IH]; intros models hourly_df Hlen Hwf.
  - cbn. eauto.
  - destruct models as [|name models]; [cbn in Hlen; lia|].
    apply Forall_cons in Hwf as [Hwf1 Hwf].
    destruct (hourly_rows_well_formed ts city name response Hwf1) as [rows Hrows].
    cbn [in_step]. rewrite Hrows. cbn [mbind result_bind].
    apply IH; [cbn in Hlen; lia|exact Hwf].
Qed.

(** Three hourly buckets from 2025-09-14 06:00 UTC. *)
Definition three_buckets (model : Z) (first : Q) : Response :=
  mkResponse model 1757829600 1757829600 1757840400 3600
             [Some (Q2Qc first); Some (Q2Qc (first + 1)); None].

Example date_range_half_open :
  date_range 1757829600 1757840400 3600
  = Return [1757829600; 1757833200; 1757836800].
Proof. reflexivity. Qed.

(** C6, as stated, fails: one response for two requested models is parsed
    without any error. *)
Lemma parse_multi_model_response_accepts_fewer_responses :
  length [three_buckets 11 70] ≠ length ["best_match"%string; "ecmwf_ifs04"%string]
  ∧ parse_multi_model_response 1757830000 [three_buckets 11 70]
      ["best_match"%string; "ecmwf_ifs04"%string] "Chicago"
    = Return
        ([(0, mkRow 1757829600 (Some (Q2Qc 70)) "Chicago" 1757829600 1757830000
                    "best_match" 11);
          (1, mkRow 1757833200 (Some (Q2Qc (70 + 1))) "Chicago" 1757829600
                    1757830000 "best_match" 11);
          (2, mkRow 1757836800 None "Chicago" 1757829600 1757830000
                    "best_match" 11)],
         1757830000).
Proof. split; [discriminate|reflexivity]. Qed.

(** C6, amended. When [parse_multi_model_response] returns, the frame is the
    concatenation of one block of rows per response, in the order of the
    responses, and the block of response [i] is built under the [i]-th
    requested model name: each of its rows carries that name and the model
    identifier of response [i].  A count mismatch is not checked for: with
    more responses than requested names the call fails with IndexError, and
    with fewer the responses are parsed and paired with the first names,
    without any error. *)
Theorem parse_multi_model_response_pairs_by_position
    current_timestamp responses models city :
  (∀ hourly_df ts,
     parse_multi_model_response current_timestamp responses models city
     = Return (hourly_df, ts) →
     ts = current_timestamp
     ∧ (length responses ≤ length models)%nat
     ∧ ∃ frames,
         hourly_df = mjoin frames
         ∧ length frames = length responses
         ∧ ∀ (i : nat) response, responses !! i = Some response →
             ∃ name rows,
               models !! i = Some name ∧ frames !! i = Some rows
               ∧ hourly_rows current_timestamp city name response = Return rows
               ∧ Forall (λ p, model_name p.2 = name
                              ∧ model_id p.2 = Model response) rows)
  ∧ ((length models < length responses)%nat →
     Forall well_formed (take (length models) responses) →
     parse_multi_model_response current_timestamp responses models city
     = Raise IndexError)
  ∧ ((length responses ≤ length models)%nat →
     Forall well_formed responses →
     ∃ hourly_df,
       parse_multi_model_response current_timestamp responses models city
       = Return (hourly_df, current_timestamp)).
Proof.
  rewrite parse_multi_model_response_in_step. split; [|split].
  - intros hourly_df ts.
    destruct (in_step _ _ _ _ _) as [df|] eqn:Hstep; [|discriminate].
    cbn [mbind result_bind]. intros [= <- <-]. split; [reflexivity|].
    destruct (in_step_returns _ _ _ _ _ _ Hstep) as (Hlen & frames & -> & Hframes & Hpair).
    split; [exact Hlen|]. exists frames. repeat split; [exact Hframes|].
    intros i response Hi. destruct (Hpair i response Hi) as (name & rows & Hm & Hf & Hrows).
    exists name, rows. repeat split; try assumption.
    eapply Forall_impl; [apply (hourly_rows_tagged _ _ _ _ _ Hrows)|].
    cbn. intros p (? & ? & _). now split.
  - intros Hlen Hwf. now rewrite in_step_too_many.
  - intros Hlen Hwf.
    destruct (in_step_enough current_timestamp city responses models [] Hlen Hwf)
      as [df ->].
    eauto.
Qed.

Lemma parse_multi_model_response_pairs_by_position_witness :
  ∃ hourly_df,
    parse_multi_model_response 1757830000 [three_buckets 11 70; three_buckets 12 72]
      ["best_match"%string; "ecmwf_ifs04"%string] "Chicago"
    = Return (hourly_df, 1757830000).
Proof.
  apply (proj2 (proj2 (parse_multi_model_response_pairs_by_position 1757830000
           [three_buckets 11 70; three_buckets 12 72]
           ["best_match"%string; "ecmwf_ifs04"%string] "Chicago"))).
  - cbn. lia.
  - repeat constructor; eexists; (split; [reflexivity|reflexivity]).
Defined.

Example parse_multi_model_response_too_many_responses :
  parse_multi_model_response 1757830000 [three_buckets 11 70; three_buckets 12 72]
    ["best_match"%string] "Chicago"
  = Raise IndexError.
Proof. reflexivity. Qed.

Example parse_multi_model_response_value_count :
  parse_multi_model_response 1757830000
    [mkResponse 11 1757829600 1757829600 1757840400 3600 [None; None]]
    ["best_match"%string] "Chicago"
  = Raise (ValueError "All arrays must be of the same length").
Proof. reflexivity. Qed.

End OpenmeteoProps.
(** ** data_collection/accuweather.py: staging all cities *)

Module AccuweatherStageProps.
Import Python Accuweather.

Example _slugify_new_york : _slugify " New York " = "new_york"%string.
Proof. reflexivity. Qed.

Example _slugify_punctuation : _slugify "St. Louis (MO)" = "st_louis_mo"%string.
Proof. reflexivity. Qed.

Section orchestrator.
Context {Row Meta Exn : Type}.
Variable CITY_REFERENCE : list (string * Meta).
Variable str : Exn → string.
Variable get_hourly_forecast_12h_by_city :
  AccuWeatherClient → string → Options → result Exn (list Row).
Variable annotate : string → Meta → Z → Options → list Row → result Exn (list Row).
Variable tag : string → Meta → Options → list Row → result Exn (list Row).
Variable tidy : list Row → list Row.

Implicit Types (st : Loop (Row := Row)) (item : string * Meta)
  (registry : list (string * Meta)).

(** The frame of a city that is processed without an exception. *)
Definition succeeds (process : string * Meta → result Exn (list Row)) item
  : option (list Row) :=
  match process item with
  | Return df => Some df
  | Raise _ => None
  end.

(** A loop body that appends the frame of a city that succeeds and records
    the reason of one that fails. *)
Definition accounts (process : string * Meta → result Exn (list Row))
    (body : Loop → string * Meta → Loop) : Prop :=
  ∀ st item,
    match process item with
    | Return df =>
        frames (body st item) = frames st ++ [df]
        ∧ failures (body st item) = failures st
    | Raise exc =>
        frames (body st item) = frames st
        ∧ failures (body st item) = <[item.1 := str exc]> (failures st)
    end.

Lemma loop_frames process body registry : ∀ st,
  accounts process body →
  frames (foldl body st registry) = frames st ++ omap (succeeds process) registry.
Proof.
  induction registry as [|item registry IH]; intros st Hbody.
  - cbn. now rewrite app_nil_r.
  - simpl. rewrite IH by exact Hbody. specialize (Hbody st item).
    unfold succeeds at 2. destruct (process item) as [df|exc].
    + destruct Hbody as [-> _]. now rewrite <- app_assoc.
    + now destruct Hbody as [-> _].
Qed.

Lemma loop_failures_sound process body registry : ∀ st city reason,
  accounts process body →
  failures (foldl body st registry) !! city = Some reason →
  failures st !! city = Some reason
  ∨ ∃ meta exc, (city, meta) ∈ registry ∧ process (city, meta) = Raise exc
                ∧ str exc = reason.
Proof.
  induction registry as [|[c m] registry IH]; intros st city reason Hbody; [now left|].
  cbn [foldl]. intros Hlookup.
  destruct (IH _ _ _ Hbody Hlookup) as [Hst|(meta & exc & Hin & Hexc & Hstr)].
  - specialize (Hbody st (c, m)). destruct (process (c, m)) as [df|exc] eqn:Hp.
    + destruct Hbody as [_ Hf]. rewrite Hf in Hst. now left.
    + destruct Hbody as [_ Hf]. rewrite Hf in Hst. cbn [fst] in Hst.
      destruct (decide (c = city)) as [->|Hne].
      * rewrite lookup_insert_eq in Hst. injection Hst as <-.
        right. exists m, exc. split; [now left|now split].
      * rewrite lookup_insert_ne in Hst by exact Hne. now left.
  - right. exists meta, exc. split; [now right|now split].
Qed.

Lemma loop_failures_complete process body registry : ∀ st city,
  accounts process body →
  (is_Some (failures st !! city)
   ∨ ∃ meta exc, (city, meta) ∈ registry ∧ process (city, meta) = Raise exc) →
  is_Some (failures (foldl body st registry) !! city).
Proof.
  induction registry as [|[c m] registry IH]; intros st city Hbody.
  - intros [H|(meta & exc & Hin & _)]; [exact H|]. now apply elem_of_nil in Hin.
  - cbn [foldl]. intros Hcity. apply IH; [exact Hbody|].
    pose proof (Hbody st (c, m)) as Hstep.
    destruct Hcity as [Hst|(meta & exc & Hin & Hexc)].
    + left. destruct (process (c, m)); destruct Hstep as [_ ->]; [exact Hst|].
      cbn [fst]. rewrite lookup_insert. case_decide; [eauto|exact Hst].
    + apply elem_of_cons in Hin as [[= -> ->]|Hin].
      * left. rewrite Hexc in Hstep. destruct Hstep as [_ ->]. cbn [fst].
        rewrite lookup_insert_eq. eauto.
      * right. eauto.
Qed.

(** No frame is collected exactly when every city fails. *)
Lemma none_succeeds process registry :
  omap (succeeds process) registry = []
  ↔ Forall (λ item, ∃ exc, process item = Raise exc) registry.
Proof.
  induction registry as [|item registry IH]; [split; [constructor|reflexivity]|].
  simpl. unfold succeeds at 1. destruct (process item) as [df|exc] eqn:Hp.
  - split; [discriminate|]. intros [[exc Hexc] _]%Forall_cons. congruence.
  - rewrite IH. split; [intros H; constructor; eauto|now intros [_ H]%Forall_cons].
Qed.

(** The try block of [stage_accuweather_12h_all_cities] up to the write, and
    that of [get_hourly_forecast_12h_all_cities]. *)
Definition staged (client : AccuWeatherClient) (timestamp : Z) (options : Options)
    item : result Exn (list Row) :=
  df ← get_hourly_forecast_12h_by_city client item.1 options;
  annotate item.1 item.2 timestamp options df.

Definition fetched (self : AccuWeatherClient) (options : Options) item
  : result Exn (list Row) :=
  df ← get_hourly_forecast_12h_by_city self item.1 options;
  tag item.1 item.2 options df.

(** The file a city is staged in. *)
Definition staging_path (out_path ts_str city : string) : string :=
  out_path +:+ "/" +:+ ("accuweather_12h_" +:+ _slugify city +:+ "_" +:+ ts_str
                        +:+ ".parquet").

Lemma stage_city_accounts client out_path ts_str timestamp options :
  accounts (staged client timestamp options)
    (stage_city str get_hourly_forecast_12h_by_city annotate
                client out_path ts_str timestamp options).
Proof.
  intros st [city meta]. unfold stage_city, staged. cbn [fst snd].
  destruct (_ ≫= _); split; reflexivity.
Qed.

Lemma fetch_city_accounts self options :
  accounts (fetched self options)
    (fetch_city str get_hourly_forecast_12h_by_city tag self options).
Proof.
  intros st [city meta]. unfold fetch_city, fetched. cbn [fst snd].
  destruct (_ ≫= _); split; reflexivity.
Qed.

Lemma stage_city_keeps_files client out_path ts_str timestamp options st item p :
  is_Some (files (world st) !! p) →
  is_Some (files (world (stage_city str get_hourly_forecast_12h_by_city annotate
                           client out_path ts_str timestamp options st item)) !! p).
Proof.
  intros Hp. destruct item as [city meta]. unfold stage_city.
  destruct (_ ≫= _); destruct (verbose options); cbn [world files print to_parquet];
    try exact Hp; rewrite lookup_insert; case_decide; eauto.
Qed.

Lemma stage_loop_files client out_path ts_str timestamp options registry :
  ∀ st city meta df,
    (is_Some (files (world st) !! staging_path out_path ts_str city)
     ∨ ((city, meta) ∈ registry
        ∧ staged client timestamp options (city, meta) = Return df)) →
    is_Some (files (world (foldl (stage_city str get_hourly_forecast_12h_by_city
                                    annotate client out_path ts_str timestamp options)
                                 st registry))
             !! staging_path out_path ts_str city).
Proof.
  induction registry as [|[c m] registry IH]; intros st city meta df.
  - intros [H|[Hin _]]; [exact H|]. now apply elem_of_nil in Hin.
  - cbn [foldl]. intros [Hst|[Hin Hdf]].
    + apply (IH _ city meta df). left. now apply stage_city_keeps_files.
    + apply elem_of_cons in Hin as [[= <- <-]|Hin].
      * apply (IH _ city meta df). left. unfold stage_city.
        unfold staged in Hdf. cbn [fst snd] in Hdf. rewrite Hdf.
        destruct (verbose options); cbn [world files print to_parquet];
          fold (staging_path out_path ts_str city); rewrite lookup_insert_eq; eauto.
      * apply (IH _ city meta df). right. now split.
Qed.

Lemma stage_loop_quiet client out_path ts_str timestamp options registry :
  verbose options = false →
  ∀ st,
    stdout (world (foldl (stage_city str get_hourly_forecast_12h_by_city
                            annotate client out_path ts_str timestamp options)
                         st registry))
    = stdout (world st).
Proof.
  intros Hquiet. induction registry as [|[c m] registry IH]; intros st; [reflexivity|].
  cbn [foldl]. rewrite IH. unfold stage_city. rewrite Hquiet.
  now destruct (_ ≫= _).
Qed.

(** C5, amended. In a run of [stage_accuweather_12h_all_cities] whose client
    could be built, every city of the registry is processed, whatever happened
    to the cities before it.  There is a record [failures] that holds, under
    its name and with the text of its exception, every city whose processing
    raised, and no other.  If at least one city succeeded the run returns the
    rows of the successful cities, in registry order, each such city has its
    file on disk, and, when [verbose] is set (the default), the last line
    printed is the note that lists [failures]; with [verbose] unset nothing is
    printed.  The run raises if and only if every city failed, and the error
    then carries [failures] (for an empty registry it is "No cities
    found."). *)
Theorem stage_isolates_failures environment_key client out_path ts_str timestamp
    options w :
  new_client environment_key = Return client →
  ∃ failures,
    (∀ city reason, failures !! city = Some reason →
       ∃ meta exc, (city, meta) ∈ CITY_REFERENCE
                   ∧ staged client timestamp options (city, meta) = Raise exc
                   ∧ str exc = reason)
    ∧ (∀ city meta exc, (city, meta) ∈ CITY_REFERENCE →
         staged client timestamp options (city, meta) = Raise exc →
         is_Some (failures !! city))
    ∧ (omap (succeeds (staged client timestamp options)) CITY_REFERENCE ≠ [] →
         (stage_accuweather_12h_all_cities CITY_REFERENCE str
            get_hourly_forecast_12h_by_city annotate
            environment_key out_path ts_str timestamp options w).1
         = Return (mjoin (omap (succeeds (staged client timestamp options))
                               CITY_REFERENCE))
         ∧ (∀ city meta df, (city, meta) ∈ CITY_REFERENCE →
              staged client timestamp options (city, meta) = Return df →
              is_Some (files (stage_accuweather_12h_all_cities CITY_REFERENCE str
                                get_hourly_forecast_12h_by_city annotate
                                environment_key out_path ts_str timestamp options w).2
                       !! staging_path out_path ts_str city))
         ∧ (verbose options = true → failures ≠ ∅ →
              last (stdout (stage_accuweather_12h_all_cities CITY_REFERENCE str
                              get_hourly_forecast_12h_by_city annotate
                              environment_key out_path ts_str timestamp options w).2)
              = Some (Note (size failures) failures))
         ∧ (verbose options = false →
              stdout (stage_accuweather_12h_all_cities CITY_REFERENCE str
                        get_hourly_forecast_12h_by_city annotate
                        environment_key out_path ts_str timestamp options w).2
              = stdout w))
    ∧ ((∃ e, (stage_accuweather_12h_all_cities CITY_REFERENCE str
                get_hourly_forecast_12h_by_city annotate
                environment_key out_path ts_str timestamp options w).1 = Raise e)
       ↔ Forall (λ item, ∃ exc, staged client timestamp options item = Raise exc)
                CITY_REFERENCE)
    ∧ (∀ e, (stage_accuweather_12h_all_cities CITY_REFERENCE str
               get_hourly_forecast_12h_by_city annotate
               environment_key out_path ts_str timestamp options w).1 = Raise e →
            e = match CITY_REFERENCE with
                | [] => NoCitiesFound
                | _ :: _ => AllCityFetchesFailed failures
                end).
Proof.
  intros Hclient. unfold stage_accuweather_12h_all_cities. rewrite Hclient.
  pose proof (stage_city_accounts client out_path ts_str timestamp options) as Hacc.
  set (body := stage_city str get_hourly_forecast_12h_by_city annotate
                          client out_path ts_str timestamp options) in *.
  set (st := foldl body (mkLoop [] ∅ w) CITY_REFERENCE).
  pose proof (loop_frames _ body CITY_REFERENCE (mkLoop [] ∅ w) Hacc) as Hframes.
  fold st in Hframes. cbn [frames app] in Hframes.
  assert (∀ city meta exc, (city, meta) ∈ CITY_REFERENCE →
            staged client timestamp options (city, meta) = Raise exc →
            is_Some (failures st !! city)) as Hcomplete.
  { intros city meta exc Hin Hexc.
    apply (loop_failures_complete _ body CITY_REFERENCE _ city Hacc). eauto. }
  exists (failures st). split; [|split; [exact Hcomplete|split; [|split]]].
  - intros city reason Hlookup.
    destruct (loop_failures_sound _ body CITY_REFERENCE _ _ _ Hacc Hlookup)
      as [Hempty|H]; [|exact H].
    cbn [failures] in Hempty. now rewrite lookup_empty in Hempty.
  - intros Hsome. rewrite Hframes.
    destruct (omap _ CITY_REFERENCE) as [|df dfs] eqn:Hok; [congruence|].
    cbn [fst snd]. split; [reflexivity|]. split; [|split].
    + intros city meta df' Hin Hdf.
      assert (is_Some (files (world st) !! staging_path out_path ts_str city)) as Hfile.
      { apply (stage_loop_files client out_path ts_str timestamp options
                 CITY_REFERENCE _ city meta df'). right. now split. }
      now destruct (_ && _).
    + intros -> Hne. cbn [andb]. rewrite bool_decide_eq_false_2 by exact Hne.
      cbn [negb print stdout]. apply last_snoc.
    + intros Hquiet. rewrite Hquiet. cbn [andb].
      apply (stage_loop_quiet client out_path ts_str timestamp options
               CITY_REFERENCE Hquiet).
  - rewrite Hframes, <- none_succeeds.
    destruct (omap _ CITY_REFERENCE) as [|df dfs]; cbn [fst].
    + split; [reflexivity|eauto].
    + split; [intros [e [=]]|discriminate].
  - intros e. rewrite Hframes.
    destruct (omap _ CITY_REFERENCE) as [|df dfs] eqn:Hok; cbn [fst]; [|discriminate].
    intros [= <-]. destruct CITY_REFERENCE as [|[city meta] registry] eqn:Hreg.
    + reflexivity.
    + apply none_succeeds, Forall_cons in Hok as [[exc Hexc] _].
      destruct (Hcomplete city meta exc) as [reason Hreason]; [now left|exact Hexc|].
      rewrite bool_decide_eq_false_2; [reflexivity|].
      intros Hempty. rewrite Hempty, lookup_empty in Hreason. discriminate.
Qed.

(** X19. The client's own [get_hourly_forecast_12h_all_cities] isolates the
    failure of a city as the staging function does: the record [failures]
    holds, under its name and with the text of its exception, every city
    whose fetch or tagging raised, and no other; if at least one city
    succeeded the method returns the rows of the successful cities, in
    registry order and tidied, and prints the note that lists [failures]
    whenever a city failed ([verbose] is not consulted); it raises, with
    [failures], exactly when every city failed. *)
Lemma get_hourly_forecast_12h_all_cities_isolates_failures self options w :
  ∃ failures,
    (∀ city reason, failures !! city = Some reason →
       ∃ meta exc, (city, meta) ∈ CITY_REFERENCE
                   ∧ fetched self options (city, meta) = Raise exc
                   ∧ str exc = reason)
    ∧ (∀ city meta exc, (city, meta) ∈ CITY_REFERENCE →
         fetched self options (city, meta) = Raise exc →
         is_Some (failures !! city))
    ∧ (omap (succeeds (fetched self options)) CITY_REFERENCE ≠ [] →
         (get_hourly_forecast_12h_all_cities CITY_REFERENCE str
            get_hourly_forecast_12h_by_city tag tidy self options w).1
         = Return (tidy (mjoin (omap (succeeds (fetched self options))
                                     CITY_REFERENCE)))
         ∧ (failures ≠ ∅ →
              last (stdout (get_hourly_forecast_12h_all_cities CITY_REFERENCE str
                              get_hourly_forecast_12h_by_city tag tidy self options w).2)
              = Some (Note (size failures) failures)))
    ∧ ((get_hourly_forecast_12h_all_cities CITY_REFERENCE str
          get_hourly_forecast_12h_by_city tag tidy self options w).1
       = Raise (AllCityFetchesFailed failures)
       ↔ Forall (λ item, ∃ exc, fetched self options item = Raise exc)
                CITY_REFERENCE).
Proof.
  unfold get_hourly_forecast_12h_all_cities.
  pose proof (fetch_city_accounts self options) as Hacc.
  set (body := fetch_city str get_hourly_forecast_12h_by_city tag self options) in *.
  set (st := foldl body (mkLoop [] ∅ w) CITY_REFERENCE).
  pose proof (loop_frames _ body CITY_REFERENCE (mkLoop [] ∅ w) Hacc) as Hframes.
  fold st in Hframes. cbn [frames app] in Hframes.
  exists (failures st). split; [|split; [|split]].
  - intros city reason Hlookup.
    destruct (loop_failures_sound _ body CITY_REFERENCE _ _ _ Hacc Hlookup)
      as [Hempty|H]; [|exact H].
    cbn [failures] in Hempty. now rewrite lookup_empty in Hempty.
  - intros city meta exc Hin Hexc.
    apply (loop_failures_complete _ body CITY_REFERENCE _ city Hacc). eauto.
  - intros Hsome. rewrite Hframes.
    destruct (omap _ CITY_REFERENCE) as [|df dfs] eqn:Hok; [congruence|].
    cbn [fst snd]. split; [reflexivity|].
    intros Hne. rewrite bool_decide_eq_false_2 by exact Hne.
    cbn [negb print stdout]. apply last_snoc.
  - rewrite Hframes, <- none_succeeds.
    destruct (omap _ CITY_REFERENCE) as [|df dfs]; cbn [fst].
    + split; reflexivity.
    + split; discriminate.
Qed.

End orchestrator.

(** A registry of two cities; the fetch for Denver fails. *)
Definition two_cities : list (string * unit) :=
  [("Chicago"%string, tt); ("Denver"%string, tt)].

Definition denver_fails (client : AccuWeatherClient) (city : string)
    (options : Options) : result string (list string) :=
  if bool_decide (city = "Denver"%string)
  then Raise "Network error calling https://dataservice.accuweather.com"%string
  else Return [city +:+ " hour 1"; city +:+ " hour 2"].

Definition as_fetched (city : string) (meta : unit) (timestamp : Z)
    (options : Options) (df : list string) : result string (list string) :=
  Return df.

Definition defaults (verbose : bool) : Options :=
  mkOptions false true "en-us" false true "accuweather_12h" "1001" verbose.

(** C5, as stated, fails: with [verbose] unset the run succeeds and returns
    the rows of Chicago, and nothing it returns or prints names Denver, which
    failed. *)
Lemma stage_quiet_run_names_no_failure :
  stage_accuweather_12h_all_cities two_cities (λ exc, exc) denver_fails as_fetched
    (Some "key"%string) "data/staging/accuweather_forecasts" "20251103_222640"
    1762208800 (defaults false) (mkDisk ∅ [])
  = (Return ["Chicago hour 1"%string; "Chicago hour 2"%string],
     mkDisk
       {[ "data/staging/accuweather_forecasts/accuweather_12h_chicago_20251103_222640.parquet"%string
          := ["Chicago hour 1"%string; "Chicago hour 2"%string] ]}
       [])
  ∧ staged denver_fails as_fetched {| api_key := "key" |} 1762208800
           (defaults false) ("Denver"%string, tt)
    = Raise "Network error calling https://dataservice.accuweather.com"%string.
Proof. split; reflexivity. Qed.

Lemma stage_isolates_failures_witness :
  ∃ failures : gmap string string,
    is_Some (failures !! "Denver"%string)
    ∧ (stage_accuweather_12h_all_cities two_cities (λ exc, exc) denver_fails
         as_fetched (Some "key"%string) "data/staging/accuweather_forecasts"
         "20251103_222640" 1762208800 (defaults true) (mkDisk ∅ [])).1
      = Return ["Chicago hour 1"%string; "Chicago hour 2"%string]
    ∧ last (stdout
              (stage_accuweather_12h_all_cities two_cities (λ exc, exc) denver_fails
                 as_fetched (Some "key"%string) "data/staging/accuweather_forecasts"
                 "20251103_222640" 1762208800 (defaults true) (mkDisk ∅ [])).2)
      = Some (Note (size failures) failures).
Proof.
  destruct (stage_isolates_failures two_cities (λ exc, exc) denver_fails as_fetched
              (Some "key"%string) {| api_key := "key" |}
              "data/staging/accuweather_forecasts" "20251103_222640" 1762208800
              (defaults true) (mkDisk ∅ []) eq_refl)
    as (failures & _ & Hcomplete & Hsuccess & _).
  exists failures.
  assert (is_Some (failures !! "Denver"%string)) as Hdenver.
  { apply (Hcomplete "Denver"%string tt
             "Network error calling https://dataservice.accuweather.com"%string).
    - right. left.
    - reflexivity. }
  destruct Hsuccess as (Hrows & _ & Hnote & _); [discriminate|].
  split; [exact Hdenver|]. split; [exact Hrows|].
  apply Hnote; [reflexivity|].
  intros ->. destruct Hdenver as [reason Hreason].
  rewrite lookup_empty in Hreason. clear -Hreason. discriminate.
Defined.

Example stage_verbose_run :
  stage_accuweather_12h_all_cities two_cities (λ exc, exc) denver_fails as_fetched
    (Some "key"%string) "data/staging/accuweather_forecasts" "20251103_222640"
    1762208800 (defaults true) (mkDisk ∅ [])
  = (Return ["Chicago hour 1"%string; "Chicago hour 2"%string],
     mkDisk
       {[ "data/staging/accuweather_forecasts/accuweather_12h_chicago_20251103_222640.parquet"%string
          := ["Chicago hour 1"%string; "Chicago hour 2"%string] ]}
       [Saved "Chicago"
              "data/staging/accuweather_forecasts/accuweather_12h_chicago_20251103_222640.parquet";
        FAILED "Denver" "Network error calling https://dataservice.accuweather.com";
        Note 1 {[ "Denver"%string
                  := "Network error calling https://dataservice.accuweather.com"%string ]}]).
Proof. reflexivity. Qed.

Example stage_every_city_fails :
  stage_accuweather_12h_all_cities [("Denver"%string, tt)] (λ exc, exc)
    denver_fails as_fetched (Some "key"%string) "out" "20251103_222640" 0
    (defaults false) (mkDisk ∅ [])
  = (Raise (AllCityFetchesFailed
              {[ "Denver"%string
                 := "Network error calling https://dataservice.accuweather.com"%string ]}),
     mkDisk ∅ []).
Proof. reflexivity. Qed.

Example stage_missing_key :
  stage_accuweather_12h_all_cities two_cities (λ exc, exc) denver_fails as_fetched
    None "out" "20251103_222640" 0 (defaults true) (mkDisk ∅ [])
  = (Raise (ClientError MissingApiKey), mkDisk ∅ []).
Proof. reflexivity. Qed.

End AccuweatherStageProps.
(** ** scripts/init_local_data.py *)

Module InitLocalDataProps.
Import Python InitLocalData.

(** [SCHEMAS] has no entry "dim_location": [init] stops at the first lookup,
    the directories made and no table written. *)
Lemma init_raises_KeyError fs :
  init fs = (Raise (KeyError "dim_location"), _ensure_dirs fs)
  ∧ tables (init fs).2 = tables fs.
Proof. split; reflexivity. Qed.

(** [pq.write_table] replaces what a file holds. *)
Lemma write_table_replaces t1 t2 file fs :
  write_table t2 file (write_table t1 file fs) = write_table t2 file fs.
Proof. unfold write_table. cbn. now rewrite insert_insert_eq. Qed.

End InitLocalDataProps.

(** ** feature_engineering/forecasts.py: the two filters together *)

Module ForecastsPipelineProps.
Import Python Store StoreProps Forecasts ForecastsProps.

Implicit Types (d : DataFrame) (df : nat) (r : Forecast) (h : gmap nat DataFrame).

(** The rows the exclusion filter keeps. *)
Definition used (r : Forecast) : Prop :=
  is_Some (forecast_temperature r)
  ∧ city r ≠ "Houston"%string ∧ model_name r ≠ "best_match"%string.

#[global] Instance used_dec r : Decision (used r).
Proof. unfold used. apply _. Defined.

Lemma map_snd_filter (P : Forecast → Prop) `{!∀ r, Decision (P r)} d :
  map snd (filter (λ p, P p.2) d) = filter P (map snd d).
Proof.
  induction d as [|p d IH]; [reflexivity|].
  rewrite filter_cons. cbn [map]. rewrite filter_cons.
  destruct (decide (P p.2)); cbn [map]; now rewrite IH.
Qed.

Lemma length_reset_index d : length (reset_index d) = length d.
Proof. unfold reset_index. apply length_imap. Qed.

Lemma reset_index_ext d d' :
  map snd d = map snd d' → reset_index d = reset_index d'.
Proof.
  intros Heq. apply list_eq. intros i. unfold reset_index.
  rewrite !list_lookup_imap.
  assert (snd <$> d !! i = snd <$> d' !! i) as Hi.
  { rewrite <- !list_lookup_fmap. change (snd <$> ?l) with (map snd l).
    now rewrite Heq. }
  destruct (d !! i) as [p|], (d' !! i) as [q|]; cbn in *; congruence.
Qed.

Lemma reset_index_idemp d : reset_index (reset_index d) = reset_index d.
Proof. apply reset_index_ext, reset_index_rows. Qed.

Lemma filter_all {A} (P : A → Prop) `{!∀ x, Decision (P x)} (l : list A) :
  Forall P l → filter P l = l.
Proof.
  induction 1 as [|x l Hx _ IH]; [reflexivity|].
  rewrite filter_cons, decide_True by exact Hx. now rewrite IH.
Qed.

Lemma Forall_rows (P : Forecast → Prop) d :
  Forall (λ p, P p.2) d ↔ Forall P (map snd d).
Proof. change (map snd d) with (snd <$> d). now rewrite Forall_fmap. Qed.

Lemma dedup_NoDup_id seen d :
  NoDup (map (λ p, subset p.2) d) →
  (∀ p, p ∈ d → subset p.2 ∉ seen) →
  dedup seen d = d.
Proof.
  revert seen. induction d as [|q d IH]; intros seen Hnd Hseen; [reflexivity|].
  rewrite dedup_cons. cbn [map] in Hnd. apply NoDup_cons in Hnd as [Hq Hnd].
  rewrite decide_False by (apply Hseen; now left).
  f_equal. apply IH; [exact Hnd|].
  intros p Hp [E|Hs]%elem_of_cons.
  - apply Hq. apply list_elem_of_fmap. exists p. now split.
  - apply (Hseen p); [now right|exact Hs].
Qed.

Lemma dedup_first (P : Z * Forecast → Prop) `{!∀ p, Decision (P p)} seen d i p :
  d !! i = Some p → P p → subset p.2 ∉ seen →
  (∀ j q, (j < i)%nat → d !! j = Some q → P q → subset q.2 ≠ subset p.2) →
  p ∈ dedup seen (filter P d).
Proof.
  revert seen i. induction d as [|q d IH]; intros seen i Hi Hp Hseen Hfirst;
    [discriminate|].
  rewrite filter_cons. destruct i as [|i].
  - injection Hi as ->. rewrite decide_True by exact Hp.
    rewrite dedup_cons, decide_False by exact Hseen. now left.
  - cbn in Hi.
    assert (∀ j q', (j < i)%nat → d !! j = Some q' → P q' →
                    subset q'.2 ≠ subset p.2) as Hrest.
    { intros j q' Hj Hq'. apply (Hfirst (S j)); [lia|exact Hq']. }
    destruct (decide (P q)) as [Hq|Hq]; [|now apply (IH seen i)].
    assert (subset q.2 ≠ subset p.2) as Hne
      by (apply (Hfirst 0%nat); [lia|reflexivity|exact Hq]).
    rewrite dedup_cons. destruct (decide _).
    + now apply (IH seen i).
    + right. apply (IH _ i); [exact Hi|exact Hp| |exact Hrest].
      intros [E|Hs]%elem_of_cons; [now apply Hne|now apply Hseen].
Qed.


Lemma dedup_rows_ext seen d d' :
  map snd d = map snd d' → map snd (dedup seen d) = map snd (dedup seen d').
Proof.
  revert seen d'. induction d as [|p d IH]; intros seen [|q d'] Heq;
    try discriminate; [reflexivity|].
  cbn [map] in Heq. injection Heq as Hpq Heq.
  rewrite !dedup_cons, <- Hpq.
  destruct (decide _); cbn [map]; rewrite ?Hpq; erewrite IH; eauto.
Qed.

(** A filter on the columns of the subset commutes with the duplicate
    collapse. *)
Lemma dedup_filter (P : Z * Forecast → Prop) `{!∀ p, Decision (P p)} d :
  (∀ p q, subset p.2 = subset q.2 → P p → P q) →
  ∀ seen seen',
    (∀ p, p ∈ d → P p → subset p.2 ∈ seen ↔ subset p.2 ∈ seen') →
    dedup seen (filter P d) = filter P (dedup seen' d).
Proof.
  intros Hkey. induction d as [|p d IH]; intros seen seen' Hseen; [reflexivity|].
  rewrite filter_cons, (dedup_cons seen'). destruct (decide (P p)) as [Hp|Hp].
  - rewrite dedup_cons.
    destruct (decide (subset p.2 ∈ seen)) as [Hin|Hout].
    + rewrite decide_True by (apply Hseen; [now left|exact Hp|exact Hin]).
      apply IH. intros q Hq. apply Hseen. now right.
    + rewrite decide_False.
      2:{ intros Hin. apply Hout. apply Hseen; [now left|exact Hp|exact Hin]. }
      rewrite filter_cons, decide_True by exact Hp. f_equal.
      apply IH. intros q Hq HPq. rewrite !elem_of_cons.
      rewrite (Hseen q) by (try right; assumption). reflexivity.
  - destruct (decide (subset p.2 ∈ seen')) as [Hin|Hout].
    + apply IH. intros q Hq. apply Hseen. now right.
    + rewrite filter_cons, decide_False by exact Hp.
      apply IH. intros q Hq HPq. rewrite elem_of_cons.
      rewrite (Hseen q) by (try right; assumption).
      split; [now right|]. intros [E|Hin]; [|exact Hin].
      exfalso. apply Hp. now apply (Hkey q p).
Qed.

Lemma used_subset (p q : Z * Forecast) :
  subset p.2 = subset q.2 → used p.2 → used q.2.
Proof. unfold subset, used. intros [= _ -> -> _ -> _ _]. tauto. Qed.

Definition pipeline_rows : DataFrame :=
  [(0, chicago_run 7200 3600 (143 # 2));
   (1, mkForecast (Some 7200) (Some (Q2Qc (143 # 2))) "Houston" (Some 3600)
                  "gfs_global" 7 "2025-09-14" (Some 3600));
   (2, mkForecast (Some 7200) (Some (Q2Qc (143 # 2))) "Chicago" (Some 3600)
                  "best_match" 0 "2025-09-14" (Some 3600));
   (3, mkForecast (Some 7200) None "Chicago" (Some 3600)
                  "gfs_global" 7 "2025-09-14" (Some 3600));
   (4, chicago_run 7200 3600 (143 # 2));
   (5, chicago_run 1800 3600 (70 # 1))].

Definition pipeline_store : gmap nat DataFrame := {[0%nat := pipeline_rows]}.

(** X1. [filter_unused_forecast_data] returns, in a new frame, exactly the
    rows of its input that have a forecast temperature, are not for Houston
    and do not come from the model best_match, in the order of the input and
    relabelled 0, 1, 2, ...; every other row is dropped. *)
Theorem filter_unused_forecast_data_keeps_used h df d :
  h !! df = Some d →
  ∃ out h' res,
    filter_unused_forecast_data df h = Some (Return out, h')
    ∧ h' !! out = Some res
    ∧ map snd res = filter used (map snd d)
    ∧ map fst res = map Z.of_nat (seq 0 (length res)).
Proof.
  intros Hd.
  destruct (filter_unused_forecast_data_run h df d Hd) as (out & h' & Hrun & Hout & _).
  do 3 eexists. split; [exact Hrun|]. split; [exact Hout|]. split.
  - rewrite reset_index_rows, <- (map_snd_filter used).
    reflexivity.
  - now rewrite reset_index_labels, length_reset_index.
Qed.

Lemma filter_unused_forecast_data_keeps_used_witness :
  ∃ out h' res,
    filter_unused_forecast_data 0 pipeline_store = Some (Return out, h')
    ∧ h' !! out = Some res
    ∧ map snd res = filter used (map snd pipeline_rows)
    ∧ map fst res = map Z.of_nat (seq 0 (length res)).
Proof.
  apply (filter_unused_forecast_data_keeps_used pipeline_store 0%nat pipeline_rows).
  reflexivity.
Defined.

Lemma redundant_rows_fixed d :
  let res := reset_index (drop_duplicates (filter (λ p, causal p.2) d)) in
  reset_index (drop_duplicates (filter (λ p, causal p.2) res)) = res.
Proof.
  intros res.
  assert (Forall (λ p, causal p.2) res) as Hc.
  { apply Forall_forall. intros p (q & Hq & Heq)%elem_of_reset_index.
    apply in_drop_duplicates, list_elem_of_filter in Hq as [Hq _].
    now rewrite <- Heq. }
  rewrite (filter_all _ _ Hc). unfold drop_duplicates. fold (dedup [] res).
  rewrite dedup_NoDup_id.
  - apply reset_index_idemp.
  - unfold res. rewrite subset_rows. apply dedup_NoDup.
  - intros p _. apply not_elem_of_nil.
Qed.

(** X2. [filter_redundant_forecasts] is idempotent: applied to the frame it
    has returned, it returns a new frame with the same rows under the same
    labels. *)
Theorem filter_redundant_forecasts_idempotent h df d :
  h !! df = Some d →
  ∃ out h' res out2 h'',
    filter_redundant_forecasts df h = Some (Return out, h')
    ∧ h' !! out = Some res
    ∧ filter_redundant_forecasts out h' = Some (Return out2, h'')
    ∧ h'' !! out2 = Some res
    ∧ out2 ≠ out.
Proof.
  intros Hd.
  destruct (filter_redundant_forecasts_run h df d Hd) as (out & h' & Hrun & Hout & _).
  destruct (filter_redundant_forecasts_run h' out _ Hout)
    as (out2 & h'' & Hrun2 & Hout2 & Hfresh).
  exists out, h', (reset_index (drop_duplicates (filter (λ p, causal p.2) d))),
    out2, h''.
  split; [exact Hrun|]. split; [exact Hout|]. split; [exact Hrun2|]. split.
  - rewrite Hout2. f_equal. apply redundant_rows_fixed.
  - intros ->. congruence.
Qed.

Lemma filter_redundant_forecasts_idempotent_witness :
  ∃ out h' res out2 h'',
    filter_redundant_forecasts 0 pipeline_store = Some (Return out, h')
    ∧ h' !! out = Some res
    ∧ filter_redundant_forecasts out h' = Some (Return out2, h'')
    ∧ h'' !! out2 = Some res
    ∧ out2 ≠ out.
Proof.
  apply (filter_redundant_forecasts_idempotent pipeline_store 0%nat pipeline_rows).
  reflexivity.
Defined.

Lemma filters_commute_rows d :
  reset_index
    (filter (λ p, used p.2)
       (reset_index (drop_duplicates (filter (λ p, causal p.2) d))))
  = reset_index
      (drop_duplicates
         (filter (λ p, causal p.2) (reset_index (filter (λ p, used p.2) d)))).
Proof.
  apply reset_index_ext.
  rewrite (map_snd_filter used), reset_index_rows, <- (map_snd_filter used).
  unfold drop_duplicates. fold (dedup [] (filter (λ p, causal p.2) d)).
  match goal with |- _ = map snd (getitem_mask ?l _) => fold (dedup [] l) end.
  rewrite (dedup_rows_ext [] _
             (filter (λ p, causal p.2) (filter (λ p, used p.2) d))).
  2:{ now rewrite !(map_snd_filter causal), reset_index_rows. }
  f_equal.
  rewrite <- (dedup_filter (λ p, used p.2) _ used_subset [] []) by tauto.
  f_equal. rewrite !list_filter_filter. apply list_filter_iff. tauto.
Qed.

(** X3. The two filters commute: collapsing the redundant forecasts and then
    dropping the unused ones gives the same frame (rows and labels) as
    dropping first and collapsing afterwards. *)
Theorem forecast_filters_commute h df d :
  h !! df = Some d →
  ∃ res,
    (∃ a ha b hb,
       filter_redundant_forecasts df h = Some (Return a, ha)
       ∧ filter_unused_forecast_data a ha = Some (Return b, hb)
       ∧ hb !! b = Some res)
    ∧ (∃ a ha b hb,
         filter_unused_forecast_data df h = Some (Return a, ha)
         ∧ filter_redundant_forecasts a ha = Some (Return b, hb)
         ∧ hb !! b = Some res).
Proof.
  intros Hd.
  destruct (filter_redundant_forecasts_run h df d Hd) as (a & ha & Ha & Hra & _).
  destruct (filter_unused_forecast_data_run ha a _ Hra) as (b & hb & Hb & Hrb & _).
  destruct (filter_unused_forecast_data_run h df d Hd) as (a' & ha' & Ha' & Hra' & _).
  destruct (filter_redundant_forecasts_run ha' a' _ Hra') as (b' & hb' & Hb' & Hrb' & _).
  eexists. split.
  - exists a, ha, b, hb. split; [exact Ha|]. split; [exact Hb|exact Hrb].
  - exists a', ha', b', hb'. split; [exact Ha'|]. split; [exact Hb'|].
    rewrite Hrb'. f_equal. symmetry. apply (filters_commute_rows d).
Qed.

Lemma forecast_filters_commute_witness :
  ∃ res,
    (∃ a ha b hb,
       filter_redundant_forecasts 0 pipeline_store = Some (Return a, ha)
       ∧ filter_unused_forecast_data a ha = Some (Return b, hb)
       ∧ hb !! b = Some res)
    ∧ (∃ a ha b hb,
         filter_unused_forecast_data 0 pipeline_store = Some (Return a, ha)
         ∧ filter_redundant_forecasts a ha = Some (Return b, hb)
         ∧ hb !! b = Some res).
Proof.
  apply (forecast_filters_commute pipeline_store 0%nat pipeline_rows).
  reflexivity.
Defined.

(** X4. The frame [filter_redundant_forecasts] returns keeps the order of
    the input (its rows are a subsequence of the input's rows), is labelled
    0, 1, 2, ..., and of the causal rows that agree on the seven columns of
    the subset it holds the one that comes first in the input. *)
Theorem filter_redundant_forecasts_keeps_first_in_order h df d :
  h !! df = Some d →
  ∃ out h' res,
    filter_redundant_forecasts df h = Some (Return out, h')
    ∧ h' !! out = Some res
    ∧ sublist (map snd res) (map snd d)
    ∧ map fst res = map Z.of_nat (seq 0 (length res))
    ∧ ∀ i p, d !! i = Some p → causal p.2 →
        (∀ j q, (j < i)%nat → d !! j = Some q → causal q.2 →
                subset q.2 ≠ subset p.2) →
        p.2 ∈ map snd res.
Proof.
  intros Hd.
  destruct (filter_redundant_forecasts_run h df d Hd) as (out & h' & Hrun & Hout & _).
  do 3 eexists. split; [exact Hrun|]. split; [exact Hout|].
  rewrite reset_index_rows, reset_index_labels, length_reset_index.
  split; [|split; [reflexivity|]].
  - change (map snd ?l) with (snd <$> l). apply fmap_sublist.
    etransitivity; [apply (dedup_sublist [])|apply sublist_filter].
  - intros i p Hi Hc Hfirst.
    apply (list_elem_of_fmap_2 snd). unfold drop_duplicates.
    fold (dedup [] (filter (λ p, causal p.2) d)).
    apply (dedup_first (λ p, causal p.2) [] d i p Hi Hc); [apply not_elem_of_nil|].
    exact Hfirst.
Qed.

Lemma filter_redundant_forecasts_keeps_first_in_order_witness :
  ∃ out h' res,
    filter_redundant_forecasts 0 pipeline_store = Some (Return out, h')
    ∧ h' !! out = Some res
    ∧ sublist (map snd res) (map snd pipeline_rows)
    ∧ map fst res = map Z.of_nat (seq 0 (length res))
    ∧ ∀ i p, pipeline_rows !! i = Some p → causal p.2 →
        (∀ j q, (j < i)%nat → pipeline_rows !! j = Some q → causal q.2 →
                subset q.2 ≠ subset p.2) →
        p.2 ∈ map snd res.
Proof.
  apply (filter_redundant_forecasts_keeps_first_in_order
           pipeline_store 0%nat pipeline_rows).
  reflexivity.
Defined.

End ForecastsPipelineProps.

(** ** feature_engineering/forecasts.py: the forecast fields *)

Module ForecastFieldsProps.
Import Python Store StoreProps ForecastFields.

(** The calendar day, as a day number, on the wall clock of a zone. *)
Definition local_day (zone : tzinfo) (t : Z) : Z := wall zone t / day.

Section fields.
Context {float : Type}.
Variable total_seconds : Z → float.
Variable truediv : float → Z → float.
Variable sub_other : column float → column float → result exception (column float).
Variable sub_timedelta_other : column float → Z → result exception (column float).

Implicit Types (d : DataFrame float) (df : nat) (h : gmap nat (DataFrame float))
  (zone : tzinfo) (dts mts : list (option Z)).

#[local] Abbreviation add_fields :=
  (add_forecast_fields float total_seconds truediv sub_other sub_timedelta_other).

(** The four columns the function writes for two columns of one zone. *)
Definition horizon_column dts mts : list (option Z) := zip_with sub_cell dts mts.

Definition hours_column dts mts : list (option float) :=
  map (fmap (λ x, truediv x 3600)) (map (fmap total_seconds) (horizon_column dts mts)).

Definition day_column zone (td : Z) dts mts : list bool :=
  zip_with eq_cell (map (fmap (λ t, wall zone t / day)) mts)
           (map (fmap (λ t, wall zone t / day)) (map (fmap (λ x, x - td)) dts)).

Definition with_forecast_fields d zone dts mts : DataFrame float :=
  mkDataFrame (index d)
    (<["is_model_timestamp_same_day"%string := Bool (day_column zone (Timedelta 0) dts mts)]>
       (<["is_model_timestamp_prior_day"%string
            := Bool (day_column zone (Timedelta 1) dts mts)]>
          (<["forecast_horizon_hours"%string := Float64 (hours_column dts mts)]>
             (<["forecast_horizon"%string := Timedelta64 (horizon_column dts mts)]>
                (columns d))))).

Lemma fields_getitem_run h df d col (s : column float) :
  h !! df = Some d → columns d !! col = Some s →
  getitem float df col h = Some (Return s, h).
Proof.
  intros Hd Hs. unfold getitem, bind. now rewrite (load_run _ _ _ Hd), Hs.
Qed.

Lemma fields_getitem_raises h df d col :
  h !! df = Some d → columns d !! col = None →
  getitem float df col h = Some (Raise (BuiltIn (KeyError col)), h).
Proof.
  intros Hd Hs. unfold getitem, bind. now rewrite (load_run _ _ _ Hd), Hs.
Qed.

Lemma fields_setitem_run h df d col (s : column float) :
  h !! df = Some d →
  setitem float df col s h
  = Some (Return tt, <[df := mkDataFrame (index d) (<[col := s]> (columns d))]> h).
Proof.
  intros Hd. unfold setitem, bind. rewrite (load_run _ _ _ Hd).
  unfold assign. now rewrite Hd.
Qed.

Lemma add_forecast_fields_run h df d zone dts mts :
  h !! df = Some d →
  columns d !! "datetime"%string = Some (Datetime64 (Some zone) dts) →
  columns d !! "model_timestamp"%string = Some (Datetime64 (Some zone) mts) →
  add_fields df h = Some (Return df, <[df := with_forecast_fields d zone dts mts]> h).
Proof.
  intros Hd Hdt Hmt. unfold add_forecast_fields.
  unfold bind at 1. rewrite (fields_getitem_run _ _ _ _ _ Hd Hdt).
  unfold bind at 1. rewrite (fields_getitem_run _ _ _ _ _ Hd Hmt).
  unfold bind at 1, sub. rewrite bool_decide_eq_true_2 by reflexivity.
  unfold lift, ret at 1.
  unfold bind at 1. rewrite (fields_setitem_run _ _ _ _ _ Hd).
  fold (horizon_column dts mts). set (d1 := mkDataFrame _ _).
  assert (<[df := d1]> h !! df = Some d1) as H1 by apply lookup_insert_eq.
  unfold bind at 1.
  rewrite (fields_getitem_run _ _ d1 "forecast_horizon"
             (Timedelta64 (horizon_column dts mts)) H1) by apply lookup_insert_eq.
  unfold bind at 1, dt_total_seconds, ret at 1.
  unfold bind at 1. rewrite (fields_setitem_run _ _ _ _ _ H1), insert_insert_eq.
  fold (hours_column dts mts). set (d2 := mkDataFrame _ _).
  assert (<[df := d2]> h !! df = Some d2) as H2 by apply lookup_insert_eq.
  assert (columns d2 !! "datetime"%string = Some (Datetime64 (Some zone) dts)) as Hdt2.
  { unfold d2, d1. cbn [columns]. now rewrite !lookup_insert_ne by discriminate. }
  assert (columns d2 !! "model_timestamp"%string = Some (Datetime64 (Some zone) mts))
    as Hmt2.
  { unfold d2, d1. cbn [columns]. now rewrite !lookup_insert_ne by discriminate. }
  unfold bind at 1. rewrite (fields_getitem_run _ _ _ _ _ H2 Hmt2).
  unfold bind at 1, dt_date at 1, ret at 1.
  unfold bind at 1. rewrite (fields_getitem_run _ _ _ _ _ H2 Hdt2).
  unfold bind at 1, sub_timedelta at 1, ret at 1.
  unfold bind at 1, dt_date at 1, ret at 1.
  unfold bind at 1. rewrite (fields_setitem_run _ _ _ _ _ H2), insert_insert_eq.
  unfold series_eq at 1. fold (day_column zone (Timedelta 1) dts mts).
  set (d3 := mkDataFrame _ _).
  assert (<[df := d3]> h !! df = Some d3) as H3 by apply lookup_insert_eq.
  assert (columns d3 !! "datetime"%string = Some (Datetime64 (Some zone) dts)) as Hdt3.
  { unfold d3. cbn [columns]. now rewrite lookup_insert_ne by discriminate. }
  assert (columns d3 !! "model_timestamp"%string = Some (Datetime64 (Some zone) mts))
    as Hmt3.
  { unfold d3. cbn [columns]. now rewrite lookup_insert_ne by discriminate. }
  unfold bind at 1. rewrite (fields_getitem_run _ _ _ _ _ H3 Hmt3).
  unfold bind at 1, dt_date at 1, ret at 1.
  unfold bind at 1. rewrite (fields_getitem_run _ _ _ _ _ H3 Hdt3).
  unfold bind at 1, sub_timedelta at 1, ret at 1.
  unfold bind at 1, dt_date at 1, ret at 1.
  unfold bind at 1. rewrite (fields_setitem_run _ _ _ _ _ H3), insert_insert_eq.
  reflexivity.
Qed.

Lemma Timedelta_1 : Timedelta 1 = day.
Proof. unfold Timedelta. lia. Qed.

Lemma Timedelta_0 : Timedelta 0 = 0.
Proof. reflexivity. Qed.

Lemma day_column_lookup zone (td : Z) dts mts (i : nat) t m :
  dts !! i = Some t → mts !! i = Some m →
  day_column zone td dts mts !! i
  = Some (eq_cell (local_day zone <$> m) (local_day zone <$> ((λ x, x - td) <$> t))).
Proof.
  intros Ht Hm. unfold day_column. change (map ?g ?l) with (g <$> l).
  rewrite lookup_zip_with, !list_lookup_fmap, Ht, Hm.
  now destruct t, m.
Qed.

(** What the four columns hold in one row. *)
Lemma forecast_fields_of_row zone dts mts (i : nat) t m :
  dts !! i = Some t → mts !! i = Some m →
  horizon_column dts mts !! i = Some (sub_cell t m)
  ∧ hours_column dts mts !! i
    = Some ((λ x, truediv (total_seconds x) 3600) <$> sub_cell t m)
  ∧ day_column zone (Timedelta 1) dts mts !! i
    = Some (eq_cell (local_day zone <$> m) (local_day zone <$> ((λ x, x - day) <$> t)))
  ∧ day_column zone (Timedelta 0) dts mts !! i
    = Some (eq_cell (local_day zone <$> m) (local_day zone <$> t)).
Proof.
  intros Ht Hm. split; [|split; [|split]].
  - unfold horizon_column. now rewrite lookup_zip_with, Ht, Hm.
  - unfold hours_column, horizon_column. change (map ?g ?l) with (g <$> l).
    rewrite !list_lookup_fmap, lookup_zip_with, Ht, Hm.
    cbn [fmap option_fmap option_map mbind option_bind].
    now destruct (sub_cell t m).
  - rewrite Timedelta_1. now apply day_column_lookup.
  - rewrite Timedelta_0, (day_column_lookup _ _ _ _ _ _ _ Ht Hm).
    destruct t as [t|]; [|reflexivity].
    cbn [fmap option_fmap option_map]. now rewrite Z.sub_0_r.
Qed.

(** X5. [add_forecast_fields] changes the frame it is given and returns that
    same frame.  Without a column datetime or model_timestamp it raises
    KeyError, and for a zone-aware column and a naive one TypeError, the
    frame untouched in each case.  For two columns of one zone the frame
    itself gets (or has overwritten) the four columns forecast_horizon,
    forecast_horizon_hours, is_model_timestamp_prior_day and
    is_model_timestamp_same_day, every other column and the index staying.  In
    a row with the valid time [t] and the issue time [m] the horizon is the
    duration [t - m] between the two instants and the hours are its seconds
    divided by 3600, both missing when [t] or [m] is; the same-day flag says
    that [m] falls on the calendar day of [t], on the wall clock of the zone,
    and the prior-day flag that it falls on the calendar day of the instant
    24 hours before [t]; both flags are False when [t] or [m] is missing. *)
Theorem add_forecast_fields_writes_the_fields h df d :
  h !! df = Some d →
  (columns d !! "datetime"%string = None →
     add_fields df h = Some (Raise (BuiltIn (KeyError "datetime")), h))
  ∧ (∀ a, columns d !! "datetime"%string = Some a →
       columns d !! "model_timestamp"%string = None →
       add_fields df h = Some (Raise (BuiltIn (KeyError "model_timestamp")), h))
  ∧ (∀ zone dts mts,
       (columns d !! "datetime"%string = Some (Datetime64 (Some zone) dts)
        ∧ columns d !! "model_timestamp"%string = Some (Datetime64 None mts))
       ∨ (columns d !! "datetime"%string = Some (Datetime64 None dts)
          ∧ columns d !! "model_timestamp"%string = Some (Datetime64 (Some zone) mts)) →
       add_fields df h = Some (Raise (BuiltIn TypeError), h))
  ∧ (∀ zone dts mts,
       columns d !! "datetime"%string = Some (Datetime64 (Some zone) dts) →
       columns d !! "model_timestamp"%string = Some (Datetime64 (Some zone) mts) →
       ∃ d' horizon hours prior same,
         add_fields df h = Some (Return df, <[df := d']> h)
         ∧ index d' = index d
         ∧ (∀ other,
              other ∉ ["forecast_horizon"; "forecast_horizon_hours";
                       "is_model_timestamp_prior_day";
                       "is_model_timestamp_same_day"]%string →
              columns d' !! other = columns d !! other)
         ∧ columns d' !! "forecast_horizon"%string = Some (Timedelta64 horizon)
         ∧ columns d' !! "forecast_horizon_hours"%string = Some (Float64 hours)
         ∧ columns d' !! "is_model_timestamp_prior_day"%string = Some (Bool prior)
         ∧ columns d' !! "is_model_timestamp_same_day"%string = Some (Bool same)
         ∧ ∀ (i : nat) t m,
             dts !! i = Some t → mts !! i = Some m →
             horizon !! i = Some (sub_cell t m)
             ∧ hours !! i
               = Some ((λ x, truediv (total_seconds x) 3600) <$> sub_cell t m)
             ∧ prior !! i
               = Some (eq_cell (local_day zone <$> m)
                               (local_day zone <$> ((λ x, x - day) <$> t)))
             ∧ same !! i = Some (eq_cell (local_day zone <$> m) (local_day zone <$> t))).
Proof.
  intros Hd. split; [|split; [|split]].
  - intros Hnone. unfold add_forecast_fields. unfold bind at 1.
    now rewrite (fields_getitem_raises _ _ _ _ Hd Hnone).
  - intros a Ha Hnone. unfold add_forecast_fields.
    unfold bind at 1. rewrite (fields_getitem_run _ _ _ _ _ Hd Ha).
    unfold bind at 1. now rewrite (fields_getitem_raises _ _ _ _ Hd Hnone).
  - intros zone dts mts [[Ha Hb]|[Ha Hb]]; unfold add_forecast_fields;
      (unfold bind at 1; rewrite (fields_getitem_run _ _ _ _ _ Hd Ha));
      (unfold bind at 1; rewrite (fields_getitem_run _ _ _ _ _ Hd Hb));
      reflexivity.
  - intros zone dts mts Hdt Hmt.
    exists (with_forecast_fields d zone dts mts), (horizon_column dts mts),
      (hours_column dts mts), (day_column zone (Timedelta 1) dts mts),
      (day_column zone (Timedelta 0) dts mts).
    split; [now apply add_forecast_fields_run|]. split; [reflexivity|].
    unfold with_forecast_fields. cbn [columns].
    split; [|split; [|split; [|split; [|split]]]].
    + intros other Hother. rewrite !not_elem_of_cons in Hother.
      destruct Hother as (H1 & H2 & H3 & H4 & _).
      now rewrite !lookup_insert_ne by congruence.
    + now rewrite !lookup_insert_ne, lookup_insert_eq by discriminate.
    + now rewrite !lookup_insert_ne, lookup_insert_eq by discriminate.
    + now rewrite !lookup_insert_ne, lookup_insert_eq by discriminate.
    + apply lookup_insert_eq.
    + intros i t m. apply forecast_fields_of_row.
Qed.

(** The two flags of row [i] of the frame the function returns: the
    prior-day flag and the same-day flag. *)
Definition flags_after h df (i : nat) : option (bool * bool) :=
  match add_fields df h with
  | Some (Return out, h') =>
      d' ← h' !! out;
      prior ← columns d' !! "is_model_timestamp_prior_day"%string;
      same ← columns d' !! "is_model_timestamp_same_day"%string;
      match prior, same with
      | Bool ps, Bool ss => p ← ps !! i; s ← ss !! i; Some (p, s)
      | _, _ => None
      end
  | _ => None
  end.

Lemma flags_after_row h df d zone dts mts (i : nat) t m :
  h !! df = Some d →
  columns d !! "datetime"%string = Some (Datetime64 (Some zone) dts) →
  columns d !! "model_timestamp"%string = Some (Datetime64 (Some zone) mts) →
  dts !! i = Some (Some t) → mts !! i = Some (Some m) →
  flags_after h df i
  = Some (bool_decide (local_day zone m = local_day zone (t - day)),
          bool_decide (local_day zone m = local_day zone t)).
Proof.
  intros Hd Hdt Hmt Ht Hm. unfold flags_after.
  rewrite (add_forecast_fields_run _ _ _ _ _ _ Hd Hdt Hmt), lookup_insert_eq.
  cbn [mbind option_bind].
  assert (columns (with_forecast_fields d zone dts mts)
            !! "is_model_timestamp_prior_day"%string
          = Some (Bool (day_column zone (Timedelta 1) dts mts))) as ->.
  { unfold with_forecast_fields. cbn [columns].
    now rewrite lookup_insert_ne, lookup_insert_eq by discriminate. }
  assert (columns (with_forecast_fields d zone dts mts)
            !! "is_model_timestamp_same_day"%string
          = Some (Bool (day_column zone (Timedelta 0) dts mts))) as ->.
  { unfold with_forecast_fields. cbn [columns]. apply lookup_insert_eq. }
  cbn [mbind option_bind].
  destruct (forecast_fields_of_row zone dts mts i _ _ Ht Hm) as (_ & _ & -> & ->).
  reflexivity.
Qed.

(** The change of the offset of [zone] over the 24 hours before the instant
    [t], in seconds: positive when the clocks were set back in between. *)
Definition set_back (zone : tzinfo) (t : Z) : Z :=
  utcoffset zone ((t - day) / second) - utcoffset zone (t / second).

Lemma local_day_a_day_before zone t :
  local_day zone (t - day) = (wall zone t + second * set_back zone t) / day - 1.
Proof.
  unfold local_day, wall, set_back.
  replace (t - day + second * utcoffset zone ((t - day) / second))
    with (t + second * utcoffset zone (t / second)
          + second * (utcoffset zone ((t - day) / second) - utcoffset zone (t / second))
          + (-1) * day) by lia.
  rewrite Z.div_add by (unfold day, second; lia). lia.
Qed.

(** X6. Where the zone of the two columns has the same offset 24 hours
    before a valid time as at it, the flags [add_forecast_fields] writes mean
    what their names say: the prior-day flag of a row is True exactly when
    the model was issued on the calendar day before the day of the valid
    time, and the same-day flag exactly when it was issued on that day, on
    the wall clock of the zone; so the two are never True together. *)
Theorem add_forecast_fields_flags_under_one_offset h df d zone dts mts (i : nat) t m :
  h !! df = Some d →
  columns d !! "datetime"%string = Some (Datetime64 (Some zone) dts) →
  columns d !! "model_timestamp"%string = Some (Datetime64 (Some zone) mts) →
  dts !! i = Some (Some t) → mts !! i = Some (Some m) →
  utcoffset zone ((t - day) / second) = utcoffset zone (t / second) →
  ∃ prior same,
    flags_after h df i = Some (prior, same)
    ∧ (prior = true ↔ local_day zone m + 1 = local_day zone t)
    ∧ (same = true ↔ local_day zone m = local_day zone t)
    ∧ ¬ (prior = true ∧ same = true).
Proof.
  intros Hd Hdt Hmt Ht Hm Hoff.
  rewrite (flags_after_row _ _ _ _ _ _ _ _ _ Hd Hdt Hmt Ht Hm).
  eexists _, _. split; [reflexivity|].
  rewrite !bool_decide_eq_true, local_day_a_day_before.
  unfold set_back. rewrite Hoff, Z.sub_diag, Z.mul_0_r, Z.add_0_r.
  fold (local_day zone t). lia.
Qed.

(** X7. Where the clocks of the zone of the two columns were set back in the
    24 hours before a valid time (its offset fell by [back] seconds), and the
    valid time lies in the last [back] seconds of its calendar day, the
    instant 24 hours earlier is on that same calendar day: the prior-day flag
    [add_forecast_fields] writes equals the same-day flag, and a model issued
    on the day of the valid time is marked as issued the day before as
    well. *)
Theorem add_forecast_fields_flags_after_clocks_set_back
    h df d zone dts mts (i : nat) t m back :
  h !! df = Some d →
  columns d !! "datetime"%string = Some (Datetime64 (Some zone) dts) →
  columns d !! "model_timestamp"%string = Some (Datetime64 (Some zone) mts) →
  dts !! i = Some (Some t) → mts !! i = Some (Some m) →
  0 < back ≤ 86400 →
  utcoffset zone ((t - day) / second) = utcoffset zone (t / second) + back →
  day - second * back ≤ wall zone t `mod` day →
  ∃ flag,
    flags_after h df i = Some (flag, flag)
    ∧ (flag = true ↔ local_day zone m = local_day zone t).
Proof.
  intros Hd Hdt Hmt Ht Hm Hback Hoff Hlate.
  rewrite (flags_after_row _ _ _ _ _ _ _ _ _ Hd Hdt Hmt Ht Hm).
  exists (bool_decide (local_day zone m = local_day zone t)).
  split; [|apply bool_decide_eq_true].
  do 2 f_equal. apply bool_decide_ext.
  rewrite local_day_a_day_before. unfold set_back. rewrite Hoff.
  replace (utcoffset zone (t / second) + back - utcoffset zone (t / second))
    with back by lia.
  unfold local_day. revert Hlate. generalize (wall zone t). intros w Hlate.
  unfold day, second in *. Z.div_mod_to_equations. lia.
Qed.

(** X8. Where the clocks of the zone of the two columns were set forward in
    the 24 hours before a valid time (its offset rose by [forward] seconds),
    and the valid time lies in the first [forward] seconds of its calendar
    day, the instant 24 hours earlier is two calendar days back: the
    prior-day flag [add_forecast_fields] writes is True exactly for a model
    issued two days before the day of the valid time, and False for one
    issued the day before. *)
Theorem add_forecast_fields_flags_after_clocks_set_forward
    h df d zone dts mts (i : nat) t m forward :
  h !! df = Some d →
  columns d !! "datetime"%string = Some (Datetime64 (Some zone) dts) →
  columns d !! "model_timestamp"%string = Some (Datetime64 (Some zone) mts) →
  dts !! i = Some (Some t) → mts !! i = Some (Some m) →
  0 < forward ≤ 86400 →
  utcoffset zone ((t - day) / second) = utcoffset zone (t / second) - forward →
  wall zone t `mod` day < second * forward →
  ∃ prior same,
    flags_after h df i = Some (prior, same)
    ∧ (prior = true ↔ local_day zone m + 2 = local_day zone t)
    ∧ (local_day zone m + 1 = local_day zone t → prior = false ∧ same = false).
Proof.
  intros Hd Hdt Hmt Ht Hm Hforward Hoff Hearly.
  rewrite (flags_after_row _ _ _ _ _ _ _ _ _ Hd Hdt Hmt Ht Hm).
  eexists _, _. split; [reflexivity|].
  rewrite !bool_decide_eq_false, bool_decide_eq_true, local_day_a_day_before.
  unfold set_back. rewrite Hoff.
  replace (utcoffset zone (t / second) - forward - utcoffset zone (t / second))
    with (- forward) by lia.
  unfold local_day. revert Hearly. generalize (wall zone t).
  generalize (wall zone m / day). intros dm w Hearly.
  unfold day, second in *. Z.div_mod_to_equations. lia.
Qed.

End fields.

(** US Central time in 2025, in seconds: six hours behind UTC until
    2025-03-09 08:00 UTC, five hours until 2025-11-02 07:00 UTC, six hours
    after. *)
Definition us_central : tzinfo :=
  {| tzname := "US/Central";
     utcoffset := λ i, if bool_decide (i < 1741507200) then -21600
                       else if bool_decide (i < 1762066800) then -18000
                       else -21600 |}.

(** Exact rationals in the place of floats, and pandas refusing what the
    function does not meet on timestamps. *)
Definition exact_seconds (x : Z) : Qc := Q2Qc (x # 1000000000).

Definition exact_div (x : Qc) (n : Z) : Qc := (x / Q2Qc (inject_Z n))%Qc.

Definition refuse (a b : column Qc) : result exception (column Qc) :=
  Raise TypeError.

Definition refuse_timedelta (a : column Qc) (td : Z) : result exception (column Qc) :=
  Raise TypeError.

(** Three forecasts, each with the run that issued it:
    valid 2025-11-02 23:30 CST, issued 2025-11-02 08:00 CST, on the day the
    clocks were set back;
    valid 2025-03-10 00:30 CDT, issued 2025-03-09 12:00 CDT, on the day they
    were set forward;
    valid 2025-09-14 12:00 CDT, issued 2025-09-13 08:00 CDT. *)
Definition clock_changes : DataFrame Qc :=
  mkDataFrame [0; 1; 2]
    {[ "datetime"%string :=
         Datetime64 (Some us_central)
           [Some 1762147800000000000; Some 1741584600000000000;
            Some 1757869200000000000];
       "model_timestamp"%string :=
         Datetime64 (Some us_central)
           [Some 1762092000000000000; Some 1741539600000000000;
            Some 1757768400000000000] ]}.

Definition clock_changes_store : gmap nat (DataFrame Qc) := {[0%nat := clock_changes]}.

Lemma add_forecast_fields_writes_the_fields_witness :
  ∃ d' horizon hours prior same,
    add_forecast_fields Qc exact_seconds exact_div refuse refuse_timedelta
      0 clock_changes_store
    = Some (Return 0%nat, <[0%nat := d']> clock_changes_store)
    ∧ index d' = index clock_changes
    ∧ (∀ other,
         other ∉ ["forecast_horizon"; "forecast_horizon_hours";
                  "is_model_timestamp_prior_day";
                  "is_model_timestamp_same_day"]%string →
         columns d' !! other = columns clock_changes !! other)
    ∧ columns d' !! "forecast_horizon"%string = Some (Timedelta64 horizon)
    ∧ columns d' !! "forecast_horizon_hours"%string = Some (Float64 hours)
    ∧ columns d' !! "is_model_timestamp_prior_day"%string = Some (Bool prior)
    ∧ columns d' !! "is_model_timestamp_same_day"%string = Some (Bool same)
    ∧ ∀ (i : nat) t m,
        [Some 1762147800000000000; Some 1741584600000000000;
         Some 1757869200000000000] !! i = Some t →
        [Some 1762092000000000000; Some 1741539600000000000;
         Some 1757768400000000000] !! i = Some m →
        horizon !! i = Some (sub_cell t m)
        ∧ hours !! i = Some ((λ x, exact_div (exact_seconds x) 3600) <$> sub_cell t m)
        ∧ prior !! i
          = Some (eq_cell (local_day us_central <$> m)
                          (local_day us_central <$> ((λ x, x - day) <$> t)))
        ∧ same !! i
          = Some (eq_cell (local_day us_central <$> m) (local_day us_central <$> t)).
Proof.
  refine (proj2 (proj2 (proj2 (add_forecast_fields_writes_the_fields
            exact_seconds exact_div refuse refuse_timedelta
            clock_changes_store 0%nat clock_changes _))) _ _ _ _ _);
    reflexivity.
Defined.

Lemma add_forecast_fields_flags_under_one_offset_witness :
  ∃ prior same,
    flags_after exact_seconds exact_div refuse refuse_timedelta
      clock_changes_store 0 2 = Some (prior, same)
    ∧ (prior = true
       ↔ local_day us_central 1757768400000000000 + 1
         = local_day us_central 1757869200000000000)
    ∧ (same = true
       ↔ local_day us_central 1757768400000000000
         = local_day us_central 1757869200000000000)
    ∧ ¬ (prior = true ∧ same = true).
Proof.
  apply (add_forecast_fields_flags_under_one_offset
           exact_seconds exact_div refuse refuse_timedelta
           clock_changes_store 0%nat clock_changes us_central
           [Some 1762147800000000000; Some 1741584600000000000;
            Some 1757869200000000000]
           [Some 1762092000000000000; Some 1741539600000000000;
            Some 1757768400000000000] 2%nat);
    [reflexivity..|apply (bool_decide_unpack _); vm_compute; exact I].
Defined.

Lemma add_forecast_fields_flags_after_clocks_set_back_witness :
  ∃ flag,
    flags_after exact_seconds exact_div refuse refuse_timedelta
      clock_changes_store 0 0 = Some (flag, flag)
    ∧ (flag = true
       ↔ local_day us_central 1762092000000000000
         = local_day us_central 1762147800000000000).
Proof.
  apply (add_forecast_fields_flags_after_clocks_set_back
           exact_seconds exact_div refuse refuse_timedelta
           clock_changes_store 0%nat clock_changes us_central
           [Some 1762147800000000000; Some 1741584600000000000;
            Some 1757869200000000000]
           [Some 1762092000000000000; Some 1741539600000000000;
            Some 1757768400000000000] 0%nat _ _ 3600);
    [reflexivity..|lia|apply (bool_decide_unpack _); vm_compute; exact I
    |apply (bool_decide_unpack _); vm_compute; exact I].
Defined.

Lemma add_forecast_fields_flags_after_clocks_set_forward_witness :
  ∃ prior same,
    flags_after exact_seconds exact_div refuse refuse_timedelta
      clock_changes_store 0 1 = Some (prior, same)
    ∧ (prior = true
       ↔ local_day us_central 1741539600000000000 + 2
         = local_day us_central 1741584600000000000)
    ∧ (local_day us_central 1741539600000000000 + 1
       = local_day us_central 1741584600000000000 →
       prior = false ∧ same = false).
Proof.
  apply (add_forecast_fields_flags_after_clocks_set_forward
           exact_seconds exact_div refuse refuse_timedelta
           clock_changes_store 0%nat clock_changes us_central
           [Some 1762147800000000000; Some 1741584600000000000;
            Some 1757869200000000000]
           [Some 1762092000000000000; Some 1741539600000000000;
            Some 1757768400000000000] 1%nat _ _ 3600);
    [reflexivity..|lia|apply (bool_decide_unpack _); vm_compute; exact I
    |apply (bool_decide_unpack _); vm_compute; exact I].
Defined.

(** The flags of the three rows: the run of 2 November is marked as issued
    the day before and the same day, the run of 9 March as neither, and the
    run of 13 September as issued the day before. *)
Example add_forecast_fields_clock_changes :
  flags_after exact_seconds exact_div refuse refuse_timedelta clock_changes_store 0
  <$> [0; 1; 2]%nat
  = [Some (true, true); Some (false, false); Some (true, false)].
Proof. vm_compute. reflexivity. Qed.

End ForecastFieldsProps.

(** ** data_collection/utilities.py: the column in UTC *)

Module ConvertUtcProps.
Import Python Store StoreProps Utilities UtilitiesProps.

Implicit Types (d : DataFrame) (df : nat) (h : gmap nat DataFrame)
  (c u : cell) (us : list cell) (s : list cell).

(** The reading [u] is the reading [c] in UTC: a missing value stays
    missing, a naive reading is taken as UTC, and an aware one is moved to
    offset zero at the instant it denotes. *)
Definition in_utc c u : Prop :=
  match c with
  | NaT => u = NaT
  | Naive wall => u = Aware wall 0
  | Aware wall offset => u = Aware (instant wall offset) 0
  end.

Lemma in_utc_cells s : Forall2 in_utc s (map utc_cell s).
Proof. induction s as [|[| |] s IH]; constructor; auto; reflexivity. Qed.

(** X9. [convert_datetime_to_utc] on a frame without the column [col]
    raises [KeyError(col)].  On a frame that has it, it returns a new frame
    with the index of its argument and every column of it other than [col]
    and datetime_utc as it was; datetime_utc holds, cell by cell, the
    readings of [col] in UTC; [col] is dropped when [drop_col] is set and
    kept as it was otherwise.  So, asked to convert the column datetime_utc
    itself and to drop it, it returns a frame with no such column. *)
Theorem convert_datetime_to_utc_result h df d col drop_col :
  h !! df = Some d →
  (columns d !! col = None →
     ∃ h', convert_datetime_to_utc df col drop_col h
           = Some (Raise (KeyError col), h'))
  ∧ (∀ s, columns d !! col = Some s →
       ∃ out h' d',
         convert_datetime_to_utc df col drop_col h = Some (Return out, h')
         ∧ h' !! out = Some d'
         ∧ index d' = index d
         ∧ (∀ other, other ≠ col → other ≠ "datetime_utc"%string →
              columns d' !! other = columns d !! other)
         ∧ (drop_col = true → columns d' !! col = None)
         ∧ (drop_col = false → col ≠ "datetime_utc"%string →
              columns d' !! col = Some s)
         ∧ (¬ (drop_col = true ∧ col = "datetime_utc"%string) →
              ∃ us, columns d' !! "datetime_utc"%string = Some us
                    ∧ Forall2 in_utc s us)).
Proof.
  intros Hd. rewrite (convert_datetime_to_utc_run _ _ _ _ _ Hd). cbn zeta.
  split; [intros ->; eauto|]. intros s Hs. rewrite Hs.
  destruct drop_col.
  - do 3 eexists. split; [reflexivity|]. split; [apply lookup_insert_eq|].
    cbn [index columns]. split; [reflexivity|]. split; [|split; [|split]].
    + intros other H1 H2.
      now rewrite lookup_delete_ne, lookup_insert_ne by congruence.
    + intros _. apply lookup_delete_eq.
    + discriminate.
    + intros Hcol. exists (map utc_cell s). split; [|apply in_utc_cells].
      rewrite lookup_delete_ne by (intros ->; now apply Hcol).
      apply lookup_insert_eq.
  - do 3 eexists. split; [reflexivity|]. split; [apply lookup_insert_eq|].
    cbn [index columns]. split; [reflexivity|]. split; [|split; [|split]].
    + intros other H1 H2. now rewrite lookup_insert_ne by congruence.
    + discriminate.
    + intros _ Hcol. now rewrite lookup_insert_ne by congruence.
    + intros _. exists (map utc_cell s).
      split; [apply lookup_insert_eq|apply in_utc_cells].
Qed.

Lemma convert_datetime_to_utc_result_witness :
  (columns autumn_frame !! "datetime"%string = None →
     ∃ h', convert_datetime_to_utc 0 "datetime" true autumn_store
           = Some (Raise (KeyError "datetime"), h'))
  ∧ (∀ s, columns autumn_frame !! "datetime"%string = Some s →
       ∃ out h' d',
         convert_datetime_to_utc 0 "datetime" true autumn_store
         = Some (Return out, h')
         ∧ h' !! out = Some d'
         ∧ index d' = index autumn_frame
         ∧ (∀ other, other ≠ "datetime"%string → other ≠ "datetime_utc"%string →
              columns d' !! other = columns autumn_frame !! other)
         ∧ (true = true → columns d' !! "datetime"%string = None)
         ∧ (true = false → "datetime"%string ≠ "datetime_utc"%string →
              columns d' !! "datetime"%string = Some s)
         ∧ (¬ (true = true ∧ "datetime"%string = "datetime_utc"%string) →
              ∃ us, columns d' !! "datetime_utc"%string = Some us
                    ∧ Forall2 in_utc s us)).
Proof.
  apply (convert_datetime_to_utc_result autumn_store 0%nat autumn_frame
           "datetime" true).
  reflexivity.
Defined.

End ConvertUtcProps.

(** ** data_collection/utilities.py: the name of a staged file *)

Module StagingNameProps.
Import Python Utilities.

Implicit Types (s t new : string) (c old : ascii) (count : option nat).

(** The characters of a string. *)
Definition chars s : list ascii := list_ascii_of_string s.

Lemma chars_app s t : chars (s +:+ t) = chars s ++ chars t.
Proof.
  unfold chars. induction s as [|c s IH]; [reflexivity|].
  change (String c s +:+ t) with (String c (s +:+ t)). cbn. now f_equal.
Qed.

Lemma replace_chars old new count s c :
  c ∈ chars (replace old new count s) → c ∈ chars s ∨ c ∈ chars new.
Proof.
  revert count. induction s as [|c' s IH]; intros count; [cbn; auto|].
  assert (∀ count', c ∈ chars (replace old new count' s) →
                    c ∈ chars (String c' s) ∨ c ∈ chars new) as Hrest.
  { intros count' [H|H]%IH; [left; now right|now right]. }
  assert (c ∈ chars (String c' (replace old new count s)) →
          c ∈ chars (String c' s) ∨ c ∈ chars new) as Hkeep.
  { cbn. intros [->|H]%elem_of_cons; [left; now left|now apply (Hrest count)]. }
  cbn [replace]. destruct count as [[|n]|]; [auto| |].
  - destruct (Ascii.eqb c' old); [|exact Hkeep].
    rewrite chars_app. intros [H|H]%elem_of_app; [now right|now apply (Hrest (Some n))].
  - destruct (Ascii.eqb c' old); [|exact Hkeep].
    rewrite chars_app. intros [H|H]%elem_of_app; [now right|now apply (Hrest None)].
Qed.

Lemma replace_all_gone old new s :
  old ∉ chars new → old ∉ chars (replace old new None s).
Proof.
  intros Hnew. induction s as [|c s IH]; [apply not_elem_of_nil|].
  cbn [replace]. destruct (Ascii.eqb c old) eqn:E.
  - rewrite chars_app. intros [H|H]%elem_of_app; auto.
  - cbn. intros [->|H]%elem_of_cons; [|auto].
    now rewrite Ascii.eqb_refl in E.
Qed.


Lemma replace_none_gone old new count s c :
  c ∉ chars s → c ∉ chars new → c ∉ chars (replace old new count s).
Proof. intros Hs Hnew [H|H]%replace_chars; auto. Qed.

(** The path of the file staged under a name and the text of a timestamp. *)
Definition staged_at (path file_name stem : string) : string :=
  ((path +:+ "/" +:+ file_name) +:+ "--" +:+ stem) +:+ ".parquet".

(** X10. Whatever the timestamp, the name [save] builds from it for the
    staged file holds no colon and no plus sign. *)
Theorem save_file_name_has_no_colon {Frame : Type} (df : Frame)
    (path file_name isoformat : string) (fs : gmap string Frame) :
  ∃ stem,
    save df path file_name (Some isoformat) fs
    = <[staged_at path file_name stem := df]> fs
    ∧ (":"%char ∉ chars stem) ∧ ("+"%char ∉ chars stem).
Proof.
  eexists. split; [reflexivity|]. split.
  - do 3 (apply replace_none_gone; [|now apply (bool_decide_unpack _)]).
    apply replace_all_gone. now apply (bool_decide_unpack _).
  - do 2 (apply replace_none_gone; [|now apply (bool_decide_unpack _)]).
    apply replace_all_gone. now apply (bool_decide_unpack _).
Qed.

(** The characters the four replacements of [save] read or write. *)
Definition plain_char c : bool :=
  negb (Ascii.eqb c ":" || Ascii.eqb c "+" || Ascii.eqb c "-" || Ascii.eqb c "_").

Fixpoint plain s : bool :=
  match s with
  | EmptyString => true
  | String c s' => plain_char c && plain s'
  end.

(** Colons and hyphens written as underscores, a plus sign spelled out. *)
Fixpoint underscored s : string :=
  match s with
  | EmptyString => EmptyString
  | String c s' =>
      if Ascii.eqb c ":" || Ascii.eqb c "-" then String "_" (underscored s')
      else if Ascii.eqb c "+" then "_plus_" +:+ underscored s'
      else String c (underscored s')
  end.

Lemma three_replacements s :
  replace "-" "_" None (replace "+" "_plus_" None (replace ":" "-" None s))
  = underscored s.
Proof.
  induction s as [|c s IH]; [reflexivity|].
  cbn [replace underscored].
  destruct (Ascii.eqb_spec c ":") as [->|Hcolon].
  { rewrite <- IH. reflexivity. }
  destruct (Ascii.eqb_spec c "-") as [->|Hhyphen].
  { rewrite <- IH. reflexivity. }
  cbn [orb replace].
  destruct (Ascii.eqb_spec c "+") as [->|Hplus].
  { rewrite <- IH. reflexivity. }
  cbn [replace]. rewrite (proj2 (Ascii.eqb_neq c "-")) by exact Hhyphen.
  now rewrite IH.
Qed.

Lemma plain_underscored s t :
  plain s = true → underscored (s +:+ t) = s +:+ underscored t.
Proof.
  induction s as [|c s IH]; [reflexivity|].
  change (String c s +:+ ?u) with (String c (s +:+ u)).
  cbn [plain underscored]. unfold plain_char.
  destruct (Ascii.eqb c ":"), (Ascii.eqb c "+"), (Ascii.eqb c "-"),
    (Ascii.eqb c "_"); cbn; try discriminate.
  intros Hs. now rewrite IH.
Qed.

Lemma replace_zero old new s : replace old new (Some 0%nat) s = s.
Proof. now destruct s. Qed.

Lemma plain_replace_underscore count s t :
  plain s = true →
  replace "_" "-" count (s +:+ t) = s +:+ replace "_" "-" count t.
Proof.
  induction s as [|c s IH]; [reflexivity|].
  change (String c s +:+ ?u) with (String c (s +:+ u)).
  cbn [plain replace]. unfold plain_char.
  destruct (Ascii.eqb c ":"), (Ascii.eqb c "+"), (Ascii.eqb c "-"),
    (Ascii.eqb c "_"); cbn; try discriminate.
  intros Hs. destruct count as [[|n]|]; rewrite ?IH by exact Hs;
    rewrite ?replace_zero; reflexivity.
Qed.

Lemma hyphen_app s : "-" +:+ s = String "-" s.
Proof. reflexivity. Qed.

Lemma underscored_hyphen s :
  underscored (String "-" s) = String "_" (underscored s).
Proof. reflexivity. Qed.

Lemma replace_underscore_succ n s :
  replace "_" "-" (Some (S n)) (String "_" s)
  = String "-" (replace "_" "-" (Some n) s).
Proof. reflexivity. Qed.

(** X11. For a timestamp whose isoformat starts with a date,
    [year-month-rest], the name of the staged file keeps the two hyphens of
    the date and writes every later hyphen and every colon as an underscore
    and a plus sign as _plus_. *)
Theorem save_file_name_of_timestamp {Frame : Type} (df : Frame)
    (path file_name year month rest : string) (fs : gmap string Frame) :
  plain year = true → plain month = true →
  save df path file_name (Some (year +:+ "-" +:+ month +:+ "-" +:+ rest)) fs
  = <[staged_at path file_name
        (year +:+ "-" +:+ month +:+ "-" +:+ underscored rest) := df]> fs.
Proof.
  intros Hy Hm. unfold save, to_parquet, staged_at. cbn zeta. do 4 f_equal.
  rewrite three_replacements, !hyphen_app.
  rewrite (plain_underscored year), underscored_hyphen by exact Hy.
  rewrite (plain_underscored month), underscored_hyphen by exact Hm.
  rewrite (plain_replace_underscore _ year), replace_underscore_succ by exact Hy.
  rewrite (plain_replace_underscore _ month), replace_underscore_succ by exact Hm.
  now rewrite replace_zero.
Qed.

Lemma save_file_name_of_timestamp_witness :
  save "rows"%string "data/staging/nws_observations" "nws_observations"
       (Some ("2025" +:+ "-" +:+ "11" +:+ "-" +:+ "03T22:26:40.645330+05:30")) ∅
  = <[staged_at "data/staging/nws_observations" "nws_observations"
        ("2025" +:+ "-" +:+ "11" +:+ "-"
         +:+ underscored "03T22:26:40.645330+05:30") := "rows"%string]> ∅.
Proof.
  apply (save_file_name_of_timestamp "rows"%string "data/staging/nws_observations"
           "nws_observations" "2025" "11" "03T22:26:40.645330+05:30" ∅);
    reflexivity.
Defined.

End StagingNameProps.

(** ** data_collection/utilities.py: the field names *)

Module FieldNamesProps.
Import FieldNames.

(** The labels [normalize_field_names] replaces. *)
Definition old_names : list string :=
  ["forecast_date"; "obs_datetime"; "obs_date"; "temperature_2m";
   "strike_midpoint"]%string.

(** What becomes of one label. *)
Definition normalized (label : string) : string :=
  default label
    (FileSearch.dict_get
       [("forecast_date", "datetime"); ("obs_datetime", "datetime");
        ("obs_date", "date"); ("temperature_2m", "forecast_temperature");
        ("strike_midpoint", "event_midpoint")]%string label).

Lemma normalized_cases label :
  ((label ∈ old_names) ∧ (normalized label ∉ old_names))
  ∨ ((label ∉ old_names) ∧ normalized label = label).
Proof.
  unfold normalized. cbn [FileSearch.dict_get].
  repeat (case_bool_decide;
          [subst label; left; split; apply (bool_decide_unpack _); exact I|]).
  right. split; [|reflexivity].
  unfold old_names. rewrite !elem_of_cons, elem_of_nil. intuition congruence.
Qed.

Lemma normalized_idemp label : normalized (normalized label) = normalized label.
Proof.
  destruct (normalized_cases label) as [[_ Hnew]|[_ E]]; [|now rewrite !E].
  destruct (normalized_cases (normalized label)) as [[Hold _]|[_ E]];
    [contradiction|exact E].
Qed.

Section rename.
Context {Column : Type}.
Implicit Types (df : list (string * Column)).

Lemma normalize_field_names_labels df :
  map fst (normalize_field_names df) = map normalized (map fst df).
Proof.
  unfold normalize_field_names, rename. rewrite !map_map.
  apply map_ext. now intros [label column].
Qed.

Lemma normalize_field_names_columns df :
  map snd (normalize_field_names df) = map snd df.
Proof.
  unfold normalize_field_names, rename. rewrite !map_map.
  apply map_ext. now intros [label column].
Qed.

(** X12. [normalize_field_names] leaves every column where and as it was
    and relabels only the five names of its table: a column under another
    label keeps it, none of the five names is left among the labels, and a
    second pass changes nothing any more.  Two columns of the table that are
    mapped to one name (forecast_date, obs_datetime) both carry that name
    afterwards. *)
Theorem normalize_field_names_relabels df :
  map snd (normalize_field_names df) = map snd df
  ∧ (∀ i label, map fst df !! i = Some label → label ∉ old_names →
       map fst (normalize_field_names df) !! i = Some label)
  ∧ (∀ label, label ∈ old_names → label ∉ map fst (normalize_field_names df))
  ∧ normalize_field_names (normalize_field_names df) = normalize_field_names df
  ∧ (∀ i j, map fst df !! i = Some "forecast_date"%string →
       map fst df !! j = Some "obs_datetime"%string →
       map fst (normalize_field_names df) !! i = Some "datetime"%string
       ∧ map fst (normalize_field_names df) !! j = Some "datetime"%string).
Proof.
  split; [apply normalize_field_names_columns|].
  rewrite normalize_field_names_labels.
  change (map normalized ?l) with (normalized <$> l).
  split; [|split; [|split]].
  - intros i label Hi Hnew. rewrite list_lookup_fmap, Hi. cbn. f_equal.
    destruct (normalized_cases label) as [[Hold _]|[_ E]]; [contradiction|exact E].
  - intros label Hold (l & -> & _)%list_elem_of_fmap.
    destruct (normalized_cases l) as [[_ Hnew]|[Hnew E]]; [contradiction|].
    rewrite E in Hold. contradiction.
  - unfold normalize_field_names, rename. rewrite map_map.
    apply map_ext. intros [label column]. f_equal. apply normalized_idemp.
  - intros i j Hi Hj.
    rewrite list_lookup_fmap, Hi, list_lookup_fmap, Hj. split; reflexivity.
Qed.

End rename.

End FieldNamesProps.

(** ** feature_engineering/dates.py: the date fields *)

Module DatesProps.
Import Python Store StoreProps Datetime Dates.

Implicit Types (d : DataFrame) (df : nat) (h : gmap nat DataFrame)
  (wall : list (option Z)).

Definition ymd : list directive :=
  [Year4; Literal "-"; MonthNumber; Literal "-"; DayOfMonth].

(** The four columns [add_date_fields] writes for a column of readings. *)
Definition date_column wall : list (option string) :=
  map (fmap (λ w, strftime (date_of w) ymd)) wall.

Definition month_column wall : list (option string) :=
  map (fmap (substring 5 (7 - 5))) (date_column wall).

Definition year_column wall : list (option string) :=
  map (fmap (substring 0 (4 - 0))) (date_column wall).

Definition year_month_column wall : list (option string) :=
  zip_with (λ x y, x ← x; y ← y; Some (x +:+ y))
           (map (fmap (λ x, x +:+ "-")) (year_column wall)) (month_column wall).

Definition with_date_fields d wall : DataFrame :=
  mkDataFrame (index d)
    (<["year_month"%string := Object (year_month_column wall)]>
       (<["year"%string := Object (year_column wall)]>
          (<["month"%string := Object (month_column wall)]>
             (<["date"%string := Object (date_column wall)]> (columns d))))).

Lemma getitem_run h df d col s :
  h !! df = Some d → columns d !! col = Some s →
  getitem df col h = Some (Return s, h).
Proof.
  intros Hd Hs. unfold getitem, bind. now rewrite (load_run _ _ _ Hd), Hs.
Qed.

Lemma setitem_run h df d col s :
  h !! df = Some d →
  setitem df col s h
  = Some (Return tt, <[df := mkDataFrame (index d) (<[col := s]> (columns d))]> h).
Proof.
  intros Hd. unfold setitem, bind. rewrite (load_run _ _ _ Hd).
  unfold assign. now rewrite Hd.
Qed.

Lemma add_date_fields_run h df d wall :
  h !! df = Some d → columns d !! "datetime"%string = Some (Datetime64 wall) →
  add_date_fields df h = Some (Return df, <[df := with_date_fields d wall]> h).
Proof.
  intros Hd Hwall. unfold add_date_fields.
  unfold bind at 1. rewrite (getitem_run _ _ _ _ _ Hd Hwall).
  unfold bind at 1, dt_strftime, ret at 1.
  unfold bind at 1. rewrite (setitem_run _ _ _ _ _ Hd).
  fold ymd. fold (date_column wall).
  set (d1 := mkDataFrame _ _).
  assert (<[df := d1]> h !! df = Some d1) as H1 by apply lookup_insert_eq.
  unfold bind at 1. rewrite (getitem_run _ _ d1 "date" (Object (date_column wall)) H1)
    by apply lookup_insert_eq.
  unfold bind at 1, str_slice, ret at 1.
  unfold bind at 1. rewrite (setitem_run _ _ _ _ _ H1), insert_insert_eq.
  fold (month_column wall). set (d2 := mkDataFrame _ _).
  assert (<[df := d2]> h !! df = Some d2) as H2 by apply lookup_insert_eq.
  unfold bind at 1. rewrite (getitem_run _ _ d2 "date" (Object (date_column wall)) H2).
  2:{ unfold d2, d1. cbn [columns]. now rewrite lookup_insert_ne, lookup_insert_eq. }
  unfold bind at 1, ret at 1.
  unfold bind at 1. rewrite (setitem_run _ _ _ _ _ H2), insert_insert_eq.
  fold (year_column wall). set (d3 := mkDataFrame _ _).
  assert (<[df := d3]> h !! df = Some d3) as H3 by apply lookup_insert_eq.
  unfold bind at 1. rewrite (getitem_run _ _ d3 "year" (Object (year_column wall)) H3)
    by apply lookup_insert_eq.
  unfold bind at 1, add_str, ret at 1.
  unfold bind at 1. rewrite (getitem_run _ _ d3 "month" (Object (month_column wall)) H3).
  2:{ unfold d3, d2. cbn [columns]. now rewrite lookup_insert_ne, lookup_insert_eq. }
  unfold bind at 1, add, ret at 1.
  unfold bind at 1. rewrite (setitem_run _ _ _ _ _ H3), insert_insert_eq.
  reflexivity.
Qed.


(** The strings written for one reading. *)
Definition date_text (w : Z) : string :=
  pad4 (year (date_of w)) +:+ "-" +:+ pad2 (month (date_of w)) +:+ "-"
  +:+ pad2 (day (date_of w)).

Definition year_text (w : Z) : string := pad4 (year (date_of w)).

Definition month_text (w : Z) : string := pad2 (month (date_of w)).

Lemma date_fields_of_row wall (i : nat) :
  date_column wall !! i = fmap date_text <$> wall !! i
  ∧ year_column wall !! i = fmap year_text <$> wall !! i
  ∧ month_column wall !! i = fmap month_text <$> wall !! i
  ∧ year_month_column wall !! i
    = fmap (λ w, year_text w +:+ "-" +:+ month_text w) <$> wall !! i.
Proof.
  unfold year_month_column, year_column, month_column, date_column.
  change (map ?g ?l) with (g <$> l).
  rewrite lookup_zip_with, !list_lookup_fmap.
  destruct (wall !! i) as [[w|]|]; repeat split; reflexivity.
Qed.

(** X13. [add_date_fields] changes the frame it is given and returns that
    same frame: no copy is taken.  Without a column datetime it raises
    KeyError, and on a datetime column that holds no timestamps the [.dt]
    accessor raises AttributeError, the frame untouched in both cases.
    Otherwise the frame itself gets (or has overwritten) the columns date,
    month, year and year_month, every other column and the index staying:
    for a reading on the day y-m-d, date is the text yyyy-mm-dd, year its
    first four characters yyyy, month the characters mm, and year_month
    yyyy-mm; for a missing reading all four are missing. *)
Theorem add_date_fields_changes_its_argument h df d :
  h !! df = Some d →
  (columns d !! "datetime"%string = None →
     add_date_fields df h = Some (Raise (BuiltIn (KeyError "datetime")), h))
  ∧ (∀ values, columns d !! "datetime"%string = Some (Object values) →
       add_date_fields df h = Some (Raise AttributeError, h))
  ∧ (∀ wall, columns d !! "datetime"%string = Some (Datetime64 wall) →
       ∃ d' dates months years year_months,
         add_date_fields df h = Some (Return df, <[df := d']> h)
         ∧ index d' = index d
         ∧ (∀ other, other ∉ ["date"; "month"; "year"; "year_month"]%string →
              columns d' !! other = columns d !! other)
         ∧ columns d' !! "date"%string = Some (Object dates)
         ∧ columns d' !! "month"%string = Some (Object months)
         ∧ columns d' !! "year"%string = Some (Object years)
         ∧ columns d' !! "year_month"%string = Some (Object year_months)
         ∧ ∀ i : nat,
             dates !! i = fmap date_text <$> wall !! i
             ∧ years !! i = fmap year_text <$> wall !! i
             ∧ months !! i = fmap month_text <$> wall !! i
             ∧ year_months !! i
               = fmap (λ w, year_text w +:+ "-" +:+ month_text w) <$> wall !! i).
Proof.
  intros Hd. split; [|split].
  - intros Hnone. unfold add_date_fields, bind, getitem, bind.
    now rewrite (load_run _ _ _ Hd), Hnone.
  - intros values Hvalues. unfold add_date_fields. unfold bind at 1.
    now rewrite (getitem_run _ _ _ _ _ Hd Hvalues).
  - intros wall Hwall.
    exists (with_date_fields d wall), (date_column wall), (month_column wall),
      (year_column wall), (year_month_column wall).
    split; [now apply add_date_fields_run|]. split; [reflexivity|].
    unfold with_date_fields. cbn [columns]. split; [|split; [|split; [|split; [|split]]]].
    + intros other Hother. rewrite !not_elem_of_cons in Hother.
      destruct Hother as (H1 & H2 & H3 & H4 & _).
      now rewrite !lookup_insert_ne by congruence.
    + now rewrite !lookup_insert_ne, lookup_insert_eq by discriminate.
    + now rewrite !lookup_insert_ne, lookup_insert_eq by discriminate.
    + now rewrite !lookup_insert_ne, lookup_insert_eq by discriminate.
    + apply lookup_insert_eq.
    + apply date_fields_of_row.
Qed.

(** Two readings, 2025-09-14 00:30 and a missing one, and a column the
    function does not touch. *)
Definition september : DataFrame :=
  mkDataFrame [0; 1]
    {[ "datetime"%string := Datetime64 [Some 1757809800; None];
       "city"%string := Object [Some "Chicago"; Some "Chicago"]%string ]}.

Definition september_store : gmap nat DataFrame := {[0%nat := september]}.

Lemma add_date_fields_changes_its_argument_witness :
  ∃ d' dates months years year_months,
    add_date_fields 0 september_store
    = Some (Return 0%nat, <[0%nat := d']> september_store)
    ∧ index d' = index september
    ∧ (∀ other, other ∉ ["date"; "month"; "year"; "year_month"]%string →
         columns d' !! other = columns september !! other)
    ∧ columns d' !! "date"%string = Some (Object dates)
    ∧ columns d' !! "month"%string = Some (Object months)
    ∧ columns d' !! "year"%string = Some (Object years)
    ∧ columns d' !! "year_month"%string = Some (Object year_months)
    ∧ ∀ i : nat,
        dates !! i = fmap date_text <$> [Some 1757809800; None] !! i
        ∧ years !! i = fmap year_text <$> [Some 1757809800; None] !! i
        ∧ months !! i = fmap month_text <$> [Some 1757809800; None] !! i
        ∧ year_months !! i
          = fmap (λ w, year_text w +:+ "-" +:+ month_text w)
            <$> [Some 1757809800; None] !! i.
Proof.
  refine (proj2 (proj2 (add_date_fields_changes_its_argument
                          september_store 0%nat september _)) _ _);
    reflexivity.
Defined.

Example add_date_fields_september :
  date_text 1757809800 = "2025-09-14"%string
  ∧ year_text 1757809800 = "2025"%string
  ∧ month_text 1757809800 = "09"%string.
Proof. repeat split; reflexivity. Qed.

End DatesProps.

(** ** data_collection/accuweather.py: the budget of the HTTP helper *)

Module AccuweatherBudgetProps.
Import Python Accuweather AccuweatherGetProps.

Section get.
Context {Json : Type}.
Variable network : nat → string → gmap string string → reply Json.

Implicit Types (w : World) (url : string) (params : gmap string string)
  (attempt retries : Z) (res : result error Json).

(** What a run of the loop has done to the world, having sent [n]
    requests, the first of them as attempt [first]. *)
Definition sent w w' url params (n : nat) (first : Z) : Prop :=
  requests w' = requests w ++ replicate n (url, params)
  ∧ slept w' = slept w ++ map delay (seqZ first (Z.of_nat n - 1)).

(** A returned value is the body of a 200 reply to the last request. *)
Definition answered w url params (n : nat) res : Prop :=
  ∀ data, res = Return data →
    ∃ text, network (length (requests w) + (n - 1))%nat url params
            = Response 200 text (Some data).

Lemma _get_loop_sent (k : nat) : ∀ attempt retries url params last_exc w,
  retries = attempt + Z.of_nat k - 1 →
  ∃ n : nat,
    (n ≤ k)%nat ∧ (0 < k → 0 < n)%nat
    ∧ sent w (_get_loop network (seqZ attempt (Z.of_nat k)) retries url params
                        last_exc w).2 url params n attempt
    ∧ answered w url params n
        (_get_loop network (seqZ attempt (Z.of_nat k)) retries url params
                   last_exc w).1
    ∧ (∀ exc, (_get_loop network (seqZ attempt (Z.of_nat k)) retries url params
                         last_exc w).1 = Raise (NetworkError url exc) → n = k).
Proof.
  induction k as [|k IH]; intros attempt retries url params last_exc w Hret.
  - exists 0%nat. cbn. unfold sent, answered. cbn. rewrite !app_nil_r.
    repeat split; try lia; try reflexivity. discriminate.
  - rewrite seqZ_cons by lia. cbn [_get_loop]. unfold session_get.
    replace (Z.pred (Z.of_nat (S k))) with (Z.of_nat k) by lia.
    set (w1 := mkWorld (requests w ++ [(url, params)]) (slept w)).
    assert (sent w w1 url params 1 attempt) as Hone.
    { unfold sent, w1. cbn. now rewrite app_nil_r. }
    destruct (network (length (requests w)) url params)
      as [status_code text json|exc|exc] eqn:Hreply.
    + exists 1%nat. case_bool_decide as Hcode; [destruct json as [data|]|];
        cbn [fst snd]; (split; [lia|]); (split; [lia|]); (split; [exact Hone|]);
        (split; [|discriminate]); intros data' [= <-].
      subst status_code. exists text. now rewrite Nat.add_0_r.
    + case_bool_decide as Hlast.
      * exists 1%nat. cbn [fst snd]. split; [lia|]. split; [lia|].
        split; [exact Hone|]. split; [discriminate|]. intros _ _. lia.
      * destruct (IH (Z.succ attempt) retries url params (Some exc)
                     (sleep (delay attempt) w1)) as (n & Hle & Hpos & [Hreq Hslept] & Hans & Hnet);
          [lia|].
        fold (delay attempt).
        exists (S n). split; [lia|]. split; [lia|]. split; [|split].
        -- split.
           ++ rewrite Hreq. unfold w1. cbn. now rewrite <- app_assoc.
           ++ rewrite Hslept. unfold w1. cbn. rewrite <- app_assoc. f_equal.
              assert (0 < n)%nat by (apply Hpos; lia).
              rewrite (seqZ_cons attempt) by lia. cbn [map app]. do 3 f_equal. lia.
        -- intros data Hdata. destruct (Hans data Hdata) as (text & Htext).
           exists text. rewrite <- Htext. f_equal. unfold w1. cbn.
           rewrite length_app. cbn.
           assert (0 < n)%nat by (apply Hpos; lia). lia.
        -- intros exc' Hexc. f_equal. eapply Hnet, Hexc.
    + exists 1%nat. cbn [fst snd]. split; [lia|]. split; [lia|].
      split; [exact Hone|]. split; discriminate.
Qed.

Lemma _get_sent (self : AccuWeatherClient) (path : string) params retries w :
  ∃ n : nat,
    Z.of_nat n ≤ Z.max 0 retries
    ∧ sent w (_get network self path params retries w).2
           (url_of path) (with_key self params) n 1
    ∧ answered w (url_of path) (with_key self params) n
               (_get network self path params retries w).1
    ∧ (∀ exc, (_get network self path params retries w).1
              = Raise (NetworkError (url_of path) exc) →
         Z.of_nat n = Z.max 0 retries).
Proof.
  unfold _get, attempts_of. fold (url_of path). fold (with_key self params).
  destruct (decide (0 ≤ retries)) as [Hpos|Hneg].
  - destruct (_get_loop_sent (Z.to_nat retries) 1 retries (url_of path)
                (with_key self params) None w) as (n & Hle & _ & Hsent & Hans & Hnet);
      [lia|].
    rewrite Z2Nat.id in * by exact Hpos.
    exists n. split; [lia|]. split; [exact Hsent|]. split; [exact Hans|].
    intros exc Hexc. rewrite (Hnet exc Hexc). lia.
  - exists 0%nat. rewrite seqZ_nil by lia. unfold sent, answered. cbn.
    rewrite !app_nil_r. split; [lia|]. split; [split; reflexivity|].
    split; [discriminate|]. lia.
Qed.

(** X14. Whatever the network answers, [_get] sends at most [retries]
    requests, all of them to the URL of the path and with the client's key
    under apikey (over whatever the caller had put there); it sleeps
    between two requests and never after the last one, [base_delay] times
    the number of the failed attempt; what it returns is the decoded body
    of a reply with status 200 to the last request it sent; and it gives up
    with the network error only when the budget is used up. *)
Theorem _get_stays_within_budget (self : AccuWeatherClient) (path : string)
    params retries w :
  ∃ n : nat,
    Z.of_nat n ≤ Z.max 0 retries
    ∧ requests (_get network self path params retries w).2
      = requests w ++ replicate n (url_of path, with_key self params)
    ∧ with_key self params !! "apikey"%string = Some (api_key self)
    ∧ slept (_get network self path params retries w).2
      = slept w ++ map delay (seqZ 1 (Z.of_nat n - 1))
    ∧ (∀ data, (_get network self path params retries w).1 = Return data →
         ∃ text, network (length (requests w) + (n - 1))%nat
                         (url_of path) (with_key self params)
                 = Response 200 text (Some data))
    ∧ (∀ exc, (_get network self path params retries w).1
              = Raise (NetworkError (url_of path) exc) →
         Z.of_nat n = Z.max 0 retries).
Proof.
  destruct (_get_sent self path params retries w)
    as (n & Hle & [Hreq Hslept] & Hans & Hnet).
  exists n. split; [exact Hle|]. split; [exact Hreq|].
  split; [apply lookup_insert_eq|]. split; [exact Hslept|].
  split; [exact Hans|exact Hnet].
Qed.

End get.

End AccuweatherBudgetProps.

(** ** data_collection/accuweather.py: the client's public helpers *)

Module AccuweatherClientProps.
Import Python Accuweather AccuweatherGetProps AccuweatherBudgetProps
  AccuweatherClient.

Section client.
Context {Coord Value Frame : Type}.
Variable network : nat → string → gmap string string → reply Json.
Variable format_6f : Coord → string.
Variable str : Json → string.
Variable to_frame : list Json → Frame.
Variable CITY_REFERENCE : list (string * list (string * Value)).
Variable _city_ref_import_error : option string.
Variable float : Value → option Coord.

Implicit Types (self : AccuWeatherClient) (w : World) (lat lon : Coord)
  (language : string) (metric details as_dataframe : bool).

(** The request of the location search and that of the forecast. *)
Definition search_request self lat lon language
  : string * gmap string string :=
  (url_of "/locations/v1/cities/geoposition/search",
   with_key self
     (<["details"%string := "false"%string]>
        (<["language"%string := language]>
           {[ "q"%string := format_6f lat +:+ "," +:+ format_6f lon ]}))).

Definition forecast_request self (location_key : Json) metric details language
  : string * gmap string string :=
  (url_of ("/forecasts/v1/hourly/12hour/" +:+ format str location_key),
   with_key self
     (<["language"%string := language]>
        (<["details"%string := str_lower details]>
           {[ "metric"%string := str_lower metric ]}))).

Lemma get_location_key_by_geoposition_sent self lat lon language w :
  ∃ n : nat,
    (n ≤ 3)%nat
    ∧ requests (get_location_key_by_geoposition network format_6f self lat lon
                  language false None w).2
      = requests w ++ replicate n (search_request self lat lon language)
    ∧ ∀ key, (get_location_key_by_geoposition network format_6f self lat lon
                language false None w).1 = Return key →
        ∃ text data,
          network (length (requests w) + (n - 1))%nat
                  (search_request self lat lon language).1
                  (search_request self lat lon language).2
          = Response 200 text (Some data)
          ∧ subscript data "Key" = Some key.
Proof.
  unfold get_location_key_by_geoposition. cbn zeta. cbn [str_lower].
  match goal with |- context [_get network self ?p ?q 3 w] =>
    destruct (_get_sent network self p q 3 w) as (n & Hle & [Hreq _] & Hans & _);
    destruct (_get network self p q 3 w) as [[data|e] w'] eqn:Hget
  end; cbn [fst snd] in *; exists n.
  - split; [lia|]. destruct (subscript data "Key") as [key|] eqn:Hkey;
      cbn [fst snd]; (split; [exact Hreq|]); [|discriminate].
    intros key' [= <-]. destruct (Hans data eq_refl) as [text Htext].
    exists text, data. split; [exact Htext|exact Hkey].
  - split; [lia|]. split; [exact Hreq|discriminate].
Qed.

Lemma get_hourly_forecast_12h_sent self location_key metric details language w :
  ∃ n : nat,
    (n ≤ 3)%nat
    ∧ requests (get_hourly_forecast_12h network str self location_key metric
                  details language w).2
      = requests w
        ++ replicate n (forecast_request self location_key metric details language)
    ∧ ∀ hourly12, (get_hourly_forecast_12h network str self location_key metric
                     details language w).1 = Return hourly12 →
        ∃ text,
          network (length (requests w) + (n - 1))%nat
                  (forecast_request self location_key metric details language).1
                  (forecast_request self location_key metric details language).2
          = Response 200 text (Some (JArray hourly12)).
Proof.
  unfold get_hourly_forecast_12h. cbn zeta.
  match goal with |- context [_get network self ?p ?q 3 w] =>
    destruct (_get_sent network self p q 3 w) as (n & Hle & [Hreq _] & Hans & _);
    destruct (_get network self p q 3 w) as [[data|e] w'] eqn:Hget
  end; cbn [fst snd] in *; exists n; (split; [lia|]).
  - destruct (Hans data eq_refl) as [text Htext].
    destruct data; cbn [fst snd]; (split; [exact Hreq|]); try discriminate.
    intros hourly12 [= <-]. now exists text.
  - split; [exact Hreq|discriminate].
Qed.

(** X15. [get_hourly_forecast_12h_by_latlon] talks to the service in two
    steps and at most six requests: up to three location searches for the
    coordinates (sent with details=false, whatever [details] the caller
    asked for), then, only if a search was answered with status 200 and an
    object that has a "Key", up to three forecast requests for exactly that
    key, carrying the caller's metric, details and language.  What it
    returns is the array a forecast request was answered with (as a frame
    when [as_dataframe] is set). *)
Theorem get_hourly_forecast_12h_by_latlon_protocol self lat lon metric details
    language as_dataframe w :
  ∃ (searches forecasts : nat) (location_key : Json),
    (searches ≤ 3)%nat ∧ (forecasts ≤ 3)%nat
    ∧ requests (get_hourly_forecast_12h_by_latlon network format_6f str to_frame
                  self lat lon metric details language as_dataframe w).2
      = requests w
        ++ replicate searches (search_request self lat lon language)
        ++ replicate forecasts
             (forecast_request self location_key metric details language)
    ∧ ((0 < forecasts)%nat →
         ∃ text data,
           network (length (requests w) + (searches - 1))%nat
                   (search_request self lat lon language).1
                   (search_request self lat lon language).2
           = Response 200 text (Some data)
           ∧ subscript data "Key" = Some location_key)
    ∧ (∀ out, (get_hourly_forecast_12h_by_latlon network format_6f str to_frame
                 self lat lon metric details language as_dataframe w).1
              = Return out →
         ∃ text hourly12,
           network (length (requests w) + searches + (forecasts - 1))%nat
                   (forecast_request self location_key metric details language).1
                   (forecast_request self location_key metric details language).2
           = Response 200 text (Some (JArray hourly12))
           ∧ out = if as_dataframe then DataFrame (to_frame hourly12)
                   else Records hourly12).
Proof.
  unfold get_hourly_forecast_12h_by_latlon.
  destruct (get_location_key_by_geoposition_sent self lat lon language w)
    as (n1 & Hle1 & Hreq1 & Hkey).
  destruct (get_location_key_by_geoposition network format_6f self lat lon
              language false None w) as [[location_key|e] w1];
    cbn [fst snd] in *.
  - destruct (Hkey location_key eq_refl) as (text & data & Hsearch & Hdata).
    destruct (get_hourly_forecast_12h_sent self location_key metric details
                language w1) as (n2 & Hle2 & Hreq2 & Hans).
    destruct (get_hourly_forecast_12h network str self location_key metric
                details language w1) as [[hourly12|e] w2]; cbn [fst snd] in *;
      exists n1, n2, location_key; (split; [exact Hle1|]); (split; [exact Hle2|]);
      (split; [now rewrite Hreq2, Hreq1, <- app_assoc|]);
      (split; [intros _; now exists text, data|]); [|discriminate].
    intros out [= <-]. destruct (Hans hourly12 eq_refl) as [text' Htext'].
    exists text', hourly12. split; [|reflexivity].
    rewrite <- Htext'. f_equal. rewrite Hreq1, length_app, length_replicate. lia.
  - exists n1, 0%nat, JNull. split; [exact Hle1|]. split; [lia|].
    split; [now rewrite Hreq1, app_nil_r|]. split; [lia|discriminate].
Qed.

(** *** The registry *)

Lemma dict_get_elem_of {V} (d : list (string * V)) k v :
  FileSearch.dict_get d k = Some v → (k, v) ∈ d.
Proof.
  induction d as [|[k' v'] d IH]; [discriminate|]. cbn.
  case_bool_decide as Hk; [intros [= ->]; subst; now left|].
  intros H. right. now apply IH.
Qed.

Lemma dict_get_NoDup {V} (d : list (string * V)) k v :
  NoDup (map fst d) → (k, v) ∈ d → FileSearch.dict_get d k = Some v.
Proof.
  induction d as [|[k' v'] d IH]; [now intros _ ?%elem_of_nil|].
  cbn [map fst]. intros [Hk' Hd]%NoDup_cons [[= -> ->]|Hin]%elem_of_cons; cbn.
  - now rewrite bool_decide_eq_true_2.
  - rewrite bool_decide_eq_false_2; [now apply IH|].
    intros ->. apply Hk'. apply list_elem_of_fmap. now exists (k, v).
Qed.

Lemma dict_get_None {V} (d : list (string * V)) k :
  k ∉ map fst d → FileSearch.dict_get d k = None.
Proof.
  induction d as [|[k' v'] d IH]; [reflexivity|]. cbn.
  intros [Hne Hd]%not_elem_of_cons. now rewrite bool_decide_eq_false_2, IH.
Qed.

(** The last name of the list that is [x] in lower case. *)
Definition last_ignoring_case (names : list string) (x : string) : option string :=
  last (filter (λ k, Datetime.lower k = x) names).

Lemma lower_names_from (names : list string) : ∀ (lower : gmap string string) x,
  foldl (λ lower k, <[Datetime.lower k := k]> lower) lower names !! x
  = match last_ignoring_case names x with
    | Some k => Some k
    | None => lower !! x
    end.
Proof.
  unfold last_ignoring_case.
  induction names as [|k names IH]; intros lower x; [reflexivity|].
  cbn [foldl]. rewrite IH, filter_cons.
  destruct (decide (Datetime.lower k = x)) as [<-|Hne].
  - destruct (filter _ names) as [|k' l] eqn:E; [cbn; apply lookup_insert_eq|].
    rewrite last_cons_cons. destruct (last (k' :: l)) eqn:El; [reflexivity|].
    now apply last_None in El.
  - destruct (last _); [reflexivity|]. now apply lookup_insert_ne.
Qed.

Lemma lower_names_lookup x :
  lower_names CITY_REFERENCE !! x
  = last_ignoring_case (map fst CITY_REFERENCE) x.
Proof.
  unfold lower_names. rewrite lower_names_from, lookup_empty.
  now destruct (last_ignoring_case _ x).
Qed.

Lemma last_ignoring_case_elem_of names x k :
  last_ignoring_case names x = Some k → k ∈ names ∧ Datetime.lower k = x.
Proof.
  unfold last_ignoring_case. intros [l Hl]%last_Some.
  assert (k ∈ filter (λ k, Datetime.lower k = x) names) as Hk.
  { rewrite Hl. apply elem_of_app. right. now left. }
  apply list_elem_of_filter in Hk. tauto.
Qed.

Lemma last_ignoring_case_last front k back x :
  Datetime.lower k = x →
  (∀ k', k' ∈ back → Datetime.lower k' ≠ x) →
  last_ignoring_case (front ++ k :: back) x = Some k.
Proof.
  intros Hk Hback. unfold last_ignoring_case.
  rewrite filter_app, filter_cons, decide_True by exact Hk.
  replace (filter _ back) with (@nil string); [apply last_snoc|].
  induction back as [|k' back IH]; [reflexivity|].
  rewrite filter_cons, decide_False by (apply Hback; now left).
  apply IH. intros k'' Hk''. apply Hback. now right.
Qed.

Lemma last_ignoring_case_None names x :
  (∀ k, k ∈ names → Datetime.lower k ≠ x) → last_ignoring_case names x = None.
Proof.
  intros Hnames. unfold last_ignoring_case.
  replace (filter _ names) with (@nil string); [reflexivity|].
  induction names as [|k names IH]; [reflexivity|].
  rewrite filter_cons, decide_False by (apply Hnames; now left).
  apply IH. intros k' Hk'. apply Hnames. now right.
Qed.

(** The coordinates of an entry, when it has both and [float] takes them. *)
Definition coords (c : list (string * Value)) : option (Coord * Coord) :=
  lat ← FileSearch.dict_get c "latitude" ≫= float;
  lon ← FileSearch.dict_get c "longitude" ≫= float;
  Some (lat, lon).

(** What is returned for the entry [c] found under the name [k]. *)
Definition entry_coords (k : string) (c : list (string * Value))
  : result client_error (Coord * Coord) :=
  match coords c with
  | Some p => Return p
  | None => Raise (MissingLatLon k)
  end.

(** The body of [get_city_coords] once the registry is there. *)
Definition resolved (city_name : string) : result client_error (Coord * Coord) :=
  city_name ←
    match FileSearch.dict_get CITY_REFERENCE city_name with
    | Some _ => Return city_name
    | None =>
        match lower_names CITY_REFERENCE !! Datetime.lower city_name with
        | Some k => Return k
        | None => Raise (CityNotFound city_name)
        end
    end;
  match FileSearch.dict_get CITY_REFERENCE city_name with
  | None => Raise (Raised (KeyError city_name))
  | Some c => entry_coords city_name c
  end.

Lemma get_city_coords_resolved city_name :
  get_city_coords CITY_REFERENCE _city_ref_import_error float city_name
  = match CITY_REFERENCE, _city_ref_import_error with
    | [], Some import_error => Raise (CityReferenceImport import_error)
    | _, _ => resolved city_name
    end.
Proof.
  unfold get_city_coords, resolved, entry_coords, coords.
  destruct CITY_REFERENCE, _city_ref_import_error; reflexivity.
Qed.

Lemma resolved_exact city_name c :
  NoDup (map fst CITY_REFERENCE) → (city_name, c) ∈ CITY_REFERENCE →
  resolved city_name = entry_coords city_name c.
Proof.
  intros Hnd Hin. unfold resolved.
  rewrite (dict_get_NoDup _ _ _ Hnd Hin). cbn.
  now rewrite (dict_get_NoDup _ _ _ Hnd Hin).
Qed.

Lemma resolved_ignoring_case city_name k c :
  NoDup (map fst CITY_REFERENCE) →
  city_name ∉ map fst CITY_REFERENCE →
  last_ignoring_case (map fst CITY_REFERENCE) (Datetime.lower city_name) = Some k →
  (k, c) ∈ CITY_REFERENCE →
  resolved city_name = entry_coords k c.
Proof.
  intros Hnd Hout Hlast Hin. unfold resolved.
  rewrite (dict_get_None _ _ Hout), lower_names_lookup, Hlast. cbn.
  now rewrite (dict_get_NoDup _ _ _ Hnd Hin).
Qed.

Lemma resolved_unknown city_name :
  (∀ k, k ∈ map fst CITY_REFERENCE →
        Datetime.lower k ≠ Datetime.lower city_name) →
  resolved city_name = Raise (CityNotFound city_name).
Proof.
  intros Hnone. unfold resolved. rewrite dict_get_None.
  - now rewrite lower_names_lookup, last_ignoring_case_None.
  - intros Hin. now apply (Hnone city_name).
Qed.

Lemma resolved_returns city_name p :
  resolved city_name = Return p →
  ∃ k c, (k, c) ∈ CITY_REFERENCE
         ∧ Datetime.lower k = Datetime.lower city_name ∧ coords c = Some p.
Proof.
  unfold resolved.
  destruct (FileSearch.dict_get CITY_REFERENCE city_name) as [c|] eqn:Hc.
  - cbn. rewrite Hc. unfold entry_coords.
    destruct (coords c) as [p'|] eqn:Hp; [|discriminate]. intros [= ->].
    exists city_name, c. split; [now apply dict_get_elem_of|now split].
  - rewrite lower_names_lookup.
    destruct (last_ignoring_case _ _) as [k|] eqn:Hk; [|discriminate]. cbn.
    apply last_ignoring_case_elem_of in Hk as [_ Hlower].
    destruct (FileSearch.dict_get CITY_REFERENCE k) as [c|] eqn:Hc'; [|discriminate].
    unfold entry_coords. destruct (coords c) as [p'|] eqn:Hp; [|discriminate].
    intros [= ->]. exists k, c. split; [now apply dict_get_elem_of|now split].
Qed.

(** X16. [get_city_coords] on a registry of distinct names: a name of the
    registry gets the coordinates of its own entry; a name that is not in
    the registry gets those of the last entry whose name is the same but for
    the case of its letters; a name that no entry matches even so is
    refused (or, when the registry is empty because its import failed, the
    import error is reported); an entry without a latitude or longitude
    that [float] accepts is refused.  Coordinates that are returned are
    always those of an entry whose name equals the one asked for, case
    apart. *)
Theorem get_city_coords_resolves (city_name : string) :
  NoDup (map fst CITY_REFERENCE) →
  (∀ c, (city_name, c) ∈ CITY_REFERENCE →
     get_city_coords CITY_REFERENCE _city_ref_import_error float city_name
     = entry_coords city_name c)
  ∧ (∀ front k c back,
       CITY_REFERENCE = front ++ (k, c) :: back →
       city_name ∉ map fst CITY_REFERENCE →
       Datetime.lower k = Datetime.lower city_name →
       (∀ k', k' ∈ map fst back →
              Datetime.lower k' ≠ Datetime.lower city_name) →
       get_city_coords CITY_REFERENCE _city_ref_import_error float city_name
       = entry_coords k c)
  ∧ ((∀ k, k ∈ map fst CITY_REFERENCE →
           Datetime.lower k ≠ Datetime.lower city_name) →
       get_city_coords CITY_REFERENCE _city_ref_import_error float city_name
       = match CITY_REFERENCE, _city_ref_import_error with
         | [], Some import_error => Raise (CityReferenceImport import_error)
         | _, _ => Raise (CityNotFound city_name)
         end)
  ∧ (∀ p, get_city_coords CITY_REFERENCE _city_ref_import_error float city_name
          = Return p →
       ∃ k c, (k, c) ∈ CITY_REFERENCE
              ∧ Datetime.lower k = Datetime.lower city_name
              ∧ coords c = Some p).
Proof.
  intros Hnd. rewrite get_city_coords_resolved. split; [|split; [|split]].
  - intros c Hin. rewrite <- (resolved_exact city_name c Hnd Hin).
    destruct CITY_REFERENCE; [now apply elem_of_nil in Hin|reflexivity].
  - intros front k c back Hreg Hout Hk Hback.
    rewrite <- (resolved_ignoring_case city_name k c Hnd Hout).
    + rewrite Hreg. now destruct front.
    + rewrite Hreg, map_app. cbn [map fst].
      now apply last_ignoring_case_last.
    + rewrite Hreg. apply elem_of_app. right. now left.
  - intros Hnone. rewrite (resolved_unknown city_name Hnone).
    now destruct CITY_REFERENCE, _city_ref_import_error.
  - intros p Hp. apply resolved_returns.
    destruct CITY_REFERENCE, _city_ref_import_error; try exact Hp. discriminate.
Qed.

End client.

(** A registry in which two names differ in case only. *)
Definition mixed_case_registry : list (string * list (string * Q)) :=
  [("Chicago", [("latitude", 41.7868%Q); ("longitude", (-87.7522)%Q)]);
   ("New York", [("latitude", 40.7826%Q); ("longitude", (-73.9656)%Q)]);
   ("CHICAGO", [("latitude", 41.9%Q)])]%string.

Lemma get_city_coords_resolves_witness :
  (∀ c, ("chicago"%string, c) ∈ mixed_case_registry →
     get_city_coords mixed_case_registry None Some "chicago"
     = entry_coords Some "chicago" c)
  ∧ (∀ front k c back,
       mixed_case_registry = front ++ (k, c) :: back →
       "chicago"%string ∉ map fst mixed_case_registry →
       Datetime.lower k = Datetime.lower "chicago" →
       (∀ k', k' ∈ map fst back → Datetime.lower k' ≠ Datetime.lower "chicago") →
       get_city_coords mixed_case_registry None Some "chicago"
       = entry_coords Some k c)
  ∧ ((∀ k, k ∈ map fst mixed_case_registry →
           Datetime.lower k ≠ Datetime.lower "chicago") →
       get_city_coords mixed_case_registry None Some "chicago"
       = Raise (CityNotFound "chicago"))
  ∧ (∀ p, get_city_coords mixed_case_registry None Some "chicago" = Return p →
       ∃ k c, (k, c) ∈ mixed_case_registry
              ∧ Datetime.lower k = Datetime.lower "chicago"
              ∧ coords Some c = Some p).
Proof.
  apply (get_city_coords_resolves mixed_case_registry None Some "chicago").
  apply (bool_decide_unpack _). vm_compute. exact I.
Defined.

(** Asked for chicago, the registry above answers with its last entry of
    that name, which has no longitude. *)
Example get_city_coords_last_of_a_name :
  get_city_coords mixed_case_registry None Some "chicago"
  = Raise (MissingLatLon "CHICAGO")
  ∧ get_city_coords mixed_case_registry None Some "Chicago"
    = Return (41.7868%Q, (-87.7522)%Q).
Proof. split; reflexivity. Qed.

End AccuweatherClientProps.

(** ** data_collection/accuweather.py: slugs *)

Module SlugProps.
Import Python Accuweather.

Implicit Types (c : ascii) (l : list ascii) (drop : ascii → bool).

Definition underscore : ascii := "_".

(** Lower-case letters, digits and single underscores: [after] tells
    whether the character before was an underscore. *)
Fixpoint well_formed (after : bool) l : bool :=
  match l with
  | [] => true
  | c :: l' =>
      if is_lower_alnum c then well_formed false l'
      else Ascii.eqb c underscore && negb after && well_formed true l'
  end.

(** A slug: well formed, with no underscore at either end. *)
Definition slug l : Prop :=
  well_formed false l = true
  ∧ head l ≠ Some underscore ∧ last l ≠ Some underscore.

Lemma well_formed_weaken after l :
  well_formed after l = true → well_formed false l = true.
Proof.
  destruct l as [|c l]; [reflexivity|]. cbn.
  destruct (is_lower_alnum c); [auto|]. destruct after; [|auto].
  now rewrite andb_false_r.
Qed.

Lemma well_formed_sub_non_alnum in_run l :
  well_formed in_run (sub_non_alnum in_run l) = true.
Proof.
  revert in_run. induction l as [|c l IH]; intros in_run; [reflexivity|].
  cbn [sub_non_alnum]. destruct (is_lower_alnum c) eqn:E.
  - cbn [well_formed]. rewrite E. apply IH.
  - destruct in_run; [apply IH|]. cbn [well_formed].
    change (is_lower_alnum "_") with false. cbv iota. apply IH.
Qed.

Lemma sub_non_alnum_well_formed after l :
  well_formed after l = true → sub_non_alnum after l = l.
Proof.
  revert after. induction l as [|c l IH]; intros after; [reflexivity|].
  cbn [well_formed sub_non_alnum]. destruct (is_lower_alnum c).
  - intros H. now rewrite IH.
  - intros [[->%Ascii.eqb_eq Hafter%negb_true_iff]%andb_true_iff H]%andb_true_iff.
    subst after. now rewrite IH.
Qed.

(** *** Stripping *)

Lemma lstrip_suffix drop l : ∃ front, l = front ++ lstrip drop l.
Proof.
  induction l as [|c l [front IH]]; [now exists []|]. cbn.
  destruct (drop c); [|now exists []]. exists (c :: front). cbn. now f_equal.
Qed.

Lemma lstrip_head drop l c : head (lstrip drop l) = Some c → drop c = false.
Proof.
  induction l as [|c' l IH]; [discriminate|]. cbn.
  destruct (drop c') eqn:E; [exact IH|]. now intros [= <-].
Qed.

Lemma lstrip_id drop l :
  (∀ c, head l = Some c → drop c = false) → lstrip drop l = l.
Proof. destruct l as [|c l]; [reflexivity|]. cbn. intros H. now rewrite H. Qed.

Lemma strip_infix drop l : ∃ front back, l = front ++ strip drop l ++ back.
Proof.
  unfold strip. destruct (lstrip_suffix drop l) as [front Hfront].
  destruct (lstrip_suffix drop (rev (lstrip drop l))) as [back Hback].
  exists front, (rev back). rewrite <- rev_app_distr, <- Hback, rev_involutive.
  exact Hfront.
Qed.

Lemma head_rev l : head (rev l) = last l.
Proof.
  induction l as [|c l IH] using rev_ind; [reflexivity|].
  now rewrite rev_app_distr, last_snoc.
Qed.

Lemma last_rev l : last (rev l) = head l.
Proof. now rewrite <- head_rev, rev_involutive. Qed.

Lemma strip_last drop l c : last (strip drop l) = Some c → drop c = false.
Proof. unfold strip. rewrite last_rev. apply lstrip_head. Qed.

Lemma head_app_Some l l' c : head l = Some c → head (l ++ l') = Some c.
Proof. now destruct l. Qed.

Lemma strip_head drop l c : head (strip drop l) = Some c → drop c = false.
Proof.
  unfold strip. intros Hc.
  destruct (lstrip_suffix drop (rev (lstrip drop l))) as [back Hback].
  apply (f_equal (@rev ascii)) in Hback.
  rewrite rev_involutive, rev_app_distr in Hback.
  apply (lstrip_head drop l c). rewrite Hback. now apply head_app_Some.
Qed.

Lemma strip_id drop l :
  (∀ c, head l = Some c → drop c = false) →
  (∀ c, last l = Some c → drop c = false) →
  strip drop l = l.
Proof.
  intros Hhead Hlast. unfold strip. rewrite (lstrip_id drop l Hhead).
  rewrite lstrip_id; [apply rev_involutive|]. now rewrite head_rev.
Qed.

(** *** Well-formedness of a part *)

Lemma well_formed_app after l l' :
  well_formed after (l ++ l') = true →
  well_formed after l = true ∧ well_formed false l' = true.
Proof.
  revert after. induction l as [|c l IH]; intros after; cbn [app well_formed].
  - intros H. split; [reflexivity|]. eapply well_formed_weaken, H.
  - destruct (is_lower_alnum c); [apply IH|].
    intros [H1 [H2 H3]%IH]%andb_true_iff. rewrite H1, H2. auto.
Qed.

Lemma well_formed_infix front l back :
  well_formed false (front ++ l ++ back) = true → well_formed false l = true.
Proof. intros [_ [H _]%well_formed_app]%well_formed_app. exact H. Qed.


Lemma well_formed_alphabet after l :
  well_formed after l = true →
  Forall (λ c, is_lower_alnum c = true ∨ c = underscore) l.
Proof.
  revert after. induction l as [|c l IH]; intros after; [constructor|].
  cbn [well_formed]. destruct (is_lower_alnum c) eqn:E.
  - intros H. constructor; [now left|eapply IH, H].
  - intros [[->%Ascii.eqb_eq _]%andb_true_iff H]%andb_true_iff.
    constructor; [now right|eapply IH, H].
Qed.

Lemma well_formed_after l :
  well_formed true l = true → head l ≠ Some underscore.
Proof.
  destruct l as [|c l]; [discriminate|]. cbn.
  destruct (is_lower_alnum c) eqn:E; [now intros _ [= ->]|].
  now rewrite andb_false_r.
Qed.

Lemma well_formed_adjacent after l (i : nat) :
  well_formed after l = true →
  l !! i = Some underscore → l !! S i ≠ Some underscore.
Proof.
  revert after i. induction l as [|c l IH]; intros after i; [discriminate|].
  cbn [well_formed]. destruct i as [|i].
  - intros H [= ->]. change (is_lower_alnum underscore) with false in H.
    apply andb_true_iff in H as [_ H]. apply well_formed_after in H.
    cbn. now destruct l.
  - destruct (is_lower_alnum c).
    + intros H. apply (IH _ i H).
    + intros [_ H]%andb_true_iff. apply (IH _ i H).
Qed.

Lemma alnum_not_space c : is_lower_alnum c = true → is_space c = false.
Proof.
  unfold is_lower_alnum, is_space. cbn zeta.
  rewrite orb_true_iff, orb_false_iff, !bool_decide_eq_true, !bool_decide_eq_false.
  lia.
Qed.

Lemma alnum_lower c : is_lower_alnum c = true → lower_char c = c.
Proof.
  unfold is_lower_alnum, lower_char. cbn zeta.
  rewrite orb_true_iff, !bool_decide_eq_true. intros H.
  rewrite bool_decide_eq_false_2 by lia. reflexivity.
Qed.

(** The three passes of [_slugify], on the list of characters. *)
Definition slugify_list l : list ascii :=
  strip (λ c, Ascii.eqb c "_")
        (sub_non_alnum false (map lower_char (strip is_space l))).

Lemma slugify_list_slug l : slug (slugify_list l).
Proof.
  unfold slugify_list, slug.
  set (body := sub_non_alnum false _). split; [|split].
  - destruct (strip_infix (λ c, Ascii.eqb c "_") body) as (front & back & E).
    apply (well_formed_infix front _ back). rewrite <- E.
    apply well_formed_sub_non_alnum.
  - intros H%strip_head. discriminate.
  - intros H%strip_last. discriminate.
Qed.

Lemma slug_edges l c :
  slug l → head l = Some c ∨ last l = Some c → is_lower_alnum c = true.
Proof.
  intros (Hwf & Hhead & Hlast) Hc.
  apply well_formed_alphabet in Hwf.
  assert (c ∈ l) as Hin.
  { destruct Hc as [Hc|Hc].
    - destruct l; [discriminate|]. injection Hc as ->. now left.
    - apply last_Some in Hc as [l' ->]. apply elem_of_app. right. now left. }
  rewrite Forall_forall in Hwf. destruct (Hwf c Hin) as [E| ->]; [exact E|].
  destruct Hc; contradiction.
Qed.

Lemma slugify_list_fixed l : slug l → slugify_list l = l.
Proof.
  intros Hl. pose proof Hl as (Hwf & Hhead & Hlast). unfold slugify_list.
  rewrite (strip_id is_space l).
  2:{ intros c Hc. apply alnum_not_space, (slug_edges l c Hl). now left. }
  2:{ intros c Hc. apply alnum_not_space, (slug_edges l c Hl). now right. }
  replace (map lower_char l) with l.
  2:{ symmetry. rewrite <- (map_id l) at 2. apply map_ext_Forall.
      eapply Forall_impl; [apply (well_formed_alphabet _ _ Hwf)|].
      intros c [E| ->]; [now apply alnum_lower|reflexivity]. }
  rewrite (sub_non_alnum_well_formed _ _ Hwf).
  apply strip_id; intros c Hc; apply Ascii.eqb_neq; intros ->; contradiction.
Qed.

Lemma _slugify_list value :
  list_ascii_of_string (_slugify value)
  = slugify_list (list_ascii_of_string value).
Proof. unfold _slugify. apply list_ascii_of_string_of_list_ascii. Qed.

(** X17. For every name, [_slugify] returns a string of lower-case ASCII
    letters, digits and underscores in which no underscore stands at either
    end or next to another one; and a slug is its own slug: applied to
    what it has returned, [_slugify] returns it again. *)
Theorem _slugify_returns_a_slug (value : string) :
  Forall (λ c, is_lower_alnum c = true ∨ c = "_"%char)
         (list_ascii_of_string (_slugify value))
  ∧ head (list_ascii_of_string (_slugify value)) ≠ Some "_"%char
  ∧ last (list_ascii_of_string (_slugify value)) ≠ Some "_"%char
  ∧ (∀ i : nat, list_ascii_of_string (_slugify value) !! i = Some "_"%char →
       list_ascii_of_string (_slugify value) !! S i ≠ Some "_"%char)
  ∧ _slugify (_slugify value) = _slugify value.
Proof.
  pose proof (slugify_list_slug (list_ascii_of_string value)) as Hslug.
  rewrite <- _slugify_list in Hslug. pose proof Hslug as (Hwf & Hhead & Hlast).
  split; [now apply (well_formed_alphabet false)|].
  split; [exact Hhead|]. split; [exact Hlast|].
  split; [intros i; now apply (well_formed_adjacent false)|].
  rewrite <- (string_of_list_ascii_of_string (_slugify (_slugify value))).
  rewrite _slugify_list, (slugify_list_fixed _ Hslug).
  apply string_of_list_ascii_of_string.
Qed.

End SlugProps.

(** ** data_collection/accuweather.py: the staged files *)

Module AccuweatherFilesProps.
Import Python Accuweather AccuweatherStageProps.

Section orchestrator.
Context {Row Meta Exn : Type}.
Variable CITY_REFERENCE : list (string * Meta).
Variable str : Exn → string.
Variable get_hourly_forecast_12h_by_city :
  AccuWeatherClient → string → Options → result Exn (list Row).
Variable annotate : string → Meta → Z → Options → list Row → result Exn (list Row).

Implicit Types (st : Loop (Row := Row)) (item : string * Meta)
  (registry : list (string * Meta)) (client : AccuWeatherClient)
  (options : Options) (p out_path ts_str : string) (timestamp : Z).

#[local] Abbreviation staged := (staged get_hourly_forecast_12h_by_city annotate).
#[local] Abbreviation stage_city :=
  (stage_city str get_hourly_forecast_12h_by_city annotate).

(** What one pass does to the files. *)
Lemma stage_city_files client out_path ts_str timestamp options st item :
  files (world (stage_city client out_path ts_str timestamp options st item))
  = match staged client timestamp options item with
    | Return df => <[staging_path out_path ts_str item.1 := df]> (files (world st))
    | Raise _ => files (world st)
    end.
Proof.
  destruct item as [city meta]. unfold stage_city, staged. cbn [fst snd].
  destruct (_ ≫= _); destruct (verbose options); reflexivity.
Qed.

Lemma stage_loop_untouched client out_path ts_str timestamp options p registry :
  ∀ st,
    (∀ city meta df, (city, meta) ∈ registry →
       staged client timestamp options (city, meta) = Return df →
       p ≠ staging_path out_path ts_str city) →
    files (world (foldl (stage_city client out_path ts_str timestamp options)
                        st registry)) !! p
    = files (world st) !! p.
Proof.
  induction registry as [|[city meta] registry IH]; intros st Hp; [reflexivity|].
  cbn [foldl]. rewrite IH.
  - rewrite stage_city_files.
    destruct (staged _ _ _ _) as [df|exc] eqn:Hdf; [|reflexivity].
    apply lookup_insert_ne. cbn [fst]. apply not_eq_sym.
    apply (Hp city meta df); [now left|exact Hdf].
  - intros city' meta' df Hin. apply Hp. now right.
Qed.

Lemma stage_loop_holds client out_path ts_str timestamp options registry :
  ∀ st city meta df,
    NoDup (map (λ item, staging_path out_path ts_str item.1) registry) →
    (city, meta) ∈ registry →
    staged client timestamp options (city, meta) = Return df →
    files (world (foldl (stage_city client out_path ts_str timestamp options)
                        st registry))
    !! staging_path out_path ts_str city
    = Some df.
Proof.
  induction registry as [|[c m] registry IH]; intros st city meta df Hnd Hin Hdf;
    [now apply elem_of_nil in Hin|].
  cbn [map fst] in Hnd. apply NoDup_cons in Hnd as [Hfirst Hnd].
  cbn [foldl]. apply elem_of_cons in Hin as [[= <- <-]|Hin].
  - rewrite stage_loop_untouched.
    + rewrite stage_city_files, Hdf. apply lookup_insert_eq.
    + intros city' meta' df' Hin' _ Heq. apply Hfirst.
      apply list_elem_of_fmap. exists (city', meta'). now split.
  - now apply (IH _ city meta df).
Qed.

(** The files after the whole run are those after the loop. *)
Lemma stage_files environment_key client out_path ts_str timestamp options w :
  new_client environment_key = Return client →
  files (stage_accuweather_12h_all_cities CITY_REFERENCE str
           get_hourly_forecast_12h_by_city annotate
           environment_key out_path ts_str timestamp options w).2
  = files (world (foldl (stage_city client out_path ts_str timestamp options)
                        (mkLoop [] ∅ w) CITY_REFERENCE)).
Proof.
  intros Hclient. unfold stage_accuweather_12h_all_cities. rewrite Hclient.
  destruct (frames _); [reflexivity|]. cbn [snd]. now destruct (_ && _).
Qed.

(** X18. The files of a run of [stage_accuweather_12h_all_cities]: without
    an API key nothing is written or printed; with one, a path that is not
    the staging path of a city that succeeded holds what it held before
    (so a run in which every city fails writes nothing), and, when no two
    cities of the registry share a staging path, the file of a city that
    succeeded holds exactly the rows fetched and annotated for it. *)
Theorem stage_writes_the_staged_frames environment_key out_path ts_str timestamp
    options w :
  (∀ e, new_client environment_key = Raise e →
     stage_accuweather_12h_all_cities CITY_REFERENCE str
       get_hourly_forecast_12h_by_city annotate
       environment_key out_path ts_str timestamp options w
     = (Raise (ClientError e), w))
  ∧ (∀ client, new_client environment_key = Return client →
       (∀ p,
          (∀ city meta df, (city, meta) ∈ CITY_REFERENCE →
             staged client timestamp options (city, meta) = Return df →
             p ≠ staging_path out_path ts_str city) →
          files (stage_accuweather_12h_all_cities CITY_REFERENCE str
                   get_hourly_forecast_12h_by_city annotate
                   environment_key out_path ts_str timestamp options w).2 !! p
          = files w !! p)
       ∧ (NoDup (map (λ item, staging_path out_path ts_str item.1)
                     CITY_REFERENCE) →
          ∀ city meta df, (city, meta) ∈ CITY_REFERENCE →
            staged client timestamp options (city, meta) = Return df →
            files (stage_accuweather_12h_all_cities CITY_REFERENCE str
                     get_hourly_forecast_12h_by_city annotate
                     environment_key out_path ts_str timestamp options w).2
            !! staging_path out_path ts_str city
            = Some df)).
Proof.
  split.
  - intros e Hclient. unfold stage_accuweather_12h_all_cities. now rewrite Hclient.
  - intros client Hclient.
    rewrite (stage_files _ _ _ _ _ _ _ Hclient). split.
    + intros p Hp. now rewrite stage_loop_untouched.
    + intros Hnd city meta df Hin Hdf. now apply (stage_loop_holds _ _ _ _ _ _ _ _ meta).
Qed.

End orchestrator.

End AccuweatherFilesProps.

(** ** data_collection/file_search.py: dates as text *)

Module DateTextProps.
Import Python Datetime DatetimeProps FileSearch.

Implicit Types (s rest : string) (f : found) (d : date) (n y m dd : Z).

(** The first match of a list of alternatives. *)
Definition first_match {A} (l : list A) (x : A) : Prop := ∃ tl, l = x :: tl.

Lemma first_match_bind {A B} (l : list A) (k : A → list B) (a : A) (b : B) :
  first_match l a → first_match (k a) b → first_match (l ≫= k) b.
Proof.
  intros [tl ->] [tl' Hk]. exists (tl' ++ (tl ≫= k)).
  rewrite bind_cons, Hk. reflexivity.
Qed.

Lemma digit_value_digit_char n :
  digit_value (digit_char n) = Some (n mod 10).
Proof.
  unfold digit_value, digit_char. cbn zeta.
  assert (0 ≤ n mod 10 < 10) as Hn by (apply Z.mod_pos_bound; lia).
  rewrite nat_ascii_embedding by lia.
  rewrite bool_decide_eq_true_2 by lia. f_equal. lia.
Qed.

Lemma app_String c s rest : String c s +:+ rest = String c (s +:+ rest).
Proof. reflexivity. Qed.

Lemma app_empty rest : "" +:+ rest = rest.
Proof. reflexivity. Qed.

Lemma digit_in_digit_char lo hi n rest :
  digit_in lo hi (String (digit_char n) rest)
  = if bool_decide (lo ≤ n mod 10 ≤ hi) then [(n mod 10, rest)] else [].
Proof. unfold digit_in. now rewrite digit_value_digit_char. Qed.

Lemma bind_one {A B} (a : A) (k : A → list B) : [a] ≫= k = k a.
Proof. cbn. apply app_nil_r. Qed.

Lemma two_digits_chars a b rest :
  two_digits 0 9 0 9 (String (digit_char a) (String (digit_char b) rest))
  = [(10 * (a mod 10) + b mod 10, rest)].
Proof.
  unfold two_digits.
  assert (0 ≤ a mod 10 < 10) by (apply Z.mod_pos_bound; lia).
  assert (0 ≤ b mod 10 < 10) by (apply Z.mod_pos_bound; lia).
  rewrite digit_in_digit_char, bool_decide_eq_true_2, bind_one by lia.
  now rewrite digit_in_digit_char, bool_decide_eq_true_2, bind_one by lia.
Qed.

Lemma pad2_chars n rest :
  pad2 n +:+ rest = String (digit_char (n / 10)) (String (digit_char n) rest).
Proof. reflexivity. Qed.

Lemma pad4_chars y rest :
  pad4 y +:+ rest
  = String (digit_char (y / 100 / 10))
      (String (digit_char (y / 100))
         (String (digit_char (y / 10)) (String (digit_char y) rest))).
Proof. reflexivity. Qed.

Lemma two_digits_pad2 n rest :
  0 ≤ n < 100 → two_digits 0 9 0 9 (pad2 n +:+ rest) = [(n, rest)].
Proof.
  intros Hn. rewrite pad2_chars, two_digits_chars.
  do 2 f_equal. Z.div_mod_to_equations. lia.
Qed.

Lemma year_digits y :
  0 ≤ y ≤ 9999 →
  100 * (10 * ((y / 100 / 10) mod 10) + (y / 100) mod 10)
  + (10 * ((y / 10) mod 10) + y mod 10) = y.
Proof.
  intros Hy.
  pose proof (Z.div_mod y 10 ltac:(lia)).
  pose proof (Z.div_mod (y / 10) 10 ltac:(lia)).
  pose proof (Z.mod_pos_bound y 10 ltac:(lia)).
  pose proof (Z.mod_pos_bound (y / 10) 10 ltac:(lia)).
  pose proof (Z.mod_pos_bound (y / 100) 10 ltac:(lia)).
  assert (y / 100 = y / 10 / 10) as E by (now rewrite Z.div_div by lia).
  assert (y / 100 / 10 < 10)
    by (apply Z.div_lt_upper_bound; [lia|]; apply Z.div_lt_upper_bound; lia).
  assert (0 ≤ y / 100 / 10) by (apply Z.div_pos; [apply Z.div_pos|]; lia).
  rewrite (Z.mod_small (y / 100 / 10)) by lia.
  pose proof (Z.div_mod (y / 100) 10 ltac:(lia)).
  rewrite E in *. lia.
Qed.

Lemma match_Year4 f y rest :
  0 ≤ y ≤ 9999 →
  match_directive Year4 f (pad4 y +:+ rest)
  = [(mkFound (Some y) (found_month f) (found_day f), rest)].
Proof.
  intros Hy. cbn [match_directive]. rewrite pad4_chars.
  rewrite two_digits_chars, bind_one. cbv beta iota.
  rewrite two_digits_chars, bind_one. cbv beta iota.
  now rewrite year_digits.
Qed.

(** The century the matcher gives a year of two digits. *)
Definition pivot (yy : Z) : Z := if bool_decide (yy ≤ 68) then 2000 + yy else 1900 + yy.

Lemma match_Year2 f yy rest :
  0 ≤ yy < 100 →
  match_directive Year2 f (pad2 yy +:+ rest)
  = [(mkFound (Some (pivot yy)) (found_month f) (found_day f), rest)].
Proof.
  intros Hy. cbn [match_directive]. now rewrite two_digits_pad2, bind_one.
Qed.

Lemma match_MonthNumber f m rest :
  1 ≤ m ≤ 12 →
  first_match (match_directive MonthNumber f (pad2 m +:+ rest))
              (mkFound (found_year f) (Some m) (found_day f), rest).
Proof.
  intros Hm. month_cases m; eexists; vm_compute; reflexivity.
Qed.

Lemma match_DayOfMonth f dd rest :
  1 ≤ dd ≤ 31 →
  first_match (match_directive DayOfMonth f (pad2 dd +:+ rest))
              (mkFound (found_year f) (found_month f) (Some dd), rest).
Proof.
  intros Hd.
  assert (∃ k : nat, (k < 31)%nat ∧ dd = 1 + Z.of_nat k) as (k & Hk & ->).
  { exists (Z.to_nat (dd - 1)). lia. }
  do 31 (destruct k as [|k]; [eexists; vm_compute; reflexivity|]). lia.
Qed.

Lemma match_Literal f c rest :
  match_directive (Literal c) f (String c rest) = [(f, rest)].
Proof. cbn. now rewrite Ascii.eqb_refl. Qed.


(** *** Reading back what was written *)

(** What a directive that writes digits gives the matcher to read. *)
Definition numeric (dir : directive) : Prop :=
  match dir with
  | Year4 | MonthNumber | DayOfMonth | Literal _ => True
  | Year2 | MonthAbbr => False
  end.

Definition reading (d : date) (f : found) (dir : directive) : found :=
  match dir with
  | Year4 | Year2 => mkFound (Some (year d)) (found_month f) (found_day f)
  | MonthNumber | MonthAbbr => mkFound (found_year f) (Some (month d)) (found_day f)
  | DayOfMonth => mkFound (found_year f) (found_month f) (Some (day d))
  | Literal _ => f
  end.

Lemma first_match_one {A} (a : A) : first_match [a] a.
Proof. now exists []. Qed.

Lemma valid_day d : valid d → 1 ≤ day d ≤ 31.
Proof.
  intros (_ & Hm & Hd). pose proof (valid_month_length (year d) _ Hm). lia.
Qed.

Lemma match_directive_format dir d f rest :
  valid d → numeric dir →
  first_match (match_directive dir f (format_directive dir d +:+ rest))
              (reading d f dir, rest).
Proof.
  intros Hd Hdir. pose proof Hd as (Hy & Hm & _).
  unfold MINYEAR, MAXYEAR in Hy.
  destruct dir; try contradiction; cbn [format_directive reading].
  - rewrite match_Year4 by lia. apply first_match_one.
  - now apply match_MonthNumber.
  - now apply match_DayOfMonth, valid_day.
  - rewrite app_String, app_empty, match_Literal. apply first_match_one.
Qed.

Lemma match_format_cons dir fmt f s f' s' r :
  first_match (match_directive dir f s) (f', s') →
  first_match (match_format fmt f' s') r →
  first_match (match_format (dir :: fmt) f s) r.
Proof.
  intros Hdir Hfmt. cbn [match_format].
  apply (first_match_bind _ _ (f', s')); assumption.
Qed.

Lemma strftime_cons d dir fmt :
  strftime d (dir :: fmt) = format_directive dir d +:+ strftime d fmt.
Proof. reflexivity. Qed.

Lemma match_format_strftime fmt d : ∀ f,
  valid d → Forall numeric fmt →
  first_match (match_format fmt f (strftime d fmt))
              (foldl (reading d) f fmt, ""%string).
Proof.
  induction fmt as [|dir fmt IH]; intros f Hd Hfmt; [apply first_match_one|].
  apply Forall_cons in Hfmt as [Hdir Hfmt]. rewrite strftime_cons.
  eapply match_format_cons; [now apply match_directive_format|].
  now apply IH.
Qed.

Lemma strptime_first fmt s f :
  first_match (match_format fmt (mkFound None None None) s) (f, ""%string) →
  strptime s fmt
  = new_date (default 1900 (found_year f)) (default 1 (found_month f))
             (default 1 (found_day f)).
Proof. intros [tl Hs]. unfold strptime. now rewrite Hs. Qed.

Lemma new_date_of d : valid d → new_date (year d) (month d) (day d) = Return d.
Proof.
  intros Hd. unfold new_date. destruct d as [y m dd]. cbn [year month day].
  now rewrite decide_True.
Qed.

Lemma strptime_strftime_numeric d fmt f :
  valid d → Forall numeric fmt →
  foldl (reading d) (mkFound None None None) fmt = f →
  found_year f = Some (year d) → found_month f = Some (month d) →
  found_day f = Some (day d) →
  strptime (strftime d fmt) fmt = Return d.
Proof.
  intros Hd Hfmt Hf Hy Hm Hdd.
  rewrite (strptime_first fmt _ f).
  - rewrite Hy, Hm, Hdd. now apply new_date_of.
  - rewrite <- Hf. now apply match_format_strftime.
Qed.

(** *** The format with a month name *)

Lemma to_upper_digit_char n : to_upper (digit_char n) = digit_char n.
Proof.
  unfold to_upper, digit_char.
  assert (0 ≤ n mod 10 < 10) as Hn by (apply Z.mod_pos_bound; lia).
  rewrite nat_ascii_embedding by lia. now rewrite bool_decide_eq_false_2 by lia.
Qed.

Lemma to_lower_digit_char n : to_lower (digit_char n) = digit_char n.
Proof.
  unfold to_lower, digit_char.
  assert (0 ≤ n mod 10 < 10) as Hn by (apply Z.mod_pos_bound; lia).
  rewrite nat_ascii_embedding by lia. now rewrite bool_decide_eq_false_2 by lia.
Qed.

(** The name of a month in lower case. *)
Definition lower_abbr (m : Z) : string := lower (month_abbr !!! Z.to_nat (m - 1)).

Lemma map_string_app g s rest :
  map_string g (s +:+ rest) = map_string g s +:+ map_string g rest.
Proof.
  induction s as [|c s IH]; [reflexivity|].
  rewrite app_String. cbn [map_string]. now rewrite IH.
Qed.

Lemma lower_upper_abbr m :
  1 ≤ m ≤ 12 → lower (upper (month_abbr !!! Z.to_nat (m - 1))) = lower_abbr m.
Proof. intros Hm. month_cases m; reflexivity. Qed.

Lemma capitalize_upper_name yy m dd :
  1 ≤ m ≤ 12 →
  capitalize (upper (pad2 yy +:+ month_abbr !!! Z.to_nat (m - 1) +:+ pad2 dd +:+ ""))
  = pad2 yy +:+ lower_abbr m +:+ pad2 dd +:+ "".
Proof.
  intros Hm. rewrite !pad2_chars. unfold upper. cbn [map_string capitalize].
  unfold lower. cbn [map_string]. rewrite !map_string_app. cbn [map_string].
  rewrite !to_upper_digit_char, !to_lower_digit_char.
  now rewrite <- (lower_upper_abbr m Hm).
Qed.

Lemma match_MonthAbbr f m (c3 c4 : ascii) :
  1 ≤ m ≤ 12 →
  first_match
    (match_directive MonthAbbr f (lower_abbr m +:+ String c3 (String c4 "")))
    (mkFound (found_year f) (Some m) (found_day f), String c3 (String c4 "")).
Proof. intros Hm. month_cases m; eexists; vm_compute; reflexivity. Qed.

Lemma is_leap_pivot y :
  _is_leap y = true → _is_leap (pivot (y mod 100)) = true.
Proof.
  unfold _is_leap, pivot.
  rewrite !andb_true_iff, !orb_true_iff, !negb_true_iff, !bool_decide_eq_true,
    !bool_decide_eq_false.
  intros [H4 H100]. case_bool_decide; split; Z.div_mod_to_equations; lia.
Qed.

Lemma valid_pivot d :
  valid d → valid (mkDate (pivot (year d mod 100)) (month d) (day d)).
Proof.
  intros (Hy & Hm & Hd). unfold valid. cbn [year month day].
  assert (0 ≤ year d mod 100 < 100) by (apply Z.mod_pos_bound; lia).
  split; [unfold pivot, MINYEAR, MAXYEAR; case_bool_decide; lia|]. split; [exact Hm|].
  split; [lia|]. etransitivity; [apply Hd|].
  unfold _days_in_month.
  destruct (bool_decide (month d = 2)) eqn:E2; cbn [andb]; [|lia].
  destruct (_is_leap (year d)) eqn:El.
  - rewrite (is_leap_pivot _ El). lia.
  - apply bool_decide_eq_true in E2. rewrite E2.
    destruct (_is_leap (pivot _)); vm_compute; intros [=].
Qed.

Lemma strptime_name_format d :
  valid d →
  strptime (pad2 (year d mod 100) +:+ lower_abbr (month d) +:+ pad2 (day d) +:+ "")
           [Year2; MonthAbbr; DayOfMonth]
  = Return (mkDate (pivot (year d mod 100)) (month d) (day d)).
Proof.
  intros Hd. pose proof Hd as (Hy & Hm & _).
  assert (0 ≤ year d mod 100 < 100) by (apply Z.mod_pos_bound; lia).
  rewrite (strptime_first _ _
             (mkFound (Some (pivot (year d mod 100))) (Some (month d))
                      (Some (day d)))).
  - cbn [found_year found_month found_day default].
    apply (new_date_of (mkDate _ _ _)). now apply valid_pivot.
  - eapply match_format_cons.
    { rewrite match_Year2 by assumption. apply first_match_one. }
    eapply match_format_cons.
    { rewrite pad2_chars. now apply match_MonthAbbr. }
    eapply match_format_cons.
    { rewrite <- (pad2_chars (day d) ""). now apply match_DayOfMonth, valid_day. }
    apply first_match_one.
Qed.

Lemma _format_date_name d :
  _format_date d "YYMMMDD"
  = Return (upper (strftime d [Year2; MonthAbbr; DayOfMonth])).
Proof. reflexivity. Qed.

Lemma _parse_date_name s :
  _parse_date s "YYMMMDD"
  = match strptime (capitalize s) [Year2; MonthAbbr; DayOfMonth] with
    | Return d => Return d
    | Raise _ => Raise (ValueError "Could not parse date_str")
    end.
Proof. reflexivity. Qed.

Lemma _parse_date__format_date_name d :
  valid d →
  ∃ s, _format_date d "YYMMMDD" = Return s
       ∧ _parse_date s "YYMMMDD"
         = Return (mkDate (pivot (year d mod 100)) (month d) (day d)).
Proof.
  intros Hd. eexists. split; [apply _format_date_name|].
  rewrite _parse_date_name. unfold strftime. cbn [foldr format_directive].
  rewrite capitalize_upper_name by apply Hd.
  now rewrite strptime_name_format.
Qed.

Lemma _parse_date__format_date_numeric d date_format fmt :
  valid d → Forall numeric fmt →
  dict_get _DATE_FORMAT_MAP date_format = Some fmt →
  date_format ≠ "YYMMMDD"%string →
  strptime (strftime d fmt) fmt = Return d →
  ∃ s, _format_date d date_format = Return s
       ∧ _parse_date s date_format = Return d.
Proof.
  intros Hd Hfmt Hget Hname Hread. exists (strftime d fmt).
  unfold _format_date, _parse_date.
  rewrite Hget, !bool_decide_eq_false_2 by exact Hname. now rewrite Hread.
Qed.



End DateTextProps.

(** ** data_collection/file_search.py: the candidates in order *)

Module CandidateProps.
Import Python FileSearch FileSearchProps.

Lemma lookup_bind_uniform {A B} (f : A → list B) (l : list A) (n i j : nat) x y :
  (∀ a, length (f a) = n) → l !! i = Some x → f x !! j = Some y →
  (l ≫= f) !! (i * n + j)%nat = Some y.
Proof.
  intros Hf. revert i. induction l as [|a l IH]; intros i Hi Hj; [discriminate|].
  cbn [mbind list_bind]. destruct i as [|i].
  - injection Hi as ->. cbn. now apply lookup_app_l_Some.
  - cbn in Hi. rewrite lookup_app_r by (rewrite Hf; lia).
    rewrite Hf. replace (S i * n + j - n)%nat with (i * n + j)%nat by lia.
    now apply IH.
Qed.

Lemma combinations_lookup prefixes dates suffixes (i j k : nat) p d s :
  prefixes !! i = Some p → dates !! j = Some d → suffixes !! k = Some s →
  combinations prefixes dates suffixes
  !! ((i * length dates + j) * length suffixes + k)%nat
  = Some (p +:+ d +:+ s).
Proof.
  intros Hp Hd Hs. unfold combinations.
  replace ((i * length dates + j) * length suffixes + k)%nat
    with (i * (length dates * length suffixes) + (j * length suffixes + k))%nat
    by lia.
  eapply lookup_bind_uniform; [|exact Hp|].
  - intros a. apply length_bind_uniform. intros b.
    rewrite (length_bind_uniform _ _ 1%nat) by reflexivity. lia.
  - eapply lookup_bind_uniform; [|exact Hd|].
    + intros b. rewrite (length_bind_uniform _ _ 1%nat) by reflexivity. lia.
    + replace k with (k * 1 + 0)%nat by lia.
      eapply lookup_bind_uniform; [reflexivity|exact Hs|reflexivity].
Qed.

Lemma combinations_elem_of prefixes dates suffixes c :
  c ∈ combinations prefixes dates suffixes →
  ∃ p d s, p ∈ prefixes ∧ d ∈ dates ∧ s ∈ suffixes ∧ c = p +:+ d +:+ s.
Proof.
  unfold combinations.
  intros (p & (d & (s & Hc & Hs)%list_elem_of_bind & Hd)%list_elem_of_bind & Hp)%list_elem_of_bind.
  apply list_elem_of_singleton in Hc. eauto 10.
Qed.

(** The suffixes the function goes through: those it is given when the
    argument counts as true, the empty suffix alone otherwise. *)
Definition suffixes_used (suffixes : option (iterable string)) : list string :=
  match suffixes with
  | Some suffixes => if truth suffixes then list_of suffixes else [""%string]
  | None => [""%string]
  end.

Lemma suffixes_used_cases suffixes :
  suffixes_used suffixes
  = match suffixes with
    | Some (Iterator []) => []
    | _ => promised_suffixes suffixes
    end.
Proof. destruct suffixes as [[[|x xs]|[|x xs]]|]; reflexivity. Qed.

(** X21. When [build_file_stem_candidates] returns, with at least one
    prefix, its result lists one candidate for every choice of a prefix, a
    date and a suffix and nothing else: the candidate of the i-th prefix,
    the j-th date and the k-th suffix is their concatenation and stands at
    position (i * #dates + j) * #suffixes + k, so prefixes vary slowest and
    suffixes fastest. *)
Theorem build_file_stem_candidates_positions prefixes dates suffixes out :
  build_file_stem_candidates prefixes dates suffixes = Return out →
  length out
  = (length (list_of prefixes) * length (list_of dates)
     * length (suffixes_used suffixes))%nat
  ∧ (∀ (i j k : nat) p d s,
       list_of prefixes !! i = Some p → list_of dates !! j = Some d →
       suffixes_used suffixes !! k = Some s →
       out !! ((i * length (list_of dates) + j)
               * length (suffixes_used suffixes) + k)%nat
       = Some (p +:+ d +:+ s))
  ∧ (∀ c, c ∈ out →
       ∃ p d s, p ∈ list_of prefixes ∧ d ∈ list_of dates
                ∧ s ∈ suffixes_used suffixes ∧ c = p +:+ d +:+ s).
Proof.
  intros Hout.
  destruct (build_file_stem_candidates_cases prefixes dates suffixes)
    as (Hnone & Hnodates & Hsome).
  destruct (decide (list_of prefixes = [])) as [Hp|Hp];
    [rewrite (Hnone Hp) in Hout; discriminate|].
  destruct (decide (list_of dates = [])) as [Hd|Hd].
  - rewrite (Hnodates Hp Hd) in Hout. injection Hout as <-. rewrite Hd.
    split; [cbn; lia|]. split; [intros i j k p d s _ [=]|].
    intros c Hc. now apply elem_of_nil in Hc.
  - rewrite (Hsome Hp Hd) in Hout. injection Hout as <-.
    rewrite <- suffixes_used_cases.
    split; [rewrite combinations_length; lia|]. split.
    + intros i j k p d s. apply combinations_lookup.
    + apply combinations_elem_of.
Qed.

Lemma build_file_stem_candidates_positions_witness :
  length ["a_d1_x"; "a_d1_y"; "a_d2_x"; "a_d2_y";
          "b_d1_x"; "b_d1_y"; "b_d2_x"; "b_d2_y"]%string
  = (length (list_of (Container ["a_"; "b_"]%string))
     * length (list_of (Iterator ["d1"; "d2"]%string))
     * length (suffixes_used (Some (Container ["_x"; "_y"]%string))))%nat
  ∧ (∀ (i j k : nat) p d s,
       list_of (Container ["a_"; "b_"]%string) !! i = Some p →
       list_of (Iterator ["d1"; "d2"]%string) !! j = Some d →
       suffixes_used (Some (Container ["_x"; "_y"]%string)) !! k = Some s →
       ["a_d1_x"; "a_d1_y"; "a_d2_x"; "a_d2_y";
        "b_d1_x"; "b_d1_y"; "b_d2_x"; "b_d2_y"]%string
       !! ((i * length (list_of (Iterator ["d1"; "d2"]%string)) + j)
           * length (suffixes_used (Some (Container ["_x"; "_y"]%string))) + k)%nat
       = Some (p +:+ d +:+ s))
  ∧ (∀ c, c ∈ ["a_d1_x"; "a_d1_y"; "a_d2_x"; "a_d2_y";
                "b_d1_x"; "b_d1_y"; "b_d2_x"; "b_d2_y"]%string →
       ∃ p d s, p ∈ list_of (Container ["a_"; "b_"]%string)
                ∧ d ∈ list_of (Iterator ["d1"; "d2"]%string)
                ∧ s ∈ suffixes_used (Some (Container ["_x"; "_y"]%string))
                ∧ c = p +:+ d +:+ s).
Proof.
  apply (build_file_stem_candidates_positions
           (Container ["a_"; "b_"]%string) (Iterator ["d1"; "d2"]%string)
           (Some (Container ["_x"; "_y"]%string))).
  reflexivity.
Defined.

End CandidateProps.

(** ** data_collection/openmeteo.py: the rows of a response *)

Module OpenmeteoRowsProps.
Import Python Openmeteo OpenmeteoProps.

Implicit Types (responses : list Response) (models : list string)
  (response : Response).

(** The number of buckets of a half-open range with a positive step. *)
Definition buckets (start end_ freq : Z) : Z := (end_ - start + freq - 1) / freq.

Lemma date_range_positive start end_ freq :
  0 < freq →
  date_range start end_ freq
  = Return (map (λ k, start + k * freq) (seqZ 0 (buckets start end_ freq))).
Proof.
  intros Hf. unfold date_range, buckets.
  rewrite bool_decide_eq_false_2 by lia. now rewrite bool_decide_eq_true_2 by lia.
Qed.

Lemma bucket_before_end start end_ freq (k : nat) :
  0 < freq → Z.of_nat k < buckets start end_ freq →
  start + Z.of_nat k * freq < end_.
Proof.
  unfold buckets. intros Hf Hk.
  assert (Z.of_nat k + 1 ≤ (end_ - start + freq - 1) / freq) as Hle by lia.
  apply (Z.mul_le_mono_nonneg_r _ _ freq) in Hle; [|lia].
  pose proof (Z.mul_div_le (end_ - start + freq - 1) freq Hf). nia.
Qed.

Lemma hourly_rows_positive ts city name response :
  0 < Hourly_Interval response →
  hourly_rows ts city name response
  = if bool_decide (Z.to_nat (buckets (Hourly_Time response) (Hourly_TimeEnd response)
                                      (Hourly_Interval response))
                    = length (Hourly_Values response))
    then Return
           (imap (λ k v, (Z.of_nat k,
                          mkRow (Hourly_Time response
                                 + Z.of_nat k * Hourly_Interval response)
                                v city (Current_Time response) ts name
                                (Model response)))
                 (Hourly_Values response))
    else Raise (ValueError "All arrays must be of the same length").
Proof.
  intros Hf. unfold hourly_rows. rewrite date_range_positive by exact Hf.
  cbn [mbind result_bind]. unfold new_frame.
  rewrite length_map, length_seqZ.
  case_bool_decide as Hlen; [|reflexivity]. cbn [mbind result_bind]. f_equal.
  unfold add_multi_model_metadata. apply list_eq. intros k.
  change (map ?g ?l) with (g <$> l).
  rewrite list_lookup_fmap, !list_lookup_imap.
  destruct (Hourly_Values response !! k) as [v|] eqn:Hv.
  - assert (k < length (Hourly_Values response))%nat as Hk
      by (eapply lookup_lt_Some, Hv).
    match goal with |- context [zip ?a ?b !! k] =>
      assert (zip a b !! k
              = Some (Hourly_Time response + Z.of_nat k * Hourly_Interval response, v))
        as ->
    end; [|reflexivity].
    apply lookup_zip_Some. split; [|exact Hv].
    change (map ?g ?l) with (g <$> l).
    rewrite list_lookup_fmap, lookup_seqZ_lt by lia. reflexivity.
  - match goal with |- context [zip ?a ?b !! k] =>
      assert (zip a b !! k = None) as ->
    end; [|reflexivity].
    apply lookup_zip_None. now right.
Qed.



End OpenmeteoRowsProps.

(** ** data_collection/openmeteo.py: the run over all cities *)

Module OpenmeteoRunProps.
Import Python Openmeteo OpenmeteoRun.

Section run.
Context {Value Exn : Type}.
Variable weather_api : nat → string → Params Value → result Exn (list Response).
Variable now : nat → Z.
Variable isoformat : Z → string.

Implicit Types (cities : list (string * list (string * Value)))
  (keys : list string) (frames : list (list (Z * Row)))
  (fs : gmap string (list (Z * Row))).

(** The frame of one city, fetched as the [n]-th request of the run. *)
Definition city_frame cities (n : nat) (city : string)
  : result (raised Exn) (list (Z * Row)) :=
  params ← lift (update_multi_model_forecast_params cities city 3);
  responses ← call (weather_api n "https://api.open-meteo.com/v1/forecast" params);
  '(hourly_df, _) ← lift (parse_multi_model_response (now n) responses
                            (models params) city);
  Return hourly_df.

Lemma parse_multi_model_response_timestamp ts responses names city hourly_df ts' :
  parse_multi_model_response ts responses names city = Return (hourly_df, ts') →
  ts' = ts.
Proof.
  unfold parse_multi_model_response. destruct (parse_loop _ _ _ _ _ _); [|discriminate].
  now intros [= _ <-].
Qed.

Lemma cities_loop_cons cities city keys (n : nat) all_cities_df current_timestamp :
  cities_loop weather_api now cities (city :: keys) n all_cities_df current_timestamp
  = hourly_df ← city_frame cities n city;
    cities_loop weather_api now cities keys (S n) (all_cities_df ++ hourly_df)
                (Some (now n)).
Proof.
  cbn [cities_loop]. unfold city_frame.
  destruct (lift (update_multi_model_forecast_params _ _ _)) as [params|e];
    [|reflexivity].
  cbn [mbind result_bind].
  destruct (call _) as [responses|e]; [|reflexivity]. cbn [mbind result_bind].
  destruct (parse_multi_model_response _ _ _ _) as [[hourly_df ts]|e] eqn:Hparse;
    [|reflexivity].
  apply parse_multi_model_response_timestamp in Hparse as ->. reflexivity.
Qed.

Lemma cities_loop_raises cities keys : ∀ (n i : nat) all_cities_df ts city e,
  keys !! i = Some city →
  city_frame cities (n + i) city = Raise e →
  (∀ (j : nat) c, (j < i)%nat → keys !! j = Some c →
                  ∃ df, city_frame cities (n + j) c = Return df) →
  cities_loop weather_api now cities keys n all_cities_df ts = Raise e.
Proof.
  induction keys as [|c keys IH]; intros n i all_cities_df ts city e Hi He Hbefore;
    [discriminate|].
  rewrite cities_loop_cons. destruct i as [|i].
  - injection Hi as ->. rewrite Nat.add_0_r in He. now rewrite He.
  - destruct (Hbefore 0%nat c) as [df Hdf]; [lia|reflexivity|].
    rewrite Nat.add_0_r in Hdf. rewrite Hdf. cbn [mbind result_bind].
    apply (IH (S n) i _ _ city e Hi).
    + rewrite <- He. f_equal. lia.
    + intros j c' Hj Hc'. destruct (Hbefore (S j) c') as [df' Hdf']; [lia|exact Hc'|].
      exists df'. rewrite <- Hdf'. f_equal. lia.
Qed.

Lemma cities_loop_returns cities keys : ∀ (n : nat) all_cities_df ts frames,
  Forall2 (λ i df, ∃ city, keys !! i = Some city
                           ∧ city_frame cities (n + i) city = Return df)
          (seq 0 (length keys)) frames →
  cities_loop weather_api now cities keys n all_cities_df ts
  = Return (all_cities_df ++ mjoin frames,
            match keys with
            | [] => ts
            | _ :: _ => Some (now (n + length keys - 1)%nat)
            end).
Proof.
  induction keys as [|c keys IH]; intros n all_cities_df ts frames Hframes.
  - apply Forall2_nil_inv_l in Hframes as ->. cbn. now rewrite app_nil_r.
  - cbn [length seq] in Hframes.
    apply Forall2_cons_inv_l in Hframes as (df & frames' & (city & [= <-] & Hdf) & Hrest & ->).
    rewrite cities_loop_cons. rewrite Nat.add_0_r in Hdf. rewrite Hdf.
    cbn [mbind result_bind].
    rewrite (IH (S n) _ _ frames').
    + cbn [mjoin list_join]. rewrite app_assoc. f_equal. f_equal.
      destruct keys as [|c' keys]; cbn [length]; f_equal; f_equal; lia.
    + rewrite <- (fmap_S_seq 0) in Hrest. apply Forall2_fmap_l in Hrest.
      eapply Forall2_impl; [exact Hrest|]. cbn.
      intros i df' (city' & Hcity & Hdf'). exists city'. split; [exact Hcity|].
      rewrite <- Hdf'. f_equal. lia.
Qed.

(** X23. [get_multi_model_forecast] stages all cities or none.  With an
    empty registry it raises UnboundLocalError, as [current_timestamp] is
    assigned in the loop only, and writes nothing.  When the request or
    the parsing of one city raises, the run raises that exception and
    writes nothing, whatever was fetched for the cities before it.  When
    every city is fetched and parsed, one file is written in a single
    call of [save]: the frames of the cities one after the other in
    registry order, under the timestamp taken for the last city. *)
Theorem get_multi_model_forecast_all_or_nothing cities fs :
  (cities = [] →
     get_multi_model_forecast weather_api now isoformat cities fs
     = (Raise (UnboundLocalError "current_timestamp"), fs))
  ∧ (∀ (i : nat) city e,
       map fst cities !! i = Some city →
       city_frame cities i city = Raise e →
       (∀ (j : nat) c, (j < i)%nat → map fst cities !! j = Some c →
                       ∃ df, city_frame cities j c = Return df) →
       get_multi_model_forecast weather_api now isoformat cities fs
       = (Raise e, fs))
  ∧ (∀ frames,
       cities ≠ [] →
       Forall2 (λ i df, ∃ city, map fst cities !! i = Some city
                                ∧ city_frame cities i city = Return df)
               (seq 0 (length cities)) frames →
       get_multi_model_forecast weather_api now isoformat cities fs
       = (Return tt,
          Utilities.save (mjoin frames) "data/staging/openmeteo_forecasts"
            "multi_model_forecasts"
            (Some (isoformat (now (length cities - 1)%nat))) fs)).
Proof.
  unfold get_multi_model_forecast. split; [|split].
  - now intros ->.
  - intros i city e Hi He Hbefore.
    now rewrite (cities_loop_raises cities _ 0 i [] None city e Hi He Hbefore).
  - intros frames Hne Hframes.
    rewrite (cities_loop_returns cities _ 0 [] None frames).
    + destruct cities as [|item cities']; [contradiction|].
      cbn [map length app]. do 5 f_equal. rewrite length_map. lia.
    + now rewrite length_map.
Qed.

End run.

End OpenmeteoRunProps.

(** ** data_collection/nws_observations.py *)

Module NwsObservationsProps.
Import Python NwsObservations.

Section read.
Context {Value Exn : Type}.
Variable read_html : string → result Exn (list (list Series)).
Variable format : Value → string.
Variable now : nat → Z.
Variable isoformat : Z → string.

Implicit Types (df : list Series) (column date : list cell) (c : cell)
  (cities : list (string * list (string * Value))) (keys : list string).

(** A row of the page that repeats the header: its first cell is text with
    "Date" in it. *)
Definition footer c : bool :=
  match c with
  | Str s => contains "Date" s
  | _ => false
  end.

(** The cells of [column] in the rows whose date is no footer. *)
Definition observations date column : list cell :=
  map snd (filter (λ p, footer p.1 = false) (zip date column)).

Lemma select_observations date column :
  select column (map negb (map footer date)) = observations date column.
Proof.
  unfold observations. revert column.
  induction date as [|c date IH]; intros [|x column]; try reflexivity.
  cbn [map select zip zip_with]. rewrite filter_cons. cbn [fst].
  destruct (footer c); cbn [negb].
  - rewrite decide_False by discriminate. apply IH.
  - rewrite decide_True by reflexivity. cbn [map snd]. now rewrite IH.
Qed.

Lemma observations_date date :
  Forall (λ c, footer c = false) (observations date date).
Proof.
  unfold observations. apply Forall_forall.
  intros c ([d c'] & -> & [Hd Hin]%list_elem_of_filter)%list_elem_of_fmap.
  cbn [fst snd] in *. apply list_elem_of_lookup in Hin as [i Hi].
  apply lookup_zip_Some in Hi as [Hd' Hc']. congruence.
Qed.

(** The page of a station. *)
Definition page (nws_id : Value) : string :=
  "https://forecast.weather.gov/data/obhistory/K" +:+ format nws_id +:+ ".html".

Definition column_numbers : list nat := [0; 1; 2; 4; 6; 8]%nat.

Definition column_names : list string :=
  ["date"; "time"; "wind"; "weather"; "air"; "6_hour_max"]%string.

Lemma iloc_columns_short df :
  (length df < 9)%nat → iloc_columns df column_numbers = Raise IndexError.
Proof.
  intros Hlen. unfold iloc_columns, column_numbers.
  do 9 (destruct df as [|? df]; [reflexivity|]). cbn in Hlen. lia.
Qed.

Lemma iloc_columns_wide df :
  (9 ≤ length df)%nat →
  ∃ k0 k1 k2 k4 k6 k8 : Series,
    iloc_columns df column_numbers = Return [k0; k1; k2; k4; k6; k8]
    ∧ df !! 0%nat = Some k0 ∧ df !! 1%nat = Some k1 ∧ df !! 2%nat = Some k2
    ∧ df !! 4%nat = Some k4 ∧ df !! 6%nat = Some k6 ∧ df !! 8%nat = Some k8.
Proof.
  intros Hlen. unfold iloc_columns, column_numbers.
  do 9 (destruct df as [|? df]; [cbn in Hlen; lia|]).
  do 6 eexists. split; [reflexivity|]. repeat split.
Qed.

(** X24. [read_nws_table] on the first table of the station's page: a
    table of fewer than nine columns is an IndexError; a date column
    (column 0) whose dtype is not object has no [.str] accessor, an
    AttributeError; otherwise the frame returned has the six columns date,
    time, wind, weather, air and 6_hour_max, in this order, which are the
    columns 0, 1, 2, 4, 6 and 8 of the table without the rows whose date
    cell is text containing "Date" (the repeated header); the rows kept are
    in their order, a row with a missing date is kept, and no date left
    contains "Date". *)
Theorem read_nws_table_drops_the_footer (nws_id : Value) df rest :
  read_html (page nws_id) = Return (df :: rest) →
  ((length df < 9)%nat →
     read_nws_table read_html format nws_id = Raise (BuiltIn IndexError))
  ∧ (∀ date : Series, (9 ≤ length df)%nat → df !! 0%nat = Some date →
       (object_dtype date = false →
          read_nws_table read_html format nws_id = Raise AttributeError)
       ∧ (object_dtype date = true →
            ∃ out,
              read_nws_table read_html format nws_id = Return out
              ∧ map fst out = column_names
              ∧ (∀ (i n : nat) (column : Series),
                   column_numbers !! i = Some n → df !! n = Some column →
                   map snd out !! i
                   = Some (observations (values date) (values column)))
              ∧ Forall (λ c, footer c = false)
                       (observations (values date) (values date)))).
Proof.
  intros Hpage. unfold read_nws_table. fold (page nws_id). rewrite Hpage.
  cbn [mbind result_bind Openmeteo.getitem lookup list_lookup lift].
  fold column_numbers. split.
  - intros Hlen. now rewrite iloc_columns_short.
  - intros date Hlen Hdate.
    destruct (iloc_columns_wide df Hlen)
      as (k0 & k1 & k2 & k4 & k6 & k8 & -> & H0 & H1 & H2 & H4 & H6 & H8).
    rewrite Hdate in H0. injection H0 as <-.
    cbn [lift mbind result_bind zip zip_with InitLocalData.getitem].
    rewrite bool_decide_eq_true_2 by reflexivity.
    cbn [lift mbind result_bind]. unfold str_contains. split.
    + now intros ->.
    + intros ->. cbn [mbind result_bind map].
      replace (map (λ c, match c with Str s => contains "Date" s | _ => false end)
                   (values date))
        with (map footer (values date)) by reflexivity.
      rewrite !select_observations.
      eexists. split; [reflexivity|]. split; [reflexivity|]. split.
      * intros i n column Hi Hn.
        do 6 (destruct i as [|i]; [injection Hi as <-; cbn; congruence|]).
        discriminate.
      * apply observations_date.
Qed.

(** *** The run over all cities *)

(** The frame of one city, read as the [n]-th page of the run and tagged
    with the timestamp taken before the page was read. *)
Definition city_frame cities (n : nat) (city : string)
  : result (raised Exn) (list (string * list cell)) :=
  entry ← lift (InitLocalData.getitem cities city);
  nws_id ← lift (InitLocalData.getitem entry "nws_id");
  nws_update ← read_nws_table read_html format nws_id;
  Return (setitem_scalar
            (setitem_scalar nws_update "timestamp" (Timestamp (now n)))
            "city" (Str city)).

Lemma nws_cities_loop_cons cities city keys (n : nat) all_cities_df current_timestamp :
  cities_loop read_html format now cities (city :: keys) n all_cities_df
              current_timestamp
  = nws_update ← city_frame cities n city;
    cities_loop read_html format now cities keys (S n)
                (concat all_cities_df nws_update) (Some (now n)).
Proof.
  cbn [cities_loop]. unfold city_frame.
  destruct (lift (InitLocalData.getitem cities city)) as [entry|e]; [|reflexivity].
  cbn [mbind result_bind].
  destruct (lift (InitLocalData.getitem entry "nws_id")) as [nws_id|e];
    [|reflexivity].
  cbn [mbind result_bind].
  now destruct (read_nws_table read_html format nws_id).
Qed.

Lemma nws_cities_loop_raises cities keys : ∀ (n i : nat) all_cities_df ts city e,
  keys !! i = Some city →
  city_frame cities (n + i) city = Raise e →
  (∀ (j : nat) (c : string), (j < i)%nat → keys !! j = Some c →
                  ∃ update, city_frame cities (n + j) c = Return update) →
  cities_loop read_html format now cities keys n all_cities_df ts = Raise e.
Proof.
  induction keys as [|k keys IH]; intros n i all_cities_df ts city e Hi He Hbefore;
    [discriminate|].
  rewrite nws_cities_loop_cons. destruct i as [|i].
  - injection Hi as ->. rewrite Nat.add_0_r in He. now rewrite He.
  - destruct (Hbefore 0%nat k) as [update Hupdate]; [lia|reflexivity|].
    rewrite Nat.add_0_r in Hupdate. rewrite Hupdate. cbn [mbind result_bind].
    apply (IH (S n) i _ _ city e Hi).
    + rewrite <- He. f_equal. lia.
    + intros j c' Hj Hc'.
      destruct (Hbefore (S j) c') as [update' Hupdate']; [lia|exact Hc'|].
      exists update'. rewrite <- Hupdate'. f_equal. lia.
Qed.

Lemma nws_cities_loop_returns cities keys : ∀ (n : nat) all_cities_df ts updates,
  Forall2 (λ i update, ∃ city, keys !! i = Some city
                               ∧ city_frame cities (n + i) city = Return update)
          (seq 0 (length keys)) updates →
  cities_loop read_html format now cities keys n all_cities_df ts
  = Return (foldl concat all_cities_df updates,
            match keys with
            | [] => ts
            | _ :: _ => Some (now (n + length keys - 1)%nat)
            end).
Proof.
  induction keys as [|k keys IH]; intros n all_cities_df ts updates Hupdates.
  - now apply Forall2_nil_inv_l in Hupdates as ->.
  - cbn [length seq] in Hupdates.
    apply Forall2_cons_inv_l in Hupdates
      as (update & updates' & (city & [= <-] & Hupdate) & Hrest & ->).
    rewrite nws_cities_loop_cons. rewrite Nat.add_0_r in Hupdate. rewrite Hupdate.
    cbn [mbind result_bind]. rewrite (IH (S n) _ _ updates').
    + cbn [foldl]. f_equal. f_equal.
      destruct keys as [|k' keys]; cbn [length]; f_equal; f_equal; lia.
    + rewrite <- (fmap_S_seq 0) in Hrest. apply Forall2_fmap_l in Hrest.
      eapply Forall2_impl; [exact Hrest|]. cbn.
      intros i update' (city' & Hcity & Hupdate'). exists city'.
      split; [exact Hcity|]. rewrite <- Hupdate'. f_equal. lia.
Qed.

(** X25. [get_nws_data] stages all cities or none.  With an empty
    registry it raises UnboundLocalError ([current_timestamp] is assigned in
    the loop only) and neither writes nor prints.  When the entry of a
    city has no "nws_id", or its page cannot be read or parsed, the run
    raises that exception and neither writes nor prints, whatever was read
    for the cities before it.  When every city is read, one file is
    written in a single call of [save]: the tagged frames of the cities
    concatenated in registry order, under the timestamp taken for the last
    city; the shape of that frame and the timestamp are printed. *)
Theorem get_nws_data_all_or_nothing cities (w : Disk) :
  (cities = [] →
     get_nws_data read_html format now isoformat cities w
     = (Raise (UnboundLocalError "current_timestamp"), w))
  ∧ (∀ (i : nat) city e,
       map fst cities !! i = Some city →
       city_frame cities i city = Raise e →
       (∀ (j : nat) (c : string), (j < i)%nat → map fst cities !! j = Some c →
                       ∃ update, city_frame cities j c = Return update) →
       get_nws_data read_html format now isoformat cities w = (Raise e, w))
  ∧ (∀ updates,
       cities ≠ [] →
       Forall2 (λ i update, ∃ city, map fst cities !! i = Some city
                                    ∧ city_frame cities i city = Return update)
               (seq 0 (length cities)) updates →
       get_nws_data read_html format now isoformat cities w
       = (Return tt,
          mkDisk
            (Utilities.save (foldl concat [] updates)
               "data/staging/nws_observations" "nws_observations"
               (Some (isoformat (now (length cities - 1)%nat))) (files w))
            (stdout w ++ [(nrows (foldl concat [] updates),
                           length (foldl concat [] updates),
                           now (length cities - 1)%nat)]))).
Proof.
  unfold get_nws_data. split; [|split].
  - now intros ->.
  - intros i city e Hi He Hbefore.
    now rewrite (nws_cities_loop_raises cities _ 0 i [] None city e Hi He Hbefore).
  - intros updates Hne Hupdates.
    rewrite (nws_cities_loop_returns cities _ 0 [] None updates).
    + destruct cities as [|item cities']; [contradiction|].
      cbn [map length]. rewrite length_map.
      now replace (0 + S (length cities') - 1)%nat with (S (length cities') - 1)%nat
        by lia.
    + now rewrite length_map.
Qed.

End read.

(** A page whose table has the header again as its last row. *)
Definition midway_table : list Series :=
  [ mkSeries true [Str "03"; NaN; Str "Date"];
    mkSeries true [Str "14:53"; Str "13:53"; Str "Time (cst)"];
    mkSeries true [Str "S 9"; Str "S 10"; Str "Wind (mph)"];
    mkSeries true [Str "10.00"; Str "10.00"; Str "Vis. (mi.)"];
    mkSeries true [Str "Fair"; Str "Cloudy"; Str "Weather"];
    mkSeries true [Str "CLR"; Str "BKN"; Str "Sky Cond."];
    mkSeries true [Str "57"; Str "56"; Str "Air"];
    mkSeries true [Str "41"; Str "40"; Str "Dwpt"];
    mkSeries false [NaN; Num 58; NaN] ].

Definition midway_page : list (list Series) := [midway_table].

Lemma read_nws_table_drops_the_footer_witness :
  ((length midway_table < 9)%nat →
     read_nws_table (Exn := string) (λ _, Return midway_page) (λ v, v) "MDW"
     = Raise (BuiltIn IndexError))
  ∧ (∀ date : Series, (9 ≤ length midway_table)%nat →
       midway_table !! 0%nat = Some date →
       (object_dtype date = false →
          read_nws_table (Exn := string) (λ _, Return midway_page) (λ v, v) "MDW"
          = Raise AttributeError)
       ∧ (object_dtype date = true →
            ∃ out,
              read_nws_table (Exn := string) (λ _, Return midway_page) (λ v, v)
                             "MDW" = Return out
              ∧ map fst out = column_names
              ∧ (∀ (i n : nat) (column : Series),
                   column_numbers !! i = Some n →
                   midway_table !! n = Some column →
                   map snd out !! i
                   = Some (observations (values date) (values column)))
              ∧ Forall (λ c, footer c = false)
                       (observations (values date) (values date)))).
Proof.
  apply (read_nws_table_drops_the_footer (Exn := string)
           (λ _, Return midway_page) (λ v, v) "MDW" midway_table []).
  reflexivity.
Defined.

Example read_nws_table_midway :
  read_nws_table (Exn := string) (λ _, Return midway_page) (λ v, v) "MDW"
  = Return [("date"%string, [Str "03"; NaN]);
            ("time"%string, [Str "14:53"; Str "13:53"]);
            ("wind"%string, [Str "S 9"; Str "S 10"]);
            ("weather"%string, [Str "Fair"; Str "Cloudy"]);
            ("air"%string, [Str "57"; Str "56"]);
            ("6_hour_max"%string, [NaN; Num 58])].
Proof. reflexivity. Qed.

End NwsObservationsProps.

(** ** scripts/init_local_data.py: the run *)

Module InitRunProps.
Import Python InitLocalData.

(** The directories [_ensure_dirs] makes. *)
Definition data_directories : gset string :=
  {[ "local_data"; "local_data/fact_observation"; "local_data/fact_forecast";
     "local_data/fact_quote"; "local_data/fact_order";
     "local_data/fact_execution"; "local_data/fact_cash_ledger" ]}%string.

Lemma _ensure_dirs_directories fs :
  directories (_ensure_dirs fs) = data_directories ∪ directories fs.
Proof.
  unfold _ensure_dirs, mkdir, data_directories, BASE. cbn.
  apply set_eq. intros x. rewrite !elem_of_union, !elem_of_singleton. tauto.
Qed.

(** X26. On every file system [init] makes the directory local_data and
    its six fact directories and then stops with KeyError('dim_location'),
    before any table is written: [SCHEMAS] has its location schema under
    the key "location", and no key "dim_location".  The tables found are
    all left as they were, none is added, and a second run does the
    same. *)
Theorem init_stops_before_any_table fs :
  (init fs).1 = Raise (KeyError "dim_location")
  ∧ getitem SCHEMAS "dim_location" = Raise (KeyError "dim_location")
  ∧ is_Some (FileSearch.dict_get SCHEMAS "location")
  ∧ tables (init fs).2 = tables fs
  ∧ directories (init fs).2 = data_directories ∪ directories fs
  ∧ init (init fs).2 = init fs.
Proof.
  split; [reflexivity|]. split; [reflexivity|]. split; [cbn; eauto|].
  split; [reflexivity|]. split; [apply _ensure_dirs_directories|].
  change (init fs) with (Raise (E := exception) (A := unit) (KeyError "dim_location"),
                         _ensure_dirs fs).
  cbn [snd].
  change (init (_ensure_dirs fs))
    with (Raise (E := exception) (A := unit) (KeyError "dim_location"),
          _ensure_dirs (_ensure_dirs fs)).
  f_equal. destruct fs as [dirs tabs].
  assert (directories (_ensure_dirs (_ensure_dirs (mkFileSystem dirs tabs)))
          = directories (_ensure_dirs (mkFileSystem dirs tabs))) as Hdirs.
  { rewrite !_ensure_dirs_directories. apply set_eq. intros x.
    rewrite !elem_of_union. tauto. }
  change (_ensure_dirs (_ensure_dirs (mkFileSystem dirs tabs)))
    with (mkFileSystem
            (directories (_ensure_dirs (_ensure_dirs (mkFileSystem dirs tabs)))) tabs).
  rewrite Hdirs. reflexivity.
Qed.

End InitRunProps.
